(** * atp-watcher-bot: the tiered threshold monitoring engine

    A shallow embedding of the three watchers of the bot
    ([PriceWatcher], [IQPriceWatcher], [HoldingsWatcher]), of the
    [DatabaseService] tables they write and of the two numeric helpers of
    [AgentsApiService] they call, followed by the properties of the
    specification that concern them.

    Conventions of the embedding.
    - A JavaScript [number] is an exact rational ([Q]); rounding, NaN and the
      infinities of IEEE doubles are outside that model. Where a property
      turns on them (the tiers [addToken] computes), the expression is given
      in IEEE 754 binary64 as well, in module [Double].
    - The remote API is a scripted mock: every endpoint has a queue of
      answers, a request takes the next one (an exhausted queue is a network
      failure) and is recorded in a request log.
    - [Date.now()] / [new Date()] read the field [now] of the environment;
      one monitoring cycle reads a single instant.
    - An [await] inside a cycle is atomic: a cycle runs from its first to its
      last statement with the answer of the API as the only input. So does
      every operation of a watcher; a property about several operations is
      about operations that run one after the other, none while another is
      suspended at an [await], and says so.
    - SQLite statements never fail, but for [LIMIT ?] bound to a number
      that is no whole number of 64 bits ([Database.getPriceHistoryWith]).
    - The text of a message is not rendered: a message is the tuple of values
      its [create...Message] function formats. *)

From Stdlib Require Import QArith Qabs ZArith List Lia Lqa SpecFloat.
From stdpp Require Import gmap strings list fin_maps sorting.

Local Open Scope Q_scope.

(** ** JavaScript numbers as rationals *)

Module Num.

(** [a >= b] *)
Definition geb (a b : Q) : bool := Qle_bool b a.
(** [a > b] *)
Definition gtb (a b : Q) : bool := negb (Qle_bool a b).
(** [a < b] *)
Definition ltb (a b : Q) : bool := negb (Qle_bool b a).
(** [a === b] on numbers *)
Definition eqb (a b : Q) : bool := Qeq_bool a b.
(** [Math.abs] *)
Definition Math_abs (a : Q) : Q := Qabs a.

End Num.

(** ** JavaScript numbers as IEEE 754 doubles

    The [number] of the source is a binary64 float and its [*] and [<] are
    the IEEE operations, rounding to nearest, ties to even: the
    specification [SpecFloat] of the standard library at precision 53 and
    maximal exponent 1024. *)

Module Double.

Definition prec : Z := 53.
Definition emax : Z := 1024.

Definition number := spec_float.

(** The values of [spec_float] that are doubles. *)
Definition valid (x : number) : bool := valid_binary prec emax x.

(** A literal that is a whole number. *)
Definition ofZ (n : Z) : number := binary_normalize prec emax n 0 false.

(** [x * y] *)
Definition mul : number -> number -> number := SFmul prec emax.

(** [x < y] *)
Definition ltb : number -> number -> bool := SFltb.

(** [Number.isFinite] *)
Definition isFinite (x : number) : bool :=
  match x with
  | S754_finite _ _ _ | S754_zero _ => true
  | _ => false
  end.

(** The value of mantissa [m] at exponent [e], in units of 2^-1200: a
    whole number for every double and every product of two. *)
Definition scaled (m e : Z) : Z := (m * 2 ^ (e + 1200))%Z.

End Double.

(** ** services/agents.ts *)

Module AgentsApi.

(** [AgentStats]: the watchers read [currentPriceInUSD] only. *)
Record AgentStats := { currentPriceInUSD : Q }.

(** [Holding]; [tokenAmount] is the value [parseFloat] gives for the string
    of the source. *)
Record Holding := {
  tokenContract : string;
  tokenAmount : Q;
  name : string;
  currentPriceInUsd : Q
}.

Record HoldingsResponse := { count : nat; holdings : list Holding }.

(** [PricesResponse]: [everipedia.usd]. *)
Record PricesResponse := { everipedia_usd : Q }.

(** A rejected promise carries an error; a resolved one a value. *)
Inductive Result (A : Type) : Type :=
| Ok (a : A)
| Err (e : string).
Arguments Ok {A} a.
Arguments Err {A} e.

Inductive Request : Type :=
| GetHoldings (address : string)
| GetPrices
| GetAgentStats (address : string).

(** The mock of the remote service. *)
Record t := {
  statsQueue : list (Result AgentStats);
  holdingsQueue : list (Result HoldingsResponse);
  pricesQueue : list (Result PricesResponse);
  requests : list Request
}.

Definition next {A} (q : list (Result A)) : Result A * list (Result A) :=
  match q with
  | [] => (Err "Network Error", [])
  | r :: q' => (r, q')
  end.

Definition getAgentStats (address : string) (api : t) : Result AgentStats * t :=
  let (r, q) := next (statsQueue api) in
  (r, {| statsQueue := q; holdingsQueue := holdingsQueue api;
         pricesQueue := pricesQueue api;
         requests := requests api ++ [GetAgentStats address] |}).

Definition getHoldings (address : string) (api : t) : Result HoldingsResponse * t :=
  let (r, q) := next (holdingsQueue api) in
  (r, {| statsQueue := statsQueue api; holdingsQueue := q;
         pricesQueue := pricesQueue api;
         requests := requests api ++ [GetHoldings address] |}).

Definition getPrices (api : t) : Result PricesResponse * t :=
  let (r, q) := next (pricesQueue api) in
  (r, {| statsQueue := statsQueue api; holdingsQueue := holdingsQueue api;
         pricesQueue := q;
         requests := requests api ++ [GetPrices] |}).

(** [holdings.reduce((total, h) => total + amount * h.currentPriceInUsd, 0)] *)
Definition calculateHoldingsValue (hs : list Holding) : Q :=
  fold_left (fun total h => total + tokenAmount h * currentPriceInUsd h) hs 0.

Definition calculatePercentageChange (oldValue newValue : Q) : Q :=
  if Num.eqb oldValue 0 then 0
  else ((newValue - oldValue) / oldValue) * 100.

End AgentsApi.

(** The [severity] of an alert, and the tier of the specification it stands
    for: a branch of the classification sets its own severity, and ["medium"]
    is the value the variable holds when no branch is taken. *)
Module Alert.

Inductive Severity := low | medium | high | critical.

Inductive Tier := minor | major | crit.

Definition tierOf (s : Severity) : option Tier :=
  match s with
  | critical => Some crit
  | high => Some major
  | low => Some minor
  | medium => None
  end.

(** critical above major above minor *)
Definition rank (t : Tier) : nat :=
  match t with minor => 1 | major => 2 | crit => 3 end.

End Alert.

(** ** services/database.ts *)

Module Database.

(** What a [create...Message] function of a watcher is applied to. *)
Inductive Message : Type :=
| ThresholdMessage (currentValue threshold : Q)
| ChangeMessage (currentValue previousValue change changePercentage : Q)
| IQPriceAlertMessage
    (currentPrice previousPrice change changePercentage threshold : Q)
    (severity : Alert.Severity)
| PriceAlertMessage (tokenName : string)
    (currentPrice previousPrice change changePercentage threshold : Q).

Record PriceHistoryRecord := {
  ph_id : nat;
  ph_tokenContract : string;
  ph_tokenName : string;
  ph_price : Q;
  ph_timestamp : Z
}.

Inductive AlertCategory := holdings | price | iq_price.

Record AlertRecord := {
  al_id : nat;
  al_type : AlertCategory;
  al_tokenContract : option string;
  al_message : Message;
  al_timestamp : Z;
  al_triggered : bool
}.

(** A row of [watched_tokens], keyed by its UNIQUE [token_contract]. *)
Record WatchedToken := {
  wt_tokenContract : string;
  wt_tokenName : string;
  wt_priceChangeThreshold : Q;
  wt_minorThreshold : Q;
  wt_majorThreshold : Q;
  wt_criticalThreshold : Q;
  wt_checkInterval : Q;
  wt_lastPrice : Q;
  wt_lastCheckTime : Z;
  wt_isActive : bool;
  wt_enableMinorAlerts : bool;
  wt_enableMajorAlerts : bool;
  wt_enableCriticalAlerts : bool;
  wt_updatedAt : Z
}.

(** [Partial<WatchedToken>]: [None] is a key that is [undefined]. *)
Record WatchedTokenUpdate := {
  u_tokenName : option string;
  u_priceChangeThreshold : option Q;
  u_minorThreshold : option Q;
  u_majorThreshold : option Q;
  u_criticalThreshold : option Q;
  u_checkInterval : option Q;
  u_lastPrice : option Q;
  u_lastCheckTime : option Z;
  u_isActive : option bool;
  u_enableMinorAlerts : option bool;
  u_enableMajorAlerts : option bool;
  u_enableCriticalAlerts : option bool
}.

Definition noUpdate : WatchedTokenUpdate :=
  {| u_tokenName := None; u_priceChangeThreshold := None;
     u_minorThreshold := None; u_majorThreshold := None;
     u_criticalThreshold := None; u_checkInterval := None;
     u_lastPrice := None; u_lastCheckTime := None; u_isActive := None;
     u_enableMinorAlerts := None; u_enableMajorAlerts := None;
     u_enableCriticalAlerts := None |}.

Record t := {
  price_history : list PriceHistoryRecord;
  price_history_seq : nat;
  alerts : list AlertRecord;
  alerts_seq : nat;
  watched_tokens : gmap string WatchedToken
}.

Definition empty : t :=
  {| price_history := []; price_history_seq := 0;
     alerts := []; alerts_seq := 0; watched_tokens := ∅ |}.

(** [INSERT INTO price_history]: the AUTOINCREMENT id is the next of the
    sequence. *)
Definition addPriceHistory (tokenContract tokenName : string) (p : Q)
    (timestamp : Z) (db : t) : t :=
  let id := S (price_history_seq db) in
  {| price_history := price_history db ++
       [{| ph_id := id; ph_tokenContract := tokenContract;
           ph_tokenName := tokenName; ph_price := p;
           ph_timestamp := timestamp |}];
     price_history_seq := id;
     alerts := alerts db; alerts_seq := alerts_seq db;
     watched_tokens := watched_tokens db |}.

(** [x || null] on an optional string: [undefined] and the empty string
    give [null]. *)
Definition orNull (x : option string) : option string :=
  match x with
  | Some s => if decide (s = EmptyString) then None else Some s
  | None => None
  end.

(** [INSERT INTO alerts]; the result is [lastInsertRowid]. *)
Definition addAlert (type : AlertCategory) (tokenContract : option string)
    (message : Message) (timestamp : Z) (triggered : bool) (db : t) : nat * t :=
  let id := S (alerts_seq db) in
  (id,
   {| price_history := price_history db;
      price_history_seq := price_history_seq db;
      alerts := alerts db ++
        [{| al_id := id; al_type := type;
            al_tokenContract := orNull tokenContract;
            al_message := message; al_timestamp := timestamp;
            al_triggered := triggered |}];
      alerts_seq := id;
      watched_tokens := watched_tokens db |}).

Definition set_watched_tokens (m : gmap string WatchedToken) (db : t) : t :=
  {| price_history := price_history db;
     price_history_seq := price_history_seq db;
     alerts := alerts db; alerts_seq := alerts_seq db;
     watched_tokens := m |}.

(** [INSERT OR REPLACE INTO watched_tokens]: [row] carries the values of
    the statement, [updated_at] included. *)
Definition addWatchedToken (row : WatchedToken) (db : t) : t :=
  set_watched_tokens (<[wt_tokenContract row := row]> (watched_tokens db)) db.

(** [x !== undefined] *)
Definition defined {A} (o : option A) : bool :=
  match o with Some _ => true | None => false end.

(** [fields.length !== 0] *)
Definition hasFields (u : WatchedTokenUpdate) : bool :=
  defined (u_tokenName u) || defined (u_priceChangeThreshold u)
  || defined (u_minorThreshold u) || defined (u_majorThreshold u)
  || defined (u_criticalThreshold u) || defined (u_checkInterval u)
  || defined (u_lastPrice u) || defined (u_lastCheckTime u)
  || defined (u_isActive u) || defined (u_enableMinorAlerts u)
  || defined (u_enableMajorAlerts u) || defined (u_enableCriticalAlerts u).

Definition applyUpdate (u : WatchedTokenUpdate) (updatedAt : Z)
    (row : WatchedToken) : WatchedToken :=
  {| wt_tokenContract := wt_tokenContract row;
     wt_tokenName := default (wt_tokenName row) (u_tokenName u);
     wt_priceChangeThreshold :=
       default (wt_priceChangeThreshold row) (u_priceChangeThreshold u);
     wt_minorThreshold := default (wt_minorThreshold row) (u_minorThreshold u);
     wt_majorThreshold := default (wt_majorThreshold row) (u_majorThreshold u);
     wt_criticalThreshold :=
       default (wt_criticalThreshold row) (u_criticalThreshold u);
     wt_checkInterval := default (wt_checkInterval row) (u_checkInterval u);
     wt_lastPrice := default (wt_lastPrice row) (u_lastPrice u);
     wt_lastCheckTime := default (wt_lastCheckTime row) (u_lastCheckTime u);
     wt_isActive := default (wt_isActive row) (u_isActive u);
     wt_enableMinorAlerts :=
       default (wt_enableMinorAlerts row) (u_enableMinorAlerts u);
     wt_enableMajorAlerts :=
       default (wt_enableMajorAlerts row) (u_enableMajorAlerts u);
     wt_enableCriticalAlerts :=
       default (wt_enableCriticalAlerts row) (u_enableCriticalAlerts u);
     wt_updatedAt := updatedAt |}.

(** [UPDATE watched_tokens SET ... WHERE token_contract = ?]; nothing is
    run when no key of [updates] is defined. *)
Definition updateWatchedToken (tokenContract : string)
    (updates : WatchedTokenUpdate) (timestamp : Z) (db : t) : t :=
  if hasFields updates then
    set_watched_tokens
      (alter (applyUpdate updates timestamp) tokenContract (watched_tokens db)) db
  else db.

(** [UPDATE watched_tokens SET is_active = 0, updated_at = ?] *)
Definition removeWatchedToken (tokenContract : string) (timestamp : Z)
    (db : t) : t :=
  set_watched_tokens
    (alter (fun row => applyUpdate
              {| u_tokenName := None; u_priceChangeThreshold := None;
                 u_minorThreshold := None; u_majorThreshold := None;
                 u_criticalThreshold := None; u_checkInterval := None;
                 u_lastPrice := None; u_lastCheckTime := None;
                 u_isActive := Some false;
                 u_enableMinorAlerts := None; u_enableMajorAlerts := None;
                 u_enableCriticalAlerts := None |} timestamp row)
           tokenContract (watched_tokens db)) db.

(** *** [cleanOldPriceHistory]

    The statement is followed query by query. Rows with equal timestamps
    are numbered in the order the (stable) sort leaves them, which is the
    order of insertion; SQLite does not promise one. *)

(** [ORDER BY timestamp DESC] *)
Definition newerFirst (r1 r2 : PriceHistoryRecord) : Prop :=
  (ph_timestamp r2 <= ph_timestamp r1)%Z.

Global Instance newerFirst_dec r1 r2 : Decision (newerFirst r1 r2) :=
  Z_le_dec (ph_timestamp r2) (ph_timestamp r1).

(** one window of [PARTITION BY token_contract] *)
Definition partitionOf (tokenContract : string)
    (rows : list PriceHistoryRecord) : list PriceHistoryRecord :=
  filter (fun r => ph_tokenContract r = tokenContract) rows.

(** [SELECT id, ROW_NUMBER() OVER (PARTITION BY token_contract
     ORDER BY timestamp DESC) as rn FROM price_history] *)
Definition rowNumbers (rows : list PriceHistoryRecord) : list (nat * nat) :=
  remove_dups (ph_tokenContract <$> rows) ≫= fun tc =>
    imap (fun i r => (ph_id r, S i)) (merge_sort newerFirst (partitionOf tc rows)).

(** [SELECT id FROM (...) WHERE rn <= keep] *)
Definition keptIds (keep : nat) (rows : list PriceHistoryRecord) : list nat :=
  fst <$> filter (fun x => snd x ≤ keep) (rowNumbers rows).

(** [DELETE FROM price_history WHERE id NOT IN (...)] *)
Definition deleteOld (keep : nat) (rows : list PriceHistoryRecord)
    : list PriceHistoryRecord :=
  filter (fun r => ph_id r ∈ keptIds keep rows) rows.

Definition cleanOldPriceHistory (db : t) : t :=
  {| price_history := deleteOld 1000 (price_history db);
     price_history_seq := price_history_seq db;
     alerts := alerts db; alerts_seq := alerts_seq db;
     watched_tokens := watched_tokens db |}.

(** What AUTOINCREMENT and PRIMARY KEY give for [price_history]: no id
    twice, every id issued by the sequence. *)
Definition wf (db : t) : Prop :=
  NoDup (ph_id <$> price_history db)
  /\ Forall (fun r => ph_id r ≤ price_history_seq db) (price_history db).

(** *** Queries

    [getPriceHistory], [getLatestPrice], [getRecentAlerts] and
    [getWatchedToken] answer with the rows as the table holds them
    ([SELECT *], no renaming): a record below is such a row, its fields the
    columns. No row is [None], which the source gives as [undefined]. *)

(** [SELECT * FROM price_history WHERE token_contract = ?
     ORDER BY timestamp DESC LIMIT ?] at a [limit] that is a count;
    [getPriceHistoryWith] below is the query at any number. *)
Definition getPriceHistory (tokenContract : string) (limit : nat) (db : t)
    : list PriceHistoryRecord :=
  take limit (merge_sort newerFirst (partitionOf tokenContract (price_history db))).



(** The same query with [LIMIT 1], read with [get]. *)
Definition getLatestPrice (tokenContract : string) (db : t)
    : option PriceHistoryRecord :=
  head (getPriceHistory tokenContract 1 db).

(** [ORDER BY timestamp DESC] on [alerts] *)
Definition newerAlertFirst (a1 a2 : AlertRecord) : Prop :=
  (al_timestamp a2 <= al_timestamp a1)%Z.

Global Instance newerAlertFirst_dec a1 a2 : Decision (newerAlertFirst a1 a2) :=
  Z_le_dec (al_timestamp a2) (al_timestamp a1).

(** [SELECT * FROM alerts ORDER BY timestamp DESC LIMIT ?] *)
Definition getRecentAlerts (limit : nat) (db : t) : list AlertRecord :=
  take limit (merge_sort newerAlertFirst (alerts db)).

Definition set_triggered (r : AlertRecord) : AlertRecord :=
  {| al_id := al_id r; al_type := al_type r;
     al_tokenContract := al_tokenContract r; al_message := al_message r;
     al_timestamp := al_timestamp r; al_triggered := true |}.

(** [UPDATE alerts SET triggered = 1 WHERE id = ?] *)
Definition markAlertAsTriggered (id : nat) (db : t) : t :=
  {| price_history := price_history db;
     price_history_seq := price_history_seq db;
     alerts := (fun r => if decide (al_id r = id) then set_triggered r else r)
               <$> alerts db;
     alerts_seq := alerts_seq db;
     watched_tokens := watched_tokens db |}.

(** [SELECT * FROM watched_tokens WHERE token_contract = ? AND is_active = 1] *)
Definition getWatchedToken (tokenContract : string) (db : t)
    : option WatchedToken :=
  match watched_tokens db !! tokenContract with
  | Some row => if wt_isActive row then Some row else None
  | None => None
  end.

(** [getWatchedTokens(activeOnly)] answers with the rows in the order of
    [created_at DESC], a column the model does not keep: [rows] is an answer
    when it lists the selected rows, each once, in some order. *)
Definition getWatchedTokens (activeOnly : bool) (db : t)
    (rows : list WatchedToken) : Prop :=
  rows ≡ₚ filter (fun row => activeOnly = true -> wt_isActive row = true)
            (map_to_list (watched_tokens db)).*2.



(** What AUTOINCREMENT and PRIMARY KEY give for [alerts]. *)
Definition wfAlerts (db : t) : Prop :=
  NoDup (al_id <$> alerts db)
  /\ Forall (fun r => al_id r ≤ alerts_seq db) (alerts db).

(** [token_contract] is the key of its row. *)
Definition wfWatched (db : t) : Prop :=
  forall k row, watched_tokens db !! k = Some row -> wt_tokenContract row = k.

End Database.

(** ** The table [user_preferences] *)

(** The two methods of the database service on [user_preferences]; they
    read and write no other table. *)
Module Preferences.

Record UserPreference := {
  value : string;
  updatedAt : Z
}.

Local Abbreviation t := (gmap string UserPreference).

(** [INSERT OR REPLACE INTO user_preferences (key, value, updated_at)] *)
Definition setPreference (key value : string) (now : Z) (p : t) : t :=
  <[key := {| value := value; updatedAt := now |}]> p.

(** [result?.value || null]: the empty string is falsy. *)
Definition getPreference (key : string) (p : t) : option string :=
  match p !! key with
  | Some row =>
    if decide (value row = EmptyString) then None else Some (value row)
  | None => None
  end.

End Preferences.

(** ** What the watchers share *)

(** The singletons [agentsApi] and [database], and the clock. *)
Module Env.

Record t := {
  api : AgentsApi.t;
  db : Database.t;
  now : Z
}.

Definition set_api (a : AgentsApi.t) (e : t) : t :=
  {| api := a; db := db e; now := now e |}.

Definition set_db (d : Database.t) (e : t) : t :=
  {| api := api e; db := d; now := now e |}.

End Env.

(** ** services/price-watcher.ts *)

Module PriceWatcher.

Inductive AlertType :=
| price_increase | price_decrease | significant_change
| minor_change | major_change | critical_change.

Record PriceAlert := {
  type : AlertType;
  severity : Alert.Severity;
  message : Database.Message;
  a_tokenContract : string;
  a_tokenName : string;
  currentPrice : Q;
  previousPrice : Q;
  change : Q;
  changePercentage : Q;
  a_threshold : Q;
  timestamp : Z
}.

Record ThresholdConfig := { minor : Q; major : Q; critical : Q }.

Record TokenWatchConfig := {
  tokenContract : string;
  tokenName : string;
  thresholds : ThresholdConfig;
  checkInterval : Q;
  enableMinorAlerts : bool;
  enableMajorAlerts : bool;
  enableCriticalAlerts : bool
}.

(** [Partial<TokenWatchConfig>]: [None] is an absent key. *)
Record TokenWatchConfigUpdate := {
  p_tokenContract : option string;
  p_tokenName : option string;
  p_thresholds : option ThresholdConfig;
  p_checkInterval : option Q;
  p_enableMinorAlerts : option bool;
  p_enableMajorAlerts : option bool;
  p_enableCriticalAlerts : option bool
}.

Record TrackedToken := {
  config : TokenWatchConfig;
  lastPrice : Q;
  lastCheckTime : Z;
  intervalId : option nat
}.

(** What the watcher emits as an [EventEmitter]. *)
Inductive Event :=
| started
| stopped
| token_added (tokenContract tokenName : string) (initialPrice : Q)
| token_removed (tokenContract tokenName : string)
| alert (a : PriceAlert)
| error (e : string).

(** A timer armed by [setInterval]: the token its callback checks and its
    period in milliseconds. *)
Record Timer := { timerToken : string; timerMs : Q }.

(** The object: its two fields, the events it has emitted and the timers
    it has armed. *)
Record t := {
  trackedTokens : gmap string TrackedToken;
  isRunning : bool;
  emitted : list Event;
  timers : gmap nat Timer;
  timerSeq : nat
}.

Definition init : t :=
  {| trackedTokens := ∅; isRunning := false; emitted := [];
     timers := ∅; timerSeq := 0 |}.

Definition emit (ev : Event) (w : t) : t :=
  {| trackedTokens := trackedTokens w; isRunning := isRunning w;
     emitted := emitted w ++ [ev];
     timers := timers w; timerSeq := timerSeq w |}.

Definition set_trackedTokens (m : gmap string TrackedToken) (w : t) : t :=
  {| trackedTokens := m; isRunning := isRunning w; emitted := emitted w;
     timers := timers w; timerSeq := timerSeq w |}.

(** [clearInterval] *)
Definition clearInterval (id : nat) (w : t) : t :=
  {| trackedTokens := trackedTokens w; isRunning := isRunning w;
     emitted := emitted w;
     timers := delete id (timers w); timerSeq := timerSeq w |}.

(** [setInterval]: the handle and the object with the timer armed. *)
Definition setInterval (tm : Timer) (w : t) : nat * t :=
  let id := S (timerSeq w) in
  (id, {| trackedTokens := trackedTokens w; isRunning := isRunning w;
          emitted := emitted w;
          timers := <[id := tm]> (timers w); timerSeq := id |}).

Definition set_lastPrice (p : Q) (time : Z) (tk : TrackedToken) : TrackedToken :=
  {| config := config tk; lastPrice := p; lastCheckTime := time;
     intervalId := intervalId tk |}.

Definition set_intervalId (i : option nat) (tk : TrackedToken) : TrackedToken :=
  {| config := config tk; lastPrice := lastPrice tk;
     lastCheckTime := lastCheckTime tk; intervalId := i |}.

Definition set_config (c : TokenWatchConfig) (tk : TrackedToken) : TrackedToken :=
  {| config := c; lastPrice := lastPrice tk;
     lastCheckTime := lastCheckTime tk; intervalId := intervalId tk |}.

(** The four variables the classification of [checkTokenPrice] assigns. *)
Record Classification := {
  alertType : AlertType;
  alertSeverity : Alert.Severity;
  threshold : Q;
  shouldAlert : bool
}.

(** "Determine alert type based on threshold exceeded". *)
Definition classify (cfg : TokenWatchConfig) (changePercentage : Q)
    : Classification :=
  if Num.geb (Num.Math_abs changePercentage) (critical (thresholds cfg)) then
    {| alertType := critical_change; alertSeverity := Alert.critical;
       threshold := critical (thresholds cfg);
       shouldAlert := enableCriticalAlerts cfg |}
  else if Num.geb (Num.Math_abs changePercentage) (major (thresholds cfg)) then
    {| alertType := major_change; alertSeverity := Alert.high;
       threshold := major (thresholds cfg);
       shouldAlert := enableMajorAlerts cfg |}
  else if Num.geb (Num.Math_abs changePercentage) (minor (thresholds cfg)) then
    {| alertType := minor_change; alertSeverity := Alert.low;
       threshold := minor (thresholds cfg);
       shouldAlert := enableMinorAlerts cfg |}
  else
    {| alertType := significant_change; alertSeverity := Alert.medium;
       threshold := 0; shouldAlert := false |}.

Definition checkTokenPrice (tokenContract : string) (w : t) (e : Env.t)
    : t * Env.t :=
  match trackedTokens w !! tokenContract with
  | None => (w, e)
  | Some token =>
    let (r, api') := AgentsApi.getAgentStats tokenContract (Env.api e) in
    let e := Env.set_api api' e in
    match r with
    | AgentsApi.Err err => (emit (error err) w, e)
    | AgentsApi.Ok stats =>
      let currentPrice := AgentsApi.currentPriceInUSD stats in
      let previousPrice := lastPrice token in
      let change := currentPrice - previousPrice in
      let changePercentage :=
        AgentsApi.calculatePercentageChange previousPrice currentPrice in
      if Num.eqb (Num.Math_abs changePercentage) 0 then (w, e)
      else
        let c := classify (config token) changePercentage in
        let w :=
          if shouldAlert c && Num.gtb (threshold c) 0 then
            emit (alert
              {| type := alertType c; severity := alertSeverity c;
                 message := Database.PriceAlertMessage
                   (tokenName (config token)) currentPrice previousPrice
                   change changePercentage (threshold c);
                 a_tokenContract := tokenContract;
                 a_tokenName := tokenName (config token);
                 currentPrice := currentPrice;
                 previousPrice := previousPrice;
                 change := change; changePercentage := changePercentage;
                 a_threshold := threshold c;
                 timestamp := Env.now e |}) w
          else w in
        let e := Env.set_db
          (Database.addPriceHistory tokenContract (tokenName (config token))
             currentPrice (Env.now e) (Env.db e)) e in
        let w := set_trackedTokens
          (<[tokenContract := set_lastPrice currentPrice (Env.now e) token]>
             (trackedTokens w)) w in
        let e := Env.set_db
          (Database.updateWatchedToken tokenContract
             {| Database.u_tokenName := None;
                Database.u_priceChangeThreshold := None;
                Database.u_minorThreshold := None;
                Database.u_majorThreshold := None;
                Database.u_criticalThreshold := None;
                Database.u_checkInterval := None;
                Database.u_lastPrice := Some currentPrice;
                Database.u_lastCheckTime := Some (Env.now e);
                Database.u_isActive := None;
                Database.u_enableMinorAlerts := None;
                Database.u_enableMajorAlerts := None;
                Database.u_enableCriticalAlerts := None |}
             (Env.now e) (Env.db e)) e in
        (w, e)
    end
  end.

Definition stopTrackingToken (tokenContract : string) (w : t) : t :=
  match trackedTokens w !! tokenContract with
  | None => w
  | Some token =>
    match intervalId token with
    | Some id =>
      set_trackedTokens
        (<[tokenContract := set_intervalId None token]> (trackedTokens w))
        (clearInterval id w)
    | None => w
    end
  end.

(** The timer is armed first, then one check is run at once. *)
Definition startTrackingToken (tokenContract : string) (w : t) (e : Env.t)
    : t * Env.t :=
  match trackedTokens w !! tokenContract with
  | None => (w, e)
  | Some token =>
    let w := match intervalId token with
             | Some id => clearInterval id w
             | None => w
             end in
    let (id, w) :=
      setInterval {| timerToken := tokenContract;
                     timerMs := checkInterval (config token) * 1000 |} w in
    let w := set_trackedTokens
      (<[tokenContract := set_intervalId (Some id) token]> (trackedTokens w)) w in
    checkTokenPrice tokenContract w e
  end.

(** [addToken]: [Ok tt] when the promise resolves, [Err] when it rejects. *)
Definition addToken (tokenContract tokenName : string)
    (priceChangeThreshold checkInterval : Q) (w : t) (e : Env.t)
    : AgentsApi.Result unit * (t * Env.t) :=
  if bool_decide (is_Some (trackedTokens w !! tokenContract)) then
    (AgentsApi.Ok tt, (w, e))
  else
    let config :=
      {| tokenContract := tokenContract; tokenName := tokenName;
         thresholds := {| minor := priceChangeThreshold;
                          major := priceChangeThreshold * 3;
                          critical := priceChangeThreshold * 5 |};
         checkInterval := checkInterval;
         enableMinorAlerts := true; enableMajorAlerts := true;
         enableCriticalAlerts := true |} in
    let (r, api') := AgentsApi.getAgentStats tokenContract (Env.api e) in
    let e := Env.set_api api' e in
    match r with
    | AgentsApi.Err err => (AgentsApi.Err err, (w, e))
    | AgentsApi.Ok stats =>
      let trackedToken :=
        {| config := config;
           lastPrice := AgentsApi.currentPriceInUSD stats;
           lastCheckTime := Env.now e; intervalId := None |} in
      let w := set_trackedTokens
        (<[tokenContract := trackedToken]> (trackedTokens w)) w in
      let e := Env.set_db
        (Database.addWatchedToken
           {| Database.wt_tokenContract := tokenContract;
              Database.wt_tokenName := tokenName;
              Database.wt_priceChangeThreshold := priceChangeThreshold;
              Database.wt_minorThreshold := priceChangeThreshold;
              Database.wt_majorThreshold := priceChangeThreshold * 3;
              Database.wt_criticalThreshold := priceChangeThreshold * 5;
              Database.wt_checkInterval := checkInterval;
              Database.wt_lastPrice := AgentsApi.currentPriceInUSD stats;
              Database.wt_lastCheckTime := Env.now e;
              Database.wt_isActive := true;
              Database.wt_enableMinorAlerts := true;
              Database.wt_enableMajorAlerts := true;
              Database.wt_enableCriticalAlerts := true;
              Database.wt_updatedAt := Env.now e |}
           (Env.db e)) e in
      let (w, e) :=
        if isRunning w then startTrackingToken tokenContract w e
        else (w, e) in
      (AgentsApi.Ok tt,
       (emit (token_added tokenContract tokenName
                (AgentsApi.currentPriceInUSD stats)) w, e))
    end.

Definition removeToken (tokenContract : string) (w : t) (e : Env.t)
    : t * Env.t :=
  match trackedTokens w !! tokenContract with
  | None => (w, e)
  | Some token =>
    let w := stopTrackingToken tokenContract w in
    let w := set_trackedTokens (delete tokenContract (trackedTokens w)) w in
    let e := Env.set_db
      (Database.removeWatchedToken tokenContract (Env.now e) (Env.db e)) e in
    (emit (token_removed tokenContract (tokenName (config token))) w, e)
  end.

(** [{ ...token.config, ...updates }] *)
Definition merge (c : TokenWatchConfig) (u : TokenWatchConfigUpdate)
    : TokenWatchConfig :=
  {| tokenContract := default (tokenContract c) (p_tokenContract u);
     tokenName := default (tokenName c) (p_tokenName u);
     thresholds := default (thresholds c) (p_thresholds u);
     checkInterval := default (checkInterval c) (p_checkInterval u);
     enableMinorAlerts := default (enableMinorAlerts c) (p_enableMinorAlerts u);
     enableMajorAlerts := default (enableMajorAlerts c) (p_enableMajorAlerts u);
     enableCriticalAlerts :=
       default (enableCriticalAlerts c) (p_enableCriticalAlerts u) |}.

(** [updateTokenConfig] returns nothing and throws nothing of its own. The
    two calls that restart the timer are not awaited in the source; the
    check that [startTrackingToken] runs is carried to its end here, like
    every cycle. *)
Definition updateTokenConfig (tokenContract : string)
    (updates : TokenWatchConfigUpdate) (w : t) (e : Env.t) : t * Env.t :=
  match trackedTokens w !! tokenContract with
  | None => (w, e)
  | Some token =>
    let config' := merge (config token) updates in
    let w := set_trackedTokens
      (<[tokenContract := set_config config' token]> (trackedTokens w)) w in
    let e := Env.set_db
      (Database.updateWatchedToken tokenContract
         {| Database.u_tokenName := Some (tokenName config');
            Database.u_priceChangeThreshold := None;
            Database.u_minorThreshold := Some (minor (thresholds config'));
            Database.u_majorThreshold := Some (major (thresholds config'));
            Database.u_criticalThreshold := Some (critical (thresholds config'));
            Database.u_checkInterval := Some (checkInterval config');
            Database.u_lastPrice := None;
            Database.u_lastCheckTime := None;
            Database.u_isActive := None;
            Database.u_enableMinorAlerts := Some (enableMinorAlerts config');
            Database.u_enableMajorAlerts := Some (enableMajorAlerts config');
            Database.u_enableCriticalAlerts :=
              Some (enableCriticalAlerts config') |}
         (Env.now e) (Env.db e)) e in
    if isRunning w && Database.defined (intervalId token) then
      startTrackingToken tokenContract (stopTrackingToken tokenContract w) e
    else (w, e)
  end.

(** The three optional keys of the argument of [updateTokenAlerts]. *)
Record AlertConfig := {
  c_enableMinorAlerts : option bool;
  c_enableMajorAlerts : option bool;
  c_enableCriticalAlerts : option bool
}.

Definition set_alerts (a : AlertConfig) (c : TokenWatchConfig)
    : TokenWatchConfig :=
  {| tokenContract := tokenContract c; tokenName := tokenName c;
     thresholds := thresholds c; checkInterval := checkInterval c;
     enableMinorAlerts := default (enableMinorAlerts c) (c_enableMinorAlerts a);
     enableMajorAlerts := default (enableMajorAlerts c) (c_enableMajorAlerts a);
     enableCriticalAlerts :=
       default (enableCriticalAlerts c) (c_enableCriticalAlerts a) |}.

(** [updateTokenAlerts]: [Err] is the [Error] it throws. *)
Definition updateTokenAlerts (tokenContract : string)
    (alertConfig : AlertConfig) (w : t) (e : Env.t)
    : AgentsApi.Result unit * (t * Env.t) :=
  match trackedTokens w !! tokenContract with
  | None =>
    (AgentsApi.Err ("Token " +:+ tokenContract +:+ " is not being tracked"),
     (w, e))
  | Some token =>
    let config' := set_alerts alertConfig (config token) in
    let w := set_trackedTokens
      (<[tokenContract := set_config config' token]> (trackedTokens w)) w in
    let e := Env.set_db
      (Database.updateWatchedToken tokenContract
         {| Database.u_tokenName := None;
            Database.u_priceChangeThreshold := None;
            Database.u_minorThreshold := None;
            Database.u_majorThreshold := None;
            Database.u_criticalThreshold := None;
            Database.u_checkInterval := None;
            Database.u_lastPrice := None;
            Database.u_lastCheckTime := None;
            Database.u_isActive := None;
            Database.u_enableMinorAlerts := Some (enableMinorAlerts config');
            Database.u_enableMajorAlerts := Some (enableMajorAlerts config');
            Database.u_enableCriticalAlerts :=
              Some (enableCriticalAlerts config') |}
         (Env.now e) (Env.db e)) e in
    (AgentsApi.Ok tt, (w, e))
  end.

(** [n] ticks of the timer of one token, one cycle each. *)
Fixpoint cycles (n : nat) (tokenContract : string) (w : t) (e : Env.t)
    : t * Env.t :=
  match n with
  | O => (w, e)
  | S n => let (w, e) := cycles n tokenContract w e in
           checkTokenPrice tokenContract w e
  end.

Definition set_isRunning (b : bool) (w : t) : t :=
  {| trackedTokens := trackedTokens w; isRunning := b; emitted := emitted w;
     timers := timers w; timerSeq := timerSeq w |}.

(** [addTokenAdvanced]: [addToken] with the three tiers given. *)
Definition addTokenAdvanced (tokenContract tokenName : string)
    (thresholds : ThresholdConfig) (checkInterval : Q) (w : t) (e : Env.t)
    : AgentsApi.Result unit * (t * Env.t) :=
  if bool_decide (is_Some (trackedTokens w !! tokenContract)) then
    (AgentsApi.Ok tt, (w, e))
  else
    let config :=
      {| tokenContract := tokenContract; tokenName := tokenName;
         thresholds := thresholds; checkInterval := checkInterval;
         enableMinorAlerts := true; enableMajorAlerts := true;
         enableCriticalAlerts := true |} in
    let (r, api') := AgentsApi.getAgentStats tokenContract (Env.api e) in
    let e := Env.set_api api' e in
    match r with
    | AgentsApi.Err err => (AgentsApi.Err err, (w, e))
    | AgentsApi.Ok stats =>
      let trackedToken :=
        {| config := config;
           lastPrice := AgentsApi.currentPriceInUSD stats;
           lastCheckTime := Env.now e; intervalId := None |} in
      let w := set_trackedTokens
        (<[tokenContract := trackedToken]> (trackedTokens w)) w in
      let e := Env.set_db
        (Database.addWatchedToken
           {| Database.wt_tokenContract := tokenContract;
              Database.wt_tokenName := tokenName;
              Database.wt_priceChangeThreshold := minor thresholds;
              Database.wt_minorThreshold := minor thresholds;
              Database.wt_majorThreshold := major thresholds;
              Database.wt_criticalThreshold := critical thresholds;
              Database.wt_checkInterval := checkInterval;
              Database.wt_lastPrice := AgentsApi.currentPriceInUSD stats;
              Database.wt_lastCheckTime := Env.now e;
              Database.wt_isActive := true;
              Database.wt_enableMinorAlerts := true;
              Database.wt_enableMajorAlerts := true;
              Database.wt_enableCriticalAlerts := true;
              Database.wt_updatedAt := Env.now e |}
           (Env.db e)) e in
      let (w, e) :=
        if isRunning w then startTrackingToken tokenContract w e
        else (w, e) in
      (AgentsApi.Ok tt,
       (emit (token_added tokenContract tokenName
                (AgentsApi.currentPriceInUSD stats)) w, e))
    end.

(** The tracked token [start] builds from a row of the database. *)
Definition fromRow (dbToken : Database.WatchedToken) : TrackedToken :=
  {| config :=
       {| tokenContract := Database.wt_tokenContract dbToken;
          tokenName := Database.wt_tokenName dbToken;
          thresholds :=
            {| minor := Database.wt_minorThreshold dbToken;
               major := Database.wt_majorThreshold dbToken;
               critical := Database.wt_criticalThreshold dbToken |};
          checkInterval := Database.wt_checkInterval dbToken;
          enableMinorAlerts := Database.wt_enableMinorAlerts dbToken;
          enableMajorAlerts := Database.wt_enableMajorAlerts dbToken;
          enableCriticalAlerts := Database.wt_enableCriticalAlerts dbToken |};
     lastPrice := Database.wt_lastPrice dbToken;
     lastCheckTime := Database.wt_lastCheckTime dbToken;
     intervalId := None |}.

(** The first loop of [start]: [this.trackedTokens.set(...)] for each row
    of the answer of the database. *)
Definition load (watchedTokens : list Database.WatchedToken) (w : t) : t :=
  foldl (fun w dbToken =>
           set_trackedTokens
             (<[Database.wt_tokenContract dbToken := fromRow dbToken]>
                (trackedTokens w)) w)
        w watchedTokens.

(** The second loop of [start]: [startTrackingToken] for each key, in the
    order [order] in which the Map gives them. *)
Definition startAll (order : list string) (w : t) (e : Env.t) : t * Env.t :=
  foldl (fun s tokenContract => startTrackingToken tokenContract s.1 s.2)
        (w, e) order.

(** [start]. The model keeps neither [created_at] nor the insertion order
    of the Map, so the two orders are arguments: [watchedTokens] is the
    answer of [database.getWatchedTokens(true)], [order] the keys of the Map
    as its iteration gives them once the rows are loaded. *)
Definition start (watchedTokens : list Database.WatchedToken)
    (order : list string) (w : t) (e : Env.t) : t * Env.t :=
  if isRunning w then (w, e)
  else
    let w := set_isRunning true w in
    let w := load watchedTokens w in
    let (w, e) := startAll order w e in
    (emit started w, e).

(** The loop of [stop], over the keys in the order of the Map. *)
Definition stopAll (order : list string) (w : t) : t :=
  foldl (fun w tokenContract => stopTrackingToken tokenContract w) w order.

Definition stop (order : list string) (w : t) : t :=
  if isRunning w then emit stopped (stopAll order (set_isRunning false w))
  else w.

(** [getTokenStatus]: [this.trackedTokens.get(tokenContract) || null] *)
Definition getTokenStatus (tokenContract : string) (w : t)
    : option TrackedToken :=
  trackedTokens w !! tokenContract.

(** The tiers [addToken] computes from its threshold, as the source
    computes them: [priceChangeThreshold], [priceChangeThreshold * 3] and
    [priceChangeThreshold * 5] in doubles, once for the configuration in
    memory and once more, by the same expressions, for the row. *)
Record ThresholdConfig64 := {
  minor64 : Double.number;
  major64 : Double.number;
  critical64 : Double.number
}.

Definition addToken_thresholds (priceChangeThreshold : Double.number)
    : ThresholdConfig64 :=
  {| minor64 := priceChangeThreshold;
     major64 := Double.mul priceChangeThreshold (Double.ofZ 3);
     critical64 := Double.mul priceChangeThreshold (Double.ofZ 5) |}.

End PriceWatcher.

(** ** services/holdings-watcher.ts *)

Module HoldingsWatcher.

Inductive AlertType := threshold_reached | significant_change.

Record HoldingsAlert := {
  type : AlertType;
  message : Database.Message;
  totalValue : Q;
  previousValue : option Q;
  change : option Q;
  changePercentage : option Q;
  holdings : list AgentsApi.Holding;
  timestamp : Z
}.

Record WatcherConfig := {
  address : string;
  thresholdUsd : Q;
  checkInterval : Q;
  significantChangePercentage : Q
}.

Inductive Event :=
| started
| stopped
| alert (a : HoldingsAlert)
| error (e : string).

Record t := {
  config : WatcherConfig;
  isRunning : bool;
  intervalId : option nat;
  lastKnownValue : Q;
  lastCheckTime : Z;
  thresholdReached : bool;
  emitted : list Event
}.

(** The object as its constructor leaves it, at instant [time]. *)
Definition new (c : WatcherConfig) (time : Z) : t :=
  {| config := c; isRunning := false; intervalId := None;
     lastKnownValue := 0; lastCheckTime := time;
     thresholdReached := false; emitted := [] |}.

Definition emit (ev : Event) (w : t) : t :=
  {| config := config w; isRunning := isRunning w;
     intervalId := intervalId w; lastKnownValue := lastKnownValue w;
     lastCheckTime := lastCheckTime w;
     thresholdReached := thresholdReached w;
     emitted := emitted w ++ [ev] |}.

Definition set_thresholdReached (b : bool) (w : t) : t :=
  {| config := config w; isRunning := isRunning w;
     intervalId := intervalId w; lastKnownValue := lastKnownValue w;
     lastCheckTime := lastCheckTime w;
     thresholdReached := b; emitted := emitted w |}.

Definition set_lastKnownValue (v : Q) (time : Z) (w : t) : t :=
  {| config := config w; isRunning := isRunning w;
     intervalId := intervalId w; lastKnownValue := v;
     lastCheckTime := time;
     thresholdReached := thresholdReached w; emitted := emitted w |}.

(** "Store alert in database", then [this.emit("alert", alert)]. *)
Definition raise (a : HoldingsAlert) (w : t) (e : Env.t) : t * Env.t :=
  (emit (alert a) w,
   Env.set_db
     (snd (Database.addAlert Database.holdings None (message a)
             (timestamp a) false (Env.db e))) e).

Definition checkHoldings (w : t) (e : Env.t) : t * Env.t :=
  let (r, api') := AgentsApi.getHoldings (address (config w)) (Env.api e) in
  let e := Env.set_api api' e in
  match r with
  | AgentsApi.Err err => (emit (error err) w, e)
  | AgentsApi.Ok holdingsData =>
    let currentValue :=
      AgentsApi.calculateHoldingsValue (AgentsApi.holdings holdingsData) in
    let now := Env.now e in
    let (w, e) :=
      if Num.gtb (lastKnownValue w) 0 then
        let change := currentValue - lastKnownValue w in
        let changePercentage :=
          AgentsApi.calculatePercentageChange (lastKnownValue w) currentValue in
        if Num.gtb (Num.Math_abs changePercentage) 0
           && Num.geb (Num.Math_abs changePercentage)
                (significantChangePercentage (config w))
        then
          raise {| type := significant_change;
                   message := Database.ChangeMessage currentValue
                     (lastKnownValue w) change changePercentage;
                   totalValue := currentValue;
                   previousValue := Some (lastKnownValue w);
                   change := Some change;
                   changePercentage := Some changePercentage;
                   holdings := AgentsApi.holdings holdingsData;
                   timestamp := now |} w e
        else (w, e)
      else (w, e) in
    let (w, e) :=
      if Num.geb currentValue (thresholdUsd (config w))
         && negb (thresholdReached w)
      then
        raise {| type := threshold_reached;
                 message := Database.ThresholdMessage currentValue
                   (thresholdUsd (config w));
                 totalValue := currentValue;
                 previousValue := None; change := None;
                 changePercentage := None;
                 holdings := AgentsApi.holdings holdingsData;
                 timestamp := now |}
              (set_thresholdReached true w) e
      else if Num.ltb currentValue (thresholdUsd (config w))
              && thresholdReached w
      then (set_thresholdReached false w, e)
      else (w, e) in
    (set_lastKnownValue currentValue now w, e)
  end.

(** [n] ticks of the timer, one cycle each. *)
Fixpoint cycles (n : nat) (w : t) (e : Env.t) : t * Env.t :=
  match n with
  | O => (w, e)
  | S n => let (w, e) := cycles n w e in checkHoldings w e
  end.

Definition set_isRunning (b : bool) (w : t) : t :=
  {| config := config w; isRunning := b;
     intervalId := intervalId w; lastKnownValue := lastKnownValue w;
     lastCheckTime := lastCheckTime w;
     thresholdReached := thresholdReached w; emitted := emitted w |}.

Definition set_intervalId (i : option nat) (w : t) : t :=
  {| config := config w; isRunning := isRunning w;
     intervalId := i; lastKnownValue := lastKnownValue w;
     lastCheckTime := lastCheckTime w;
     thresholdReached := thresholdReached w; emitted := emitted w |}.

(** [start]: one cycle, then the timer; [id] is the handle [setInterval]
    answers with. *)
Definition start (id : nat) (w : t) (e : Env.t) : t * Env.t :=
  if isRunning w then (w, e)
  else
    let w := set_isRunning true w in
    let (w, e) := checkHoldings w e in
    let w := set_intervalId (Some id) w in
    (emit started w, e).

Definition stop (w : t) : t :=
  if negb (isRunning w) then w
  else
    let w := set_isRunning false w in
    let w := match intervalId w with
             | Some _ => set_intervalId None w
             | None => w
             end in
    emit stopped w.

End HoldingsWatcher.

(** ** services/iq-price-watcher.ts *)

Module IQPriceWatcher.

Inductive AlertType :=
| iq_price_increase | iq_price_decrease | iq_significant_change.

Record IQPriceAlert := {
  type : AlertType;
  severity : Alert.Severity;
  message : Database.Message;
  currentPrice : Q;
  previousPrice : Q;
  change : Q;
  changePercentage : Q;
  a_threshold : Q;
  timestamp : Z
}.

Record IQWatcherConfig := {
  minorThreshold : Q;
  majorThreshold : Q;
  criticalThreshold : Q;
  checkInterval : Q;
  enableMinorAlerts : bool;
  enableMajorAlerts : bool;
  enableCriticalAlerts : bool
}.

Inductive Event :=
| started
| stopped
| alert (a : IQPriceAlert)
| error (e : string).

Record t := {
  config : IQWatcherConfig;
  isRunning : bool;
  intervalId : option nat;
  lastKnownPrice : Q;
  lastCheckTime : Z;
  emitted : list Event
}.

(** The object as its constructor leaves it, at instant [time]. *)
Definition new (c : IQWatcherConfig) (time : Z) : t :=
  {| config := c; isRunning := false; intervalId := None;
     lastKnownPrice := 0; lastCheckTime := time; emitted := [] |}.

Definition emit (ev : Event) (w : t) : t :=
  {| config := config w; isRunning := isRunning w;
     intervalId := intervalId w; lastKnownPrice := lastKnownPrice w;
     lastCheckTime := lastCheckTime w; emitted := emitted w ++ [ev] |}.

Definition set_lastKnownPrice (p : Q) (time : Z) (w : t) : t :=
  {| config := config w; isRunning := isRunning w;
     intervalId := intervalId w; lastKnownPrice := p;
     lastCheckTime := time; emitted := emitted w |}.

(** The four variables the classification of [checkIQPrice] assigns. *)
Record Classification := {
  alertType : AlertType;
  alertSeverity : Alert.Severity;
  threshold : Q;
  shouldAlert : bool
}.

(** "Determine alert type based on threshold exceeded". *)
Definition classify (cfg : IQWatcherConfig) (change changePercentage : Q)
    : Classification :=
  if Num.geb (Num.Math_abs changePercentage) (criticalThreshold cfg) then
    {| alertType := iq_significant_change; alertSeverity := Alert.critical;
       threshold := criticalThreshold cfg;
       shouldAlert := enableCriticalAlerts cfg |}
  else if Num.geb (Num.Math_abs changePercentage) (majorThreshold cfg) then
    {| alertType := if Num.gtb change 0 then iq_price_increase
                    else iq_price_decrease;
       alertSeverity := Alert.high;
       threshold := majorThreshold cfg;
       shouldAlert := enableMajorAlerts cfg |}
  else if Num.geb (Num.Math_abs changePercentage) (minorThreshold cfg) then
    {| alertType := if Num.gtb change 0 then iq_price_increase
                    else iq_price_decrease;
       alertSeverity := Alert.low;
       threshold := minorThreshold cfg;
       shouldAlert := enableMinorAlerts cfg |}
  else
    {| alertType := iq_significant_change; alertSeverity := Alert.medium;
       threshold := 0; shouldAlert := false |}.

(** The end of a cycle that does not return early: the history row and the
    two fields. *)
Definition record (currentPrice : Q) (w : t) (e : Env.t) : t * Env.t :=
  (set_lastKnownPrice currentPrice (Env.now e) w,
   Env.set_db
     (Database.addPriceHistory "IQ_TOKEN" "IQ (Everipedia)" currentPrice
        (Env.now e) (Env.db e)) e).

Definition checkIQPrice (w : t) (e : Env.t) : t * Env.t :=
  let (r, api') := AgentsApi.getPrices (Env.api e) in
  let e := Env.set_api api' e in
  match r with
  | AgentsApi.Err err => (emit (error err) w, e)
  | AgentsApi.Ok pricesData =>
    let currentPrice := AgentsApi.everipedia_usd pricesData in
    let previousPrice := lastKnownPrice w in
    let now := Env.now e in
    if Num.gtb previousPrice 0 then
      let change := currentPrice - previousPrice in
      let changePercentage :=
        AgentsApi.calculatePercentageChange previousPrice currentPrice in
      if Num.eqb (Num.Math_abs changePercentage) 0 then (w, e)
      else
        let c := classify (config w) change changePercentage in
        if shouldAlert c && Num.gtb (threshold c) 0 then
          let a :=
            {| type := alertType c; severity := alertSeverity c;
               message := Database.IQPriceAlertMessage currentPrice
                 previousPrice change changePercentage (threshold c)
                 (alertSeverity c);
               currentPrice := currentPrice;
               previousPrice := previousPrice;
               change := change; changePercentage := changePercentage;
               a_threshold := threshold c; timestamp := now |} in
          let e := Env.set_db
            (snd (Database.addAlert Database.iq_price None (message a)
                    now false (Env.db e))) e in
          record currentPrice (emit (alert a) w) e
        else record currentPrice w e
    else record currentPrice w e
  end.

(** [n] ticks of the timer, one cycle each. *)
Fixpoint cycles (n : nat) (w : t) (e : Env.t) : t * Env.t :=
  match n with
  | O => (w, e)
  | S n => let (w, e) := cycles n w e in checkIQPrice w e
  end.

Definition set_isRunning (b : bool) (w : t) : t :=
  {| config := config w; isRunning := b;
     intervalId := intervalId w; lastKnownPrice := lastKnownPrice w;
     lastCheckTime := lastCheckTime w; emitted := emitted w |}.

Definition set_intervalId (i : option nat) (w : t) : t :=
  {| config := config w; isRunning := isRunning w;
     intervalId := i; lastKnownPrice := lastKnownPrice w;
     lastCheckTime := lastCheckTime w; emitted := emitted w |}.

(** [start]: one cycle, then the timer; [id] is the handle [setInterval]
    answers with. *)
Definition start (id : nat) (w : t) (e : Env.t) : t * Env.t :=
  if isRunning w then (w, e)
  else
    let w := set_isRunning true w in
    let (w, e) := checkIQPrice w e in
    let w := set_intervalId (Some id) w in
    (emit started w, e).

Definition stop (w : t) : t :=
  if negb (isRunning w) then w
  else
    let w := set_isRunning false w in
    let w := match intervalId w with
             | Some _ => set_intervalId None w
             | None => w
             end in
    emit stopped w.

End IQPriceWatcher.

(** ** The vocabulary of the specification *)

Module Spec.

(** A tier configuration, whichever watcher holds it. *)
Record TierConfig := { minor : Q; major : Q; critical : Q }.

Definition ofToken (c : PriceWatcher.TokenWatchConfig) : TierConfig :=
  {| minor := PriceWatcher.minor (PriceWatcher.thresholds c);
     major := PriceWatcher.major (PriceWatcher.thresholds c);
     critical := PriceWatcher.critical (PriceWatcher.thresholds c) |}.

Definition ofIQ (c : IQPriceWatcher.IQWatcherConfig) : TierConfig :=
  {| minor := IQPriceWatcher.minorThreshold c;
     major := IQPriceWatcher.majorThreshold c;
     critical := IQPriceWatcher.criticalThreshold c |}.

(** [0 < minor < major < critical] *)
Definition ordered (c : TierConfig) : Prop :=
  0 < minor c /\ minor c < major c /\ major c < critical c.

(** [0 < minor < major < critical] on doubles, with the [<] of the
    source. *)
Definition ordered64 (c : PriceWatcher.ThresholdConfig64) : bool :=
  Double.ltb (Double.ofZ 0) (PriceWatcher.minor64 c)
  && Double.ltb (PriceWatcher.minor64 c) (PriceWatcher.major64 c)
  && Double.ltb (PriceWatcher.major64 c) (PriceWatcher.critical64 c).

Definition thresholdOf (c : TierConfig) (t : Alert.Tier) : Q :=
  match t with
  | Alert.minor => minor c
  | Alert.major => major c
  | Alert.crit => critical c
  end.

(** The magnitude of the change reaches the threshold of tier [t]. *)
Definition met (c : TierConfig) (pct : Q) (t : Alert.Tier) : Prop :=
  thresholdOf c t <= Qabs pct.

(** [o] is the highest tier whose threshold is met, or no tier when none
    is. *)
Definition highestMet (c : TierConfig) (pct : Q) (o : option Alert.Tier)
    : Prop :=
  match o with
  | Some t =>
    met c pct t /\
    forall t', met c pct t' -> (Alert.rank t' <= Alert.rank t)%nat
  | None => forall t', ~ met c pct t'
  end.

(** The band of magnitudes of each outcome under an ordered
    configuration. *)
Definition band (c : TierConfig) (pct : Q) (o : option Alert.Tier) : Prop :=
  match o with
  | Some Alert.crit => critical c <= Qabs pct
  | Some Alert.major => major c <= Qabs pct /\ Qabs pct < critical c
  | Some Alert.minor => minor c <= Qabs pct /\ Qabs pct < major c
  | None => Qabs pct < minor c
  end.

(** The tier a classification stands for. *)
Definition tokenTier (c : PriceWatcher.Classification) : option Alert.Tier :=
  Alert.tierOf (PriceWatcher.alertSeverity c).

Definition iqTier (c : IQPriceWatcher.Classification) : option Alert.Tier :=
  Alert.tierOf (IQPriceWatcher.alertSeverity c).

(** The alerts among the events of each watcher. *)
Definition priceAlerts (l : list PriceWatcher.Event)
    : list PriceWatcher.PriceAlert :=
  omap (fun ev => match ev with
                  | PriceWatcher.alert a => Some a
                  | _ => None
                  end) l.

Definition iqAlerts (l : list IQPriceWatcher.Event)
    : list IQPriceWatcher.IQPriceAlert :=
  omap (fun ev => match ev with
                  | IQPriceWatcher.alert a => Some a
                  | _ => None
                  end) l.

Definition holdingsAlerts (l : list HoldingsWatcher.Event)
    : list HoldingsWatcher.HoldingsAlert :=
  omap (fun ev => match ev with
                  | HoldingsWatcher.alert a => Some a
                  | _ => None
                  end) l.

(** The alerts of one kind of the holdings watcher. *)
Definition sameType (k1 k2 : HoldingsWatcher.AlertType) : bool :=
  match k1, k2 with
  | HoldingsWatcher.threshold_reached, HoldingsWatcher.threshold_reached => true
  | HoldingsWatcher.significant_change, HoldingsWatcher.significant_change => true
  | _, _ => false
  end.

Definition holdingsAlertsOf (k : HoldingsWatcher.AlertType)
    (l : list HoldingsWatcher.Event) : list HoldingsWatcher.HoldingsAlert :=
  List.filter (fun a => sameType (HoldingsWatcher.type a) k) (holdingsAlerts l).

(** The fetch of a cycle fails with [err]: the next answer of the queue is
    a rejection, or there is none. *)
Definition fetchFails {A} (q : list (AgentsApi.Result A)) (err : string) : Prop :=
  (AgentsApi.next q).1 = AgentsApi.Err err.

(** The configuration columns of a row of [watched_tokens]: all but the
    last price, the last check time and [updated_at]. *)
Definition columns (row : Database.WatchedToken) :=
  (Database.wt_tokenContract row, Database.wt_tokenName row,
   Database.wt_priceChangeThreshold row,
   (Database.wt_minorThreshold row, Database.wt_majorThreshold row,
    Database.wt_criticalThreshold row),
   Database.wt_checkInterval row, Database.wt_isActive row,
   (Database.wt_enableMinorAlerts row, Database.wt_enableMajorAlerts row,
    Database.wt_enableCriticalAlerts row)).

(** The tier configuration a row persists. *)
Definition ofRow (row : Database.WatchedToken) : TierConfig :=
  {| minor := Database.wt_minorThreshold row;
     major := Database.wt_majorThreshold row;
     critical := Database.wt_criticalThreshold row |}.

(** [getStatus().trackedTokens]: the keys of the map (their order apart). *)
Definition trackedKeys (w : PriceWatcher.t) : list string :=
  (map_to_list (PriceWatcher.trackedTokens w)).*1.

(** The three facts a step keeps: the configuration of every tracked token,
    the running flag, and the configuration columns of every row. *)
Definition keeps (s s' : PriceWatcher.t * Env.t) : Prop :=
  (forall k, PriceWatcher.config <$> (PriceWatcher.trackedTokens s'.1 !! k)
             = PriceWatcher.config <$> (PriceWatcher.trackedTokens s.1 !! k))
  /\ PriceWatcher.isRunning s'.1 = PriceWatcher.isRunning s.1
  /\ (forall k, columns <$> (Database.watched_tokens (Env.db s'.2) !! k)
               = columns <$> (Database.watched_tokens (Env.db s.2) !! k)).

(** The rank of an outcome of the classification, no tier below every
    tier. *)
Definition rankOf (o : option Alert.Tier) : nat :=
  match o with
  | Some t => Alert.rank t
  | None => 0
  end.

(** The alert flag of a tier in the configuration of a token. *)
Definition enabled (c : PriceWatcher.TokenWatchConfig) (t : Alert.Tier) : bool :=
  match t with
  | Alert.minor => PriceWatcher.enableMinorAlerts c
  | Alert.major => PriceWatcher.enableMajorAlerts c
  | Alert.crit => PriceWatcher.enableCriticalAlerts c
  end.

(** What can happen to the token watcher: a command of the bot, or the
    timer of a token that fires. *)
Inductive Op :=
| AddToken (tokenContract tokenName : string)
    (priceChangeThreshold checkInterval : Q)
| AddTokenAdvanced (tokenContract tokenName : string)
    (thresholds : PriceWatcher.ThresholdConfig) (checkInterval : Q)
| RemoveToken (tokenContract : string)
| UpdateTokenConfig (tokenContract : string)
    (updates : PriceWatcher.TokenWatchConfigUpdate)
| UpdateTokenAlerts (tokenContract : string)
    (alertConfig : PriceWatcher.AlertConfig)
| Tick (tokenContract : string)
| Start (watchedTokens : list Database.WatchedToken) (order : list string)
| Stop (order : list string).

Definition run (op : Op) (s : PriceWatcher.t * Env.t)
    : PriceWatcher.t * Env.t :=
  match op with
  | AddToken tc name t ci => (PriceWatcher.addToken tc name t ci s.1 s.2).2
  | AddTokenAdvanced tc name th ci =>
    (PriceWatcher.addTokenAdvanced tc name th ci s.1 s.2).2
  | RemoveToken tc => PriceWatcher.removeToken tc s.1 s.2
  | UpdateTokenConfig tc u => PriceWatcher.updateTokenConfig tc u s.1 s.2
  | UpdateTokenAlerts tc a => (PriceWatcher.updateTokenAlerts tc a s.1 s.2).2
  | Tick tc => PriceWatcher.checkTokenPrice tc s.1 s.2
  | Start rows order => PriceWatcher.start rows order s.1 s.2
  | Stop order => (PriceWatcher.stop order s.1, s.2)
  end.

(** The two orders the model takes as arguments are orders of the right
    things: the rows are an answer of the database for its active rows, and
    the keys are the keys of the Map, each once. *)
Definition allowed (op : Op) (s : PriceWatcher.t * Env.t) : Prop :=
  match op with
  | Start rows order =>
    Database.getWatchedTokens true (Env.db s.2) rows
    /\ order ≡ₚ trackedKeys (PriceWatcher.load rows s.1)
  | Stop order => order ≡ₚ trackedKeys s.1
  | _ => True
  end.

(** *** The token watcher used one operation at a time *)

(** The states the watcher is in between operations that run one after the
    other: from the watcher as constructed, each operation ([run]) from its
    first statement to its last before the next begins. Meanwhile the rest
    of the program may change the environment (the clock, the answers of the
    API, the other tables) but not [watched_tokens], which only the token
    watcher writes.

    The source suspends [start], [addToken], [addTokenAdvanced] and every
    cycle at their [await]s. A command or a tick that runs while another
    operation is suspended there is no step of this relation, and the
    states it leads to (a [stop] during a [start] leaves timers armed in a
    stopped watcher) are not in it. *)
Inductive sequential : PriceWatcher.t * Env.t -> Prop :=
| seq_init (e : Env.t) :
    Database.wfWatched (Env.db e) ->
    sequential (PriceWatcher.init, e)
| seq_run (op : Op) (s : PriceWatcher.t * Env.t) :
    sequential s -> allowed op s -> sequential (run op s)
| seq_env (w : PriceWatcher.t) (e e' : Env.t) :
    sequential (w, e) ->
    Database.watched_tokens (Env.db e') = Database.watched_tokens (Env.db e) ->
    sequential (w, e').

(** The key of a tier in the argument of [updateTokenAlerts]. *)
Definition flagOf (a : PriceWatcher.AlertConfig) (t : Alert.Tier)
    : option bool :=
  match t with
  | Alert.minor => PriceWatcher.c_enableMinorAlerts a
  | Alert.major => PriceWatcher.c_enableMajorAlerts a
  | Alert.crit => PriceWatcher.c_enableCriticalAlerts a
  end.

(** *** Memory and database *)




(** *** The timers of the token watcher *)

(** Every timer belongs to a tracked token that holds its handle, and its
    handle was issued by the sequence of handles. *)
Definition timersOwned (w : PriceWatcher.t) : Prop :=
  forall id tm,
    PriceWatcher.timers w !! id = Some tm ->
    (id <= PriceWatcher.timerSeq w)%nat
    /\ exists token,
         PriceWatcher.trackedTokens w !! PriceWatcher.timerToken tm = Some token
         /\ PriceWatcher.intervalId token = Some id.

(** The handle a tracked token holds is the handle of a timer that checks
    this token. *)
Definition handlesValid (w : PriceWatcher.t) : Prop :=
  forall tc token id,
    PriceWatcher.trackedTokens w !! tc = Some token ->
    PriceWatcher.intervalId token = Some id ->
    exists tm, PriceWatcher.timers w !! id = Some tm
               /\ PriceWatcher.timerToken tm = tc.

Definition linked (w : PriceWatcher.t) : Prop :=
  timersOwned w /\ handlesValid w.

(** The timer of token [tc], if it has one, ticks at the interval the
    token is configured with. *)
Definition inStep (w : PriceWatcher.t) (tc : string) : Prop :=
  forall token id tm,
    PriceWatcher.trackedTokens w !! tc = Some token ->
    PriceWatcher.intervalId token = Some id ->
    PriceWatcher.timers w !! id = Some tm ->
    PriceWatcher.timerMs tm
    = PriceWatcher.checkInterval (PriceWatcher.config token) * 1000.

(** The schedule is sound: timers and tokens are linked, every timer is in
    step with the configuration, and a token holds a timer exactly when the
    watcher runs. *)
Definition scheduled (w : PriceWatcher.t) : Prop :=
  linked w
  /\ (forall tc, inStep w tc)
  /\ (forall tc token,
        PriceWatcher.trackedTokens w !! tc = Some token ->
        Database.defined (PriceWatcher.intervalId token)
        = PriceWatcher.isRunning w).

(** Two states of the watcher with the same timers and, token by token,
    the same handle and the same configuration. *)
Definition sameShape (w w' : PriceWatcher.t) : Prop :=
  PriceWatcher.timers w' = PriceWatcher.timers w
  /\ PriceWatcher.timerSeq w' = PriceWatcher.timerSeq w
  /\ PriceWatcher.isRunning w' = PriceWatcher.isRunning w
  /\ forall k,
       (fun tk => (PriceWatcher.intervalId tk, PriceWatcher.config tk))
         <$> (PriceWatcher.trackedTokens w' !! k)
       = (fun tk => (PriceWatcher.intervalId tk, PriceWatcher.config tk))
           <$> (PriceWatcher.trackedTokens w !! k).

End Spec.

(** ** Concrete objects for the examples *)

Module Sample.

Definition thresholds : PriceWatcher.ThresholdConfig :=
  {| PriceWatcher.minor := 2; PriceWatcher.major := 10;
     PriceWatcher.critical := 20 |}.

Definition config : PriceWatcher.TokenWatchConfig :=
  {| PriceWatcher.tokenContract := "0xA1"; PriceWatcher.tokenName := "Agent";
     PriceWatcher.thresholds := thresholds;
     PriceWatcher.checkInterval := 60;
     PriceWatcher.enableMinorAlerts := true;
     PriceWatcher.enableMajorAlerts := true;
     PriceWatcher.enableCriticalAlerts := true |}.

(** A token tracked with last price [p], its timer armed. *)
Definition token (p : Q) : PriceWatcher.TrackedToken :=
  {| PriceWatcher.config := config; PriceWatcher.lastPrice := p;
     PriceWatcher.lastCheckTime := 0%Z; PriceWatcher.intervalId := Some 1%nat |}.

Definition watcher (p : Q) : PriceWatcher.t :=
  {| PriceWatcher.trackedTokens := {[ "0xA1" := token p ]};
     PriceWatcher.isRunning := true; PriceWatcher.emitted := [];
     PriceWatcher.timers :=
       {[ 1%nat := {| PriceWatcher.timerToken := "0xA1";
                      PriceWatcher.timerMs := 60000 |} ]};
     PriceWatcher.timerSeq := 1 |}.

Definition row (p : Q) : Database.WatchedToken :=
  {| Database.wt_tokenContract := "0xA1"; Database.wt_tokenName := "Agent";
     Database.wt_priceChangeThreshold := 2;
     Database.wt_minorThreshold := 2; Database.wt_majorThreshold := 10;
     Database.wt_criticalThreshold := 20; Database.wt_checkInterval := 60;
     Database.wt_lastPrice := p; Database.wt_lastCheckTime := 0%Z;
     Database.wt_isActive := true; Database.wt_enableMinorAlerts := true;
     Database.wt_enableMajorAlerts := true;
     Database.wt_enableCriticalAlerts := true;
     Database.wt_updatedAt := 0%Z |}.

Definition database (p : Q) : Database.t :=
  Database.set_watched_tokens {[ "0xA1" := row p ]} Database.empty.

(** The API answers the next [getAgentStats] with the prices [ps], the
    next [getPrices] with [iqs], the next [getHoldings] with a wallet worth
    each of [vs]. *)
Definition wallet (v : Q) : AgentsApi.Result AgentsApi.HoldingsResponse :=
  AgentsApi.Ok
    {| AgentsApi.count := 1;
       AgentsApi.holdings :=
         [{| AgentsApi.tokenContract := "0xA1"; AgentsApi.tokenAmount := v;
             AgentsApi.name := "Agent"; AgentsApi.currentPriceInUsd := 1 |}] |}.

Definition env (p : Q) (ps iqs vs : list Q) : Env.t :=
  {| Env.api :=
       {| AgentsApi.statsQueue :=
            (fun x => AgentsApi.Ok {| AgentsApi.currentPriceInUSD := x |}) <$> ps;
          AgentsApi.holdingsQueue := wallet <$> vs;
          AgentsApi.pricesQueue :=
            (fun x => AgentsApi.Ok {| AgentsApi.everipedia_usd := x |}) <$> iqs;
          AgentsApi.requests := [] |};
     Env.db := database p; Env.now := 1000%Z |}.

Definition iqConfig : IQPriceWatcher.IQWatcherConfig :=
  {| IQPriceWatcher.minorThreshold := 2;
     IQPriceWatcher.majorThreshold := 10;
     IQPriceWatcher.criticalThreshold := 20;
     IQPriceWatcher.checkInterval := 60;
     IQPriceWatcher.enableMinorAlerts := true;
     IQPriceWatcher.enableMajorAlerts := true;
     IQPriceWatcher.enableCriticalAlerts := true |}.

(** The IQ watcher running with last price [p]. *)
Definition iqWatcher (p : Q) : IQPriceWatcher.t :=
  {| IQPriceWatcher.config := iqConfig; IQPriceWatcher.isRunning := true;
     IQPriceWatcher.intervalId := Some 1%nat;
     IQPriceWatcher.lastKnownPrice := p;
     IQPriceWatcher.lastCheckTime := 0%Z; IQPriceWatcher.emitted := [] |}.

Definition holdingsConfig : HoldingsWatcher.WatcherConfig :=
  {| HoldingsWatcher.address := "0xW";
     HoldingsWatcher.thresholdUsd := 1000;
     HoldingsWatcher.checkInterval := 300;
     HoldingsWatcher.significantChangePercentage := 2 |}.

(** The holdings watcher running with last value [v] and latch [b]. *)
Definition holdingsWatcher (v : Q) (b : bool) : HoldingsWatcher.t :=
  {| HoldingsWatcher.config := holdingsConfig;
     HoldingsWatcher.isRunning := true;
     HoldingsWatcher.intervalId := Some 1%nat;
     HoldingsWatcher.lastKnownValue := v;
     HoldingsWatcher.lastCheckTime := 0%Z;
     HoldingsWatcher.thresholdReached := b;
     HoldingsWatcher.emitted := [] |}.

(** The holdings watcher as constructed, before the values 900, 1050, 1100,
    950 and 1200 are sampled. *)
Definition latchRun (k : nat) : HoldingsWatcher.t * Env.t :=
  HoldingsWatcher.cycles k (HoldingsWatcher.new holdingsConfig 0)
    (env 0 [] [] [900; 1050; 1100; 950; 1200]).

(** The token watcher after [addToken] has stored a baseline price [p]
    that the API gave, and the environment in which the API gives [ps]
    next. *)
Definition added (p : Q) (ps : list Q) : PriceWatcher.t * Env.t :=
  (PriceWatcher.addToken "0xA1" "Agent" 2 60 PriceWatcher.init
     {| Env.api := Env.api (env 0 (p :: ps) [] []);
        Env.db := Database.empty; Env.now := 1000%Z |}).2.

(** The double nearest to 10^308. *)
Definition t1e308 : Double.number := S754_finite false 5010420900022432 971.



(** [n] prices that go 101, 100, 101, ...: a change of about 1% at every
    cycle, below every tier. *)
Fixpoint sawtooth (n : nat) (up : bool) : list Q :=
  match n with
  | O => []
  | S n => (if up then 101 else 100) :: sawtooth n (negb up)
  end.

(** Seven rows of two tokens, to prune down to two rows a token. *)
Definition historyRow (i : nat) (tc : string) (time : Z)
    : Database.PriceHistoryRecord :=
  {| Database.ph_id := i; Database.ph_tokenContract := tc;
     Database.ph_tokenName := tc; Database.ph_price := 1;
     Database.ph_timestamp := time |}.

Definition history : list Database.PriceHistoryRecord :=
  [historyRow 1 "a" 10; historyRow 2 "b" 11; historyRow 3 "a" 12;
   historyRow 4 "a" 9; historyRow 5 "b" 13; historyRow 6 "a" 12;
   historyRow 7 "b" 1].

(** A database left by an earlier run: the row of "0xA1" active, the row
    of "0xB2" inactive. *)
Definition removedRow : Database.WatchedToken :=
  {| Database.wt_tokenContract := "0xB2"; Database.wt_tokenName := "Other";
     Database.wt_priceChangeThreshold := 5;
     Database.wt_minorThreshold := 5; Database.wt_majorThreshold := 15;
     Database.wt_criticalThreshold := 25; Database.wt_checkInterval := 120;
     Database.wt_lastPrice := 7; Database.wt_lastCheckTime := 0%Z;
     Database.wt_isActive := false; Database.wt_enableMinorAlerts := true;
     Database.wt_enableMajorAlerts := true;
     Database.wt_enableCriticalAlerts := true;
     Database.wt_updatedAt := 0%Z |}.

Definition restartEnv (ps : list Q) : Env.t :=
  Env.set_db
    (Database.set_watched_tokens
       (<["0xB2" := removedRow]> {[ "0xA1" := row 100 ]}) Database.empty)
    (env 100 ps [] []).

End Sample.

(** * Properties *)

(** ** Comparisons of numbers *)

Section NumFacts.

Lemma geb_true a b : Num.geb a b = true <-> b <= a.
Proof. unfold Num.geb. apply Qle_bool_iff. Qed.

Lemma geb_false a b : Num.geb a b = false <-> a < b.
Proof.
  unfold Num.geb. split; intros H.
  - apply Qnot_le_lt. intros Hle. apply Qle_bool_iff in Hle. congruence.
  - destruct (Qle_bool b a) eqn:E; [|reflexivity].
    apply Qle_bool_iff in E. exfalso. exact (Qlt_not_le _ _ H E).
Qed.

Lemma gtb_true a b : Num.gtb a b = true <-> b < a.
Proof.
  unfold Num.gtb. rewrite negb_true_iff. exact (geb_false b a).
Qed.

Lemma gtb_false a b : Num.gtb a b = false <-> a <= b.
Proof.
  unfold Num.gtb. rewrite negb_false_iff. apply Qle_bool_iff.
Qed.

Lemma ltb_true a b : Num.ltb a b = true <-> a < b.
Proof. unfold Num.ltb. rewrite negb_true_iff. exact (geb_false a b). Qed.

Lemma ltb_false a b : Num.ltb a b = false <-> b <= a.
Proof. unfold Num.ltb. rewrite negb_false_iff. apply Qle_bool_iff. Qed.

Lemma eqb_true a b : Num.eqb a b = true <-> a == b.
Proof. unfold Num.eqb. apply Qeq_bool_iff. Qed.

End NumFacts.

(** ** Classification *)

Section Classification.

Local Ltac split_tiers :=
  unfold Spec.highestMet, Spec.met, Spec.thresholdOf; cbn.

Lemma token_classify_cases (cfg : PriceWatcher.TokenWatchConfig) (pct : Q) :
  let c := Spec.ofToken cfg in
  match Spec.tokenTier (PriceWatcher.classify cfg pct) with
  | Some Alert.crit => Spec.critical c <= Qabs pct
  | Some Alert.major => Spec.major c <= Qabs pct /\ Qabs pct < Spec.critical c
  | Some Alert.minor =>
    Spec.minor c <= Qabs pct /\ Qabs pct < Spec.major c
    /\ Qabs pct < Spec.critical c
  | None =>
    Qabs pct < Spec.minor c /\ Qabs pct < Spec.major c
    /\ Qabs pct < Spec.critical c
  end.
Proof.
  unfold Spec.tokenTier, PriceWatcher.classify, Num.Math_abs. cbn.
  destruct (Num.geb (Qabs pct) (PriceWatcher.critical _)) eqn:Hc; cbn.
  { now apply geb_true. }
  apply geb_false in Hc.
  destruct (Num.geb (Qabs pct) (PriceWatcher.major _)) eqn:Hm; cbn.
  { apply geb_true in Hm. now split. }
  apply geb_false in Hm.
  destruct (Num.geb (Qabs pct) (PriceWatcher.minor _)) eqn:Hn; cbn.
  { apply geb_true in Hn. now repeat split. }
  apply geb_false in Hn. now repeat split.
Qed.

Lemma iq_classify_cases (cfg : IQPriceWatcher.IQWatcherConfig)
    (change pct : Q) :
  let c := Spec.ofIQ cfg in
  match Spec.iqTier (IQPriceWatcher.classify cfg change pct) with
  | Some Alert.crit => Spec.critical c <= Qabs pct
  | Some Alert.major => Spec.major c <= Qabs pct /\ Qabs pct < Spec.critical c
  | Some Alert.minor =>
    Spec.minor c <= Qabs pct /\ Qabs pct < Spec.major c
    /\ Qabs pct < Spec.critical c
  | None =>
    Qabs pct < Spec.minor c /\ Qabs pct < Spec.major c
    /\ Qabs pct < Spec.critical c
  end.
Proof.
  unfold Spec.iqTier, IQPriceWatcher.classify, Num.Math_abs. cbn.
  destruct (Num.geb (Qabs pct) (IQPriceWatcher.criticalThreshold _)) eqn:Hc; cbn.
  { now apply geb_true. }
  apply geb_false in Hc.
  destruct (Num.geb (Qabs pct) (IQPriceWatcher.majorThreshold _)) eqn:Hm; cbn.
  { apply geb_true in Hm. now split. }
  apply geb_false in Hm.
  destruct (Num.geb (Qabs pct) (IQPriceWatcher.minorThreshold _)) eqn:Hn; cbn.
  { apply geb_true in Hn. now repeat split. }
  apply geb_false in Hn. now repeat split.
Qed.

(** From the case analysis of the chain of tests to the wording of the
    specification. *)
Lemma cases_highestMet (c : Spec.TierConfig) (pct : Q) (o : option Alert.Tier) :
  match o with
  | Some Alert.crit => Spec.critical c <= Qabs pct
  | Some Alert.major => Spec.major c <= Qabs pct /\ Qabs pct < Spec.critical c
  | Some Alert.minor =>
    Spec.minor c <= Qabs pct /\ Qabs pct < Spec.major c
    /\ Qabs pct < Spec.critical c
  | None =>
    Qabs pct < Spec.minor c /\ Qabs pct < Spec.major c
    /\ Qabs pct < Spec.critical c
  end ->
  Spec.highestMet c pct o /\ Spec.band c pct o.
Proof.
  destruct o as [[| |]|]; split_tiers.
  - intros (Hn & Hm & Hc). split; [split; [exact Hn|] | now split].
    intros [| |]; cbn; intros H; try lia; lra.
  - intros (Hm & Hc). split; [split; [exact Hm|] | now split].
    intros [| |]; cbn; intros H; try lia; lra.
  - intros Hc. split; [split; [exact Hc|] | exact Hc].
    intros [| |]; cbn; intros H; lia.
  - intros (Hn & Hm & Hc). split; [| exact Hn].
    intros [| |]; cbn; intros H; lra.
Qed.

Lemma percentage_of_positive (prev cur : Q) :
  0 < prev ->
  AgentsApi.calculatePercentageChange prev cur = ((cur - prev) / prev) * 100.
Proof.
  intros Hp. unfold AgentsApi.calculatePercentageChange.
  destruct (Num.eqb prev 0) eqn:E; [|reflexivity].
  apply eqb_true in E. lra.
Qed.

End Classification.

Section OneAlertPerCycle.

Lemma priceAlerts_app (l1 l2 : list PriceWatcher.Event) :
  Spec.priceAlerts (l1 ++ l2) = Spec.priceAlerts l1 ++ Spec.priceAlerts l2.
Proof. unfold Spec.priceAlerts. apply omap_app. Qed.

Lemma iqAlerts_app (l1 l2 : list IQPriceWatcher.Event) :
  Spec.iqAlerts (l1 ++ l2) = Spec.iqAlerts l1 ++ Spec.iqAlerts l2.
Proof. unfold Spec.iqAlerts. apply omap_app. Qed.

(** A cycle of the token watcher adds at most one alert to the events. *)
Lemma checkTokenPrice_one_alert (tokenContract : string)
    (w : PriceWatcher.t) (e : Env.t) :
  exists l,
    PriceWatcher.emitted (PriceWatcher.checkTokenPrice tokenContract w e).1
    = PriceWatcher.emitted w ++ l
    /\ (length (Spec.priceAlerts l) <= 1)%nat.
Proof.
  unfold PriceWatcher.checkTokenPrice.
  destruct (PriceWatcher.trackedTokens w !! tokenContract) as [token|];
    [| exists []; cbn; rewrite app_nil_r; auto].
  destruct (AgentsApi.getAgentStats tokenContract (Env.api e)) as [[stats|err] api'];
    [| exists [PriceWatcher.error err]; cbn; auto].
  destruct (Num.eqb _ 0); [exists []; cbn; rewrite app_nil_r; auto |].
  destruct (_ && _); cbn.
  - eexists [_]; split; [reflexivity | cbn; lia].
  - exists []; rewrite app_nil_r; cbn; auto.
Qed.

(** So does a cycle of the IQ watcher. *)
Lemma checkIQPrice_one_alert (w : IQPriceWatcher.t) (e : Env.t) :
  exists l,
    IQPriceWatcher.emitted (IQPriceWatcher.checkIQPrice w e).1
    = IQPriceWatcher.emitted w ++ l
    /\ (length (Spec.iqAlerts l) <= 1)%nat.
Proof.
  unfold IQPriceWatcher.checkIQPrice.
  destruct (AgentsApi.getPrices (Env.api e)) as [[prices|err] api'];
    [| exists [IQPriceWatcher.error err]; cbn; auto].
  destruct (Num.gtb _ 0); [| exists []; cbn; rewrite app_nil_r; auto].
  destruct (Num.eqb _ 0); [exists []; cbn; rewrite app_nil_r; auto |].
  destruct (_ && _); cbn.
  - eexists [_]; split; [reflexivity | cbn; lia].
  - exists []; rewrite app_nil_r; cbn; auto.
Qed.

End OneAlertPerCycle.

(** C1. Under an ordered tier configuration and a positive previous value,
    the percentage is [(cur - prev) / prev * 100] and the classification of
    the token watcher and of the IQ watcher yields the highest tier whose
    threshold the magnitude reaches (no tier when none is reached), which is
    the tier of the band the magnitude lies in; one cycle emits at most one
    alert. With thresholds 2, 10 and 20 and previous value 100, a current
    value of 121 is classified critical and one of 103 minor, and the cycle
    of either watcher emits exactly that alert. *)
Theorem C1_highest_tier_assigned
    (cfg : PriceWatcher.TokenWatchConfig) (iq : IQPriceWatcher.IQWatcherConfig)
    (prev cur : Q) :
  Spec.ordered (Spec.ofToken cfg) ->
  Spec.ordered (Spec.ofIQ iq) ->
  0 < prev ->
  let pct := AgentsApi.calculatePercentageChange prev cur in
  let tokenTier := Spec.tokenTier (PriceWatcher.classify cfg pct) in
  let iqTier := Spec.iqTier (IQPriceWatcher.classify iq (cur - prev) pct) in
  pct = ((cur - prev) / prev) * 100
  /\ Spec.highestMet (Spec.ofToken cfg) pct tokenTier
  /\ (forall o, Spec.band (Spec.ofToken cfg) pct o -> tokenTier = o)
  /\ Spec.highestMet (Spec.ofIQ iq) pct iqTier
  /\ (forall o, Spec.band (Spec.ofIQ iq) pct o -> iqTier = o)
  /\ (forall tokenContract w e, exists l,
        PriceWatcher.emitted (PriceWatcher.checkTokenPrice tokenContract w e).1
        = PriceWatcher.emitted w ++ l
        /\ (length (Spec.priceAlerts l) <= 1)%nat)
  /\ (forall w e, exists l,
        IQPriceWatcher.emitted (IQPriceWatcher.checkIQPrice w e).1
        = IQPriceWatcher.emitted w ++ l
        /\ (length (Spec.iqAlerts l) <= 1)%nat)
  /\ Spec.tokenTier
       (PriceWatcher.classify Sample.config
          (AgentsApi.calculatePercentageChange 100 121)) = Some Alert.crit
  /\ Spec.tokenTier
       (PriceWatcher.classify Sample.config
          (AgentsApi.calculatePercentageChange 100 103)) = Some Alert.minor
  /\ PriceWatcher.severity <$>
       Spec.priceAlerts
         (PriceWatcher.emitted
            (PriceWatcher.checkTokenPrice "0xA1" (Sample.watcher 100)
               (Sample.env 100 [121] [] [])).1) = [Alert.critical]
  /\ PriceWatcher.severity <$>
       Spec.priceAlerts
         (PriceWatcher.emitted
            (PriceWatcher.checkTokenPrice "0xA1" (Sample.watcher 100)
               (Sample.env 100 [103] [] [])).1) = [Alert.low]
  /\ IQPriceWatcher.severity <$>
       Spec.iqAlerts
         (IQPriceWatcher.emitted
            (IQPriceWatcher.checkIQPrice (Sample.iqWatcher 100)
               (Sample.env 100 [] [121] [])).1) = [Alert.critical]
  /\ IQPriceWatcher.severity <$>
       Spec.iqAlerts
         (IQPriceWatcher.emitted
            (IQPriceWatcher.checkIQPrice (Sample.iqWatcher 100)
               (Sample.env 100 [] [103] [])).1) = [Alert.low].
Proof.
  intros Ht Hi Hp pct tokenTier iqTier.
  pose proof (token_classify_cases cfg pct) as Ct.
  pose proof (iq_classify_cases iq (cur - prev) pct) as Ci.
  cbv zeta in Ct, Ci. fold tokenTier in Ct. fold iqTier in Ci.
  destruct Ht as (Ht0 & Ht1 & Ht2). destruct Hi as (Hi0 & Hi1 & Hi2).
  split; [exact (percentage_of_positive prev cur Hp)|].
  split; [exact (proj1 (cases_highestMet _ _ _ Ct))|].
  split.
  { intros o Ho.
    destruct tokenTier as [[| |]|], o as [[| |]|];
      cbn in Ct, Ho, Ht0, Ht1, Ht2; try reflexivity; exfalso; lra. }
  split; [exact (proj1 (cases_highestMet _ _ _ Ci))|].
  split.
  { intros o Ho.
    destruct iqTier as [[| |]|], o as [[| |]|];
      cbn in Ci, Ho, Hi0, Hi1, Hi2; try reflexivity; exfalso; lra. }
  split; [exact checkTokenPrice_one_alert|].
  split; [exact checkIQPrice_one_alert|].
  repeat split; vm_compute; reflexivity.
Qed.

Lemma C1_highest_tier_assigned_witness :
  Spec.tokenTier
    (PriceWatcher.classify Sample.config
       (AgentsApi.calculatePercentageChange 50 56)) = Some Alert.major.
Proof.
  assert (Ht : Spec.ordered (Spec.ofToken Sample.config))
    by (repeat split; reflexivity).
  assert (Hi : Spec.ordered (Spec.ofIQ Sample.iqConfig))
    by (repeat split; reflexivity).
  assert (Hp : 0 < 50) by reflexivity.
  destruct (C1_highest_tier_assigned Sample.config Sample.iqConfig 50 56 Ht Hi Hp)
    as (_ & _ & Hband & _).
  apply Hband. cbn. split; vm_compute; congruence.
Defined.

(** ** The milestone latch of the holdings watcher *)

Section Latch.

Lemma holdingsAlerts_app (l1 l2 : list HoldingsWatcher.Event) :
  Spec.holdingsAlerts (l1 ++ l2)
  = Spec.holdingsAlerts l1 ++ Spec.holdingsAlerts l2.
Proof. unfold Spec.holdingsAlerts. apply omap_app. Qed.

(** What one successful cycle does to the latch and to the milestone
    alerts, whatever the percentage branch did before. *)
Lemma checkHoldings_latch (w : HoldingsWatcher.t) (e : Env.t)
    (hd : AgentsApi.HoldingsResponse)
    (q : list (AgentsApi.Result AgentsApi.HoldingsResponse)) :
  AgentsApi.holdingsQueue (Env.api e) = AgentsApi.Ok hd :: q ->
  let v := AgentsApi.calculateHoldingsValue (AgentsApi.holdings hd) in
  let w' := (HoldingsWatcher.checkHoldings w e).1 in
  let fires := Num.geb v (HoldingsWatcher.thresholdUsd (HoldingsWatcher.config w))
               && negb (HoldingsWatcher.thresholdReached w) in
  HoldingsWatcher.thresholdReached w'
  = Num.geb v (HoldingsWatcher.thresholdUsd (HoldingsWatcher.config w))
  /\ exists l,
      HoldingsWatcher.emitted w' = HoldingsWatcher.emitted w ++ l
      /\ HoldingsWatcher.totalValue <$>
           Spec.holdingsAlertsOf HoldingsWatcher.threshold_reached l
         = if fires then [v] else [].
Proof.
  intros Hq v w' fires. subst w' fires.
  unfold HoldingsWatcher.checkHoldings, AgentsApi.getHoldings.
  rewrite Hq. cbn -[Num.geb Num.gtb Num.ltb AgentsApi.calculatePercentageChange].
  fold v.
  set (sig := if Num.gtb (HoldingsWatcher.lastKnownValue w) 0 then _ else _).
  assert (Hsig : exists l1,
             HoldingsWatcher.emitted sig.1 = HoldingsWatcher.emitted w ++ l1
             /\ Spec.holdingsAlertsOf HoldingsWatcher.threshold_reached l1 = []
             /\ HoldingsWatcher.thresholdReached sig.1
                = HoldingsWatcher.thresholdReached w
             /\ HoldingsWatcher.config sig.1 = HoldingsWatcher.config w).
  { subst sig. destruct (Num.gtb (HoldingsWatcher.lastKnownValue w) 0).
    - destruct (_ && _).
      + eexists [_]. cbn. repeat split.
      + exists []. cbn. rewrite app_nil_r. repeat split.
    - exists []. cbn. rewrite app_nil_r. repeat split. }

  destruct sig as [w1 e1]. cbn [fst] in Hsig.
  destruct Hsig as (l1 & Hl1 & Hnone & Hlatch & Hcfg).
  rewrite Hcfg, Hlatch.
  unfold Num.ltb, Num.geb.
  destruct (Qle_bool _ v) eqn:Hv, (HoldingsWatcher.thresholdReached w) eqn:HL;
    cbn; rewrite ?Hlatch; (split; [reflexivity|]).
  - exists l1. split; [exact Hl1 | now rewrite Hnone].
  - eexists (l1 ++ [_]). rewrite Hl1, app_assoc. split; [reflexivity|].
    unfold Spec.holdingsAlertsOf in *.
    rewrite holdingsAlerts_app, List.filter_app, Hnone. reflexivity.
  - exists l1. split; [exact Hl1 | now rewrite Hnone].
  - exists l1. split; [exact Hl1 | now rewrite Hnone].
Qed.

End Latch.

(** C2. With [thresholdUsd = 1000], the latch down and no last value, the
    samples 900, 1050, 1100, 950, 1200 give two [threshold_reached] alerts in
    all, the first with the second sample (1050) and the second with the
    fifth (1200), none with the third. In general a successful cycle that
    samples the value [v] emits a [threshold_reached] alert exactly when the
    latch goes from down to up, at most one, and leaves the latch up exactly
    when [v] is at or above the threshold. *)
Theorem C2_threshold_latch (w : HoldingsWatcher.t) (e : Env.t)
    (hd : AgentsApi.HoldingsResponse)
    (q : list (AgentsApi.Result AgentsApi.HoldingsResponse)) :
  AgentsApi.holdingsQueue (Env.api e) = AgentsApi.Ok hd :: q ->
  let v := AgentsApi.calculateHoldingsValue (AgentsApi.holdings hd) in
  let w' := (HoldingsWatcher.checkHoldings w e).1 in
  let reached l := Spec.holdingsAlertsOf HoldingsWatcher.threshold_reached l in
  (exists l,
      HoldingsWatcher.emitted w' = HoldingsWatcher.emitted w ++ l
      /\ (length (reached l) <= 1)%nat
      /\ (reached l <> [] <->
          HoldingsWatcher.thresholdReached w = false
          /\ HoldingsWatcher.thresholdReached w' = true))
  /\ (HoldingsWatcher.thresholdReached w' = true <->
      HoldingsWatcher.thresholdUsd (HoldingsWatcher.config w) <= v)
  /\ (v < HoldingsWatcher.thresholdUsd (HoldingsWatcher.config w) ->
      HoldingsWatcher.thresholdReached w' = false)
  /\ (fun k => length (reached (HoldingsWatcher.emitted (Sample.latchRun k).1)))
       <$> [0; 1; 2; 3; 4; 5]%nat
     = [0; 0; 1; 1; 1; 2]%nat
  /\ HoldingsWatcher.totalValue <$>
       reached (HoldingsWatcher.emitted (Sample.latchRun 5).1)
     = [1050; 1200]
  /\ HoldingsWatcher.thresholdReached <$> (fst <$> (Sample.latchRun <$> [0; 1; 2; 3; 4; 5]%nat))
     = [false; false; true; true; false; true].
Proof.
  intros Hq v w' reached.
  destruct (checkHoldings_latch w e hd q Hq) as (Hlatch & l & Hl & Hfire).
  fold v w' in Hlatch, Hl, Hfire. fold (reached l) in Hfire.
  assert (Hup : HoldingsWatcher.thresholdReached w' = true <->
                HoldingsWatcher.thresholdUsd (HoldingsWatcher.config w) <= v).
  { rewrite Hlatch. apply geb_true. }
  split; [exists l; split; [exact Hl|] |].
  - rewrite Hlatch.
    destruct (Num.geb v _), (HoldingsWatcher.thresholdReached w); cbn in Hfire;
      (split; [apply (f_equal length) in Hfire; rewrite length_fmap in Hfire;
               cbn in Hfire; lia |]);
      destruct (reached l); cbn in Hfire; try discriminate;
      split; try tauto; try congruence; intros [? ?]; congruence.
  - split; [exact Hup|]. split.
    + intros Hlt. rewrite Hlatch. now apply geb_false.
    + repeat split; vm_compute; reflexivity.
Qed.

Lemma C2_threshold_latch_witness :
  HoldingsWatcher.thresholdReached
    (HoldingsWatcher.checkHoldings (Sample.holdingsWatcher 1100 true)
       (Sample.env 0 [] [] [950])).1 = false.
Proof.
  refine (proj1 (proj2 (proj2
    (C2_threshold_latch (Sample.holdingsWatcher 1100 true)
       (Sample.env 0 [] [] [950]) _ [] eq_refl))) _).
  reflexivity.
Defined.

(** ** The first observation of a target *)

Section Baseline.

(** The IQ watcher guards its classification with [previousPrice > 0]. *)
Lemma checkIQPrice_no_baseline (w : IQPriceWatcher.t) (e : Env.t) :
  IQPriceWatcher.lastKnownPrice w <= 0 ->
  Spec.iqAlerts (IQPriceWatcher.emitted (IQPriceWatcher.checkIQPrice w e).1)
  = Spec.iqAlerts (IQPriceWatcher.emitted w).
Proof.
  intros Hle. apply gtb_false in Hle.
  unfold IQPriceWatcher.checkIQPrice.
  destruct (AgentsApi.getPrices (Env.api e)) as [[prices|err] api'].
  - rewrite Hle. reflexivity.
  - cbn. rewrite iqAlerts_app. cbn. apply app_nil_r.
Qed.

(** The holdings watcher guards its percentage alert with
    [this.lastKnownValue > 0]. *)
Lemma checkHoldings_no_baseline (w : HoldingsWatcher.t) (e : Env.t) :
  HoldingsWatcher.lastKnownValue w <= 0 ->
  Spec.holdingsAlertsOf HoldingsWatcher.significant_change
    (HoldingsWatcher.emitted (HoldingsWatcher.checkHoldings w e).1)
  = Spec.holdingsAlertsOf HoldingsWatcher.significant_change
      (HoldingsWatcher.emitted w).
Proof.
  intros Hle. apply gtb_false in Hle.
  unfold HoldingsWatcher.checkHoldings, Spec.holdingsAlertsOf.
  destruct (AgentsApi.getHoldings _ (Env.api e)) as [[hd|err] api'].
  - rewrite Hle.
    destruct (_ && negb _); [| destruct (_ && _)]; cbn;
      rewrite ?holdingsAlerts_app, ?List.filter_app; cbn;
      rewrite ?app_nil_r; reflexivity.
  - cbn. rewrite holdingsAlerts_app, List.filter_app. cbn. apply app_nil_r.
Qed.

(** The token watcher has no such guard: only a previous price equal to 0
    is caught, by [calculatePercentageChange], and the cycle then returns
    before it writes anything. *)
Lemma checkTokenPrice_zero_baseline (tokenContract : string)
    (w : PriceWatcher.t) (e : Env.t) (token : PriceWatcher.TrackedToken) :
  PriceWatcher.trackedTokens w !! tokenContract = Some token ->
  PriceWatcher.lastPrice token == 0 ->
  Spec.priceAlerts
    (PriceWatcher.emitted (PriceWatcher.checkTokenPrice tokenContract w e).1)
  = Spec.priceAlerts (PriceWatcher.emitted w).
Proof.
  intros Htk Hz. apply eqb_true in Hz.
  unfold PriceWatcher.checkTokenPrice. rewrite Htk.
  destruct (AgentsApi.getAgentStats _ (Env.api e)) as [[stats|err] api'].
  - unfold AgentsApi.calculatePercentageChange. rewrite Hz. reflexivity.
  - cbn. rewrite priceAlerts_app. cbn. apply app_nil_r.
Qed.

End Baseline.

(** C3 (code defect). A token is added while the API reports the price
    -100; at the next cycle the API reports 100. The previous value is
    negative, and the token watcher classifies the change and emits a
    critical alert: it has no [previousPrice > 0] guard. At the same
    previous and current values the IQ watcher and the holdings watcher emit
    no percentage alert, and the token watcher emits none from a previous
    value 0. *)
Theorem C3_token_watcher_negative_baseline :
  PriceWatcher.lastPrice <$>
    (PriceWatcher.trackedTokens (Sample.added (-100) [100]).1 !! "0xA1")
  = Some (-100)
  /\ (PriceWatcher.severity <$>
       Spec.priceAlerts
         (PriceWatcher.emitted
            (PriceWatcher.checkTokenPrice "0xA1" (Sample.added (-100) [100]).1
               (Sample.added (-100) [100]).2).1))
     = [Alert.critical]
  /\ Spec.priceAlerts
       (PriceWatcher.emitted
          (PriceWatcher.checkTokenPrice "0xA1" (Sample.added 0 [100]).1
             (Sample.added 0 [100]).2).1)
     = []
  /\ Spec.iqAlerts
       (IQPriceWatcher.emitted
          (IQPriceWatcher.checkIQPrice (Sample.iqWatcher (-100))
             (Sample.env 0 [] [100] [])).1)
     = []
  /\ Spec.holdingsAlertsOf HoldingsWatcher.significant_change
       (HoldingsWatcher.emitted
          (HoldingsWatcher.checkHoldings (Sample.holdingsWatcher (-100) false)
             (Sample.env 0 [] [] [100])).1)
     = [].
Proof. repeat split; vm_compute; reflexivity. Qed.

(** ** A cycle whose fetch fails *)

Section FetchFailure.

Lemma fetchFails_next {A} (q : list (AgentsApi.Result A)) (err : string) :
  Spec.fetchFails q err -> exists q', AgentsApi.next q = (AgentsApi.Err err, q').
Proof.
  unfold Spec.fetchFails. destruct (AgentsApi.next q) as [r q'].
  cbn. intros ->. now exists q'.
Qed.

Lemma checkTokenPrice_fetch_fails (tokenContract : string)
    (w : PriceWatcher.t) (e : Env.t) (token : PriceWatcher.TrackedToken)
    (err : string) :
  PriceWatcher.trackedTokens w !! tokenContract = Some token ->
  Spec.fetchFails (AgentsApi.statsQueue (Env.api e)) err ->
  PriceWatcher.checkTokenPrice tokenContract w e
  = (PriceWatcher.emit (PriceWatcher.error err) w,
     Env.set_api (AgentsApi.getAgentStats tokenContract (Env.api e)).2 e).
Proof.
  intros Htk Hf. destruct (fetchFails_next _ _ Hf) as [q' Hq].
  unfold PriceWatcher.checkTokenPrice, AgentsApi.getAgentStats.
  rewrite Htk, Hq. reflexivity.
Qed.

Lemma checkHoldings_fetch_fails (w : HoldingsWatcher.t) (e : Env.t)
    (err : string) :
  Spec.fetchFails (AgentsApi.holdingsQueue (Env.api e)) err ->
  HoldingsWatcher.checkHoldings w e
  = (HoldingsWatcher.emit (HoldingsWatcher.error err) w,
     Env.set_api
       (AgentsApi.getHoldings
          (HoldingsWatcher.address (HoldingsWatcher.config w)) (Env.api e)).2 e).
Proof.
  intros Hf. destruct (fetchFails_next _ _ Hf) as [q' Hq].
  unfold HoldingsWatcher.checkHoldings, AgentsApi.getHoldings.
  rewrite Hq. reflexivity.
Qed.

Lemma checkIQPrice_fetch_fails (w : IQPriceWatcher.t) (e : Env.t)
    (err : string) :
  Spec.fetchFails (AgentsApi.pricesQueue (Env.api e)) err ->
  IQPriceWatcher.checkIQPrice w e
  = (IQPriceWatcher.emit (IQPriceWatcher.error err) w,
     Env.set_api (AgentsApi.getPrices (Env.api e)).2 e).
Proof.
  intros Hf. destruct (fetchFails_next _ _ Hf) as [q' Hq].
  unfold IQPriceWatcher.checkIQPrice, AgentsApi.getPrices.
  rewrite Hq. reflexivity.
Qed.

End FetchFailure.

(** C5. When the fetch of a cycle fails, the cycle of each of the three
    watchers ends with every field of the watcher as it was (last value,
    last check time, latch, configuration, running flag, timer), the
    database as it was and the clock as it was; the only event emitted is
    one [error] event, so no alert is emitted. *)
Theorem C5_fetch_failure_leaves_state
    (tokenContract : string) (pw : PriceWatcher.t)
    (token : PriceWatcher.TrackedToken)
    (hw : HoldingsWatcher.t) (iw : IQPriceWatcher.t) (e : Env.t)
    (errS errH errP : string) :
  PriceWatcher.trackedTokens pw !! tokenContract = Some token ->
  Spec.fetchFails (AgentsApi.statsQueue (Env.api e)) errS ->
  Spec.fetchFails (AgentsApi.holdingsQueue (Env.api e)) errH ->
  Spec.fetchFails (AgentsApi.pricesQueue (Env.api e)) errP ->
  let p := PriceWatcher.checkTokenPrice tokenContract pw e in
  let h := HoldingsWatcher.checkHoldings hw e in
  let i := IQPriceWatcher.checkIQPrice iw e in
  (PriceWatcher.trackedTokens p.1 = PriceWatcher.trackedTokens pw
   /\ PriceWatcher.isRunning p.1 = PriceWatcher.isRunning pw
   /\ PriceWatcher.timers p.1 = PriceWatcher.timers pw
   /\ PriceWatcher.timerSeq p.1 = PriceWatcher.timerSeq pw
   /\ PriceWatcher.emitted p.1
      = PriceWatcher.emitted pw ++ [PriceWatcher.error errS]
   /\ Env.db p.2 = Env.db e /\ Env.now p.2 = Env.now e)
  /\ (HoldingsWatcher.lastKnownValue h.1 = HoldingsWatcher.lastKnownValue hw
      /\ HoldingsWatcher.lastCheckTime h.1 = HoldingsWatcher.lastCheckTime hw
      /\ HoldingsWatcher.thresholdReached h.1
         = HoldingsWatcher.thresholdReached hw
      /\ HoldingsWatcher.config h.1 = HoldingsWatcher.config hw
      /\ HoldingsWatcher.isRunning h.1 = HoldingsWatcher.isRunning hw
      /\ HoldingsWatcher.intervalId h.1 = HoldingsWatcher.intervalId hw
      /\ HoldingsWatcher.emitted h.1
         = HoldingsWatcher.emitted hw ++ [HoldingsWatcher.error errH]
      /\ Env.db h.2 = Env.db e /\ Env.now h.2 = Env.now e)
  /\ (IQPriceWatcher.lastKnownPrice i.1 = IQPriceWatcher.lastKnownPrice iw
      /\ IQPriceWatcher.lastCheckTime i.1 = IQPriceWatcher.lastCheckTime iw
      /\ IQPriceWatcher.config i.1 = IQPriceWatcher.config iw
      /\ IQPriceWatcher.isRunning i.1 = IQPriceWatcher.isRunning iw
      /\ IQPriceWatcher.intervalId i.1 = IQPriceWatcher.intervalId iw
      /\ IQPriceWatcher.emitted i.1
         = IQPriceWatcher.emitted iw ++ [IQPriceWatcher.error errP]
      /\ Env.db i.2 = Env.db e /\ Env.now i.2 = Env.now e).
Proof.
  intros Htk Hs Hh Hp p h i. subst p h i.
  rewrite (checkTokenPrice_fetch_fails _ _ _ _ _ Htk Hs).
  rewrite (checkHoldings_fetch_fails _ _ _ Hh).
  rewrite (checkIQPrice_fetch_fails _ _ _ Hp).
  cbn. repeat split.
Qed.

Lemma C5_fetch_failure_leaves_state_witness :
  PriceWatcher.trackedTokens
    (PriceWatcher.checkTokenPrice "0xA1" (Sample.watcher 100)
       (Sample.env 100 [] [] [])).1
  = PriceWatcher.trackedTokens (Sample.watcher 100).
Proof.
  refine (proj1 (proj1
    (C5_fetch_failure_leaves_state "0xA1" (Sample.watcher 100) (Sample.token 100)
       (Sample.holdingsWatcher 900 false) (Sample.iqWatcher 100)
       (Sample.env 100 [] [] [])
       "Network Error" "Network Error" "Network Error" _ _ _ _)));
    reflexivity.
Defined.

(** C8. The first successful sample of the holdings watcher (no last value
    yet, latch down) that is at or above [thresholdUsd] emits one alert, the
    [threshold_reached] one for the sampled value, raises the latch and
    stores the alert; no percentage alert goes with it. *)
Theorem C8_milestone_needs_no_baseline (w : HoldingsWatcher.t) (e : Env.t)
    (hd : AgentsApi.HoldingsResponse)
    (q : list (AgentsApi.Result AgentsApi.HoldingsResponse)) :
  AgentsApi.holdingsQueue (Env.api e) = AgentsApi.Ok hd :: q ->
  HoldingsWatcher.lastKnownValue w == 0 ->
  HoldingsWatcher.thresholdReached w = false ->
  HoldingsWatcher.thresholdUsd (HoldingsWatcher.config w)
  <= AgentsApi.calculateHoldingsValue (AgentsApi.holdings hd) ->
  let v := AgentsApi.calculateHoldingsValue (AgentsApi.holdings hd) in
  let r := HoldingsWatcher.checkHoldings w e in
  exists a,
    HoldingsWatcher.emitted r.1
    = HoldingsWatcher.emitted w ++ [HoldingsWatcher.alert a]
    /\ HoldingsWatcher.type a = HoldingsWatcher.threshold_reached
    /\ HoldingsWatcher.totalValue a = v
    /\ HoldingsWatcher.previousValue a = None
    /\ HoldingsWatcher.thresholdReached r.1 = true
    /\ Database.al_message <$> Database.alerts (Env.db r.2)
       = (Database.al_message <$> Database.alerts (Env.db e))
         ++ [Database.ThresholdMessage v
               (HoldingsWatcher.thresholdUsd (HoldingsWatcher.config w))].
Proof.
  intros Hq Hz HL Hge v r. subst r.
  assert (Hgt : Num.gtb (HoldingsWatcher.lastKnownValue w) 0 = false).
  { apply gtb_false. rewrite Hz. apply Qle_refl. }
  apply geb_true in Hge. fold v in Hge.
  unfold HoldingsWatcher.checkHoldings, AgentsApi.getHoldings.
  rewrite Hq. cbn -[Num.geb Num.gtb Num.ltb AgentsApi.calculatePercentageChange].
  fold v. rewrite Hgt, Hge, HL. cbn.
  eexists. split; [reflexivity|]. cbn.
  repeat split. now rewrite fmap_app.
Qed.

Lemma C8_milestone_needs_no_baseline_witness :
  exists a,
    HoldingsWatcher.emitted
      (HoldingsWatcher.checkHoldings
         (HoldingsWatcher.new Sample.holdingsConfig 0)
         (Sample.env 0 [] [] [1500])).1
    = [HoldingsWatcher.alert a]
    /\ HoldingsWatcher.type a = HoldingsWatcher.threshold_reached.
Proof.
  destruct (C8_milestone_needs_no_baseline
              (HoldingsWatcher.new Sample.holdingsConfig 0)
              (Sample.env 0 [] [] [1500]) _ [] eq_refl)
    as (a & Ha & Hty & _).
  - reflexivity.
  - reflexivity.
  - vm_compute. congruence.
  - exists a. split; [exact Ha | exact Hty].
Defined.

(** ** Commands on a token that is not tracked *)

(** C9. [updateTokenAlerts] throws exactly when the token is not tracked,
    and then leaves the watcher and the environment (the database with it)
    as they were; [updateTokenConfig] on a token that is not tracked returns
    without an error and leaves them as they were too. *)
Theorem C9_untracked_token (tokenContract : string)
    (alertConfig : PriceWatcher.AlertConfig)
    (updates : PriceWatcher.TokenWatchConfigUpdate)
    (w : PriceWatcher.t) (e : Env.t) :
  let r := PriceWatcher.updateTokenAlerts tokenContract alertConfig w e in
  ((exists err, r.1 = AgentsApi.Err err) <->
   PriceWatcher.trackedTokens w !! tokenContract = None)
  /\ (r.1 = AgentsApi.Ok tt <->
      is_Some (PriceWatcher.trackedTokens w !! tokenContract))
  /\ ((exists err, r.1 = AgentsApi.Err err) -> r.2 = (w, e))
  /\ (PriceWatcher.trackedTokens w !! tokenContract = None ->
      PriceWatcher.updateTokenConfig tokenContract updates w e = (w, e)).
Proof.
  unfold PriceWatcher.updateTokenAlerts, PriceWatcher.updateTokenConfig.
  destruct (PriceWatcher.trackedTokens w !! tokenContract) as [token|]; cbn.
  - split; [split; [intros [err H]; discriminate | discriminate] |].
    split; [split; [eauto | reflexivity] |].
    split; [intros [err H]; discriminate | discriminate].
  - split; [split; [reflexivity | eauto] |].
    split; [split; [discriminate | intros [x H]; discriminate] |].
    split; reflexivity.
Qed.

Lemma C9_untracked_token_witness :
  PriceWatcher.updateTokenConfig "0xB2"
    {| PriceWatcher.p_tokenContract := None; PriceWatcher.p_tokenName := None;
       PriceWatcher.p_thresholds := None;
       PriceWatcher.p_checkInterval := Some 30;
       PriceWatcher.p_enableMinorAlerts := None;
       PriceWatcher.p_enableMajorAlerts := None;
       PriceWatcher.p_enableCriticalAlerts := None |}
    (Sample.watcher 100) (Sample.env 100 [] [] [])
  = (Sample.watcher 100, Sample.env 100 [] [] []).
Proof.
  refine (proj2 (proj2 (proj2
    (C9_untracked_token "0xB2"
       {| PriceWatcher.c_enableMinorAlerts := Some false;
          PriceWatcher.c_enableMajorAlerts := None;
          PriceWatcher.c_enableCriticalAlerts := None |}
       _ (Sample.watcher 100) (Sample.env 100 [] [] [])))) _).
  vm_compute. reflexivity.
Defined.

(** ** What a cycle of the token watcher leaves alone *)

Section Frame.

Lemma lookup_insert_proj {A B} (f : A -> B) (m : gmap string A)
    (k j : string) (x y : A) :
  m !! k = Some x -> f y = f x ->
  f <$> (<[k := y]> m !! j) = f <$> (m !! j).
Proof.
  intros Hk Hf. destruct (decide (k = j)) as [<-|Hne].
  - rewrite lookup_insert_eq, Hk. cbn. now rewrite Hf.
  - now rewrite lookup_insert_ne.
Qed.

Lemma lookup_alter_proj {A B} (f : A -> B) (g : A -> A) (m : gmap string A)
    (k j : string) :
  (forall x, f (g x) = f x) ->
  f <$> (alter g k m !! j) = f <$> (m !! j).
Proof.
  intros Hf. destruct (decide (k = j)) as [<-|Hne].
  - rewrite lookup_alter_eq. destruct (m !! k); cbn; [now rewrite Hf | reflexivity].
  - now rewrite lookup_alter_ne.
Qed.

Lemma keeps_refl s : Spec.keeps s s.
Proof. now repeat split. Qed.

Lemma keeps_trans s1 s2 s3 :
  Spec.keeps s1 s2 -> Spec.keeps s2 s3 -> Spec.keeps s1 s3.
Proof.
  intros (A1 & B1 & C1) (A2 & B2 & C2). repeat split.
  - intros k. now rewrite A2, A1.
  - now rewrite B2, B1.
  - intros k. now rewrite C2, C1.
Qed.

Lemma checkTokenPrice_keeps (tokenContract : string) (w : PriceWatcher.t)
    (e : Env.t) :
  Spec.keeps (w, e) (PriceWatcher.checkTokenPrice tokenContract w e).
Proof.
  unfold PriceWatcher.checkTokenPrice.
  destruct (PriceWatcher.trackedTokens w !! tokenContract) as [token|] eqn:Htk;
    [| apply keeps_refl].
  destruct (AgentsApi.getAgentStats tokenContract (Env.api e)) as [[stats|err] api'];
    [| now repeat split].
  destruct (Num.eqb _ 0); [now repeat split |].
  set (w1 := if _ && _ then _ else _).
  assert (H1 : PriceWatcher.trackedTokens w1 = PriceWatcher.trackedTokens w
               /\ PriceWatcher.isRunning w1 = PriceWatcher.isRunning w).
  { subst w1. destruct (_ && _); now split. }
  destruct H1 as [Hm Hr]. unfold Spec.keeps. cbn. rewrite Hm, Hr.
  repeat split.
  - intros k. now apply lookup_insert_proj with (x := token).
  - intros k. now apply lookup_alter_proj.
Qed.


Lemma startTrackingToken_keeps (tokenContract : string) (w : PriceWatcher.t)
    (e : Env.t) :
  Spec.keeps (w, e) (PriceWatcher.startTrackingToken tokenContract w e).
Proof.
  unfold PriceWatcher.startTrackingToken.
  destruct (PriceWatcher.trackedTokens w !! tokenContract) as [token|] eqn:Htk;
    [| apply keeps_refl].
  eapply keeps_trans; [| apply checkTokenPrice_keeps].
  destruct (PriceWatcher.intervalId token); repeat split; intros k; cbn;
    now apply lookup_insert_proj with (x := token).
Qed.

End Frame.

(** ** Adding a token *)

Section AddToken.

Lemma filter_eq_NoDup (l : list string) (x : string) :
  NoDup l -> x ∈ l -> length (filter (fun k => k = x) l) = 1%nat.
Proof.
  induction 1 as [|y l Hy Hnd IH]; intros Hin.
  - inversion Hin.
  - rewrite filter_cons. destruct (decide (y = x)) as [->|Hne].
    + cbn. f_equal.
      destruct (filter (fun k => k = x) l) as [|z t] eqn:E; [reflexivity|].
      assert (Hz : z ∈ filter (fun k => k = x) l) by (rewrite E; left).
      apply list_elem_of_filter in Hz as [-> Hz]. contradiction.
    + apply IH. apply elem_of_cons in Hin as [->|Hin]; [contradiction | exact Hin].
Qed.

Lemma trackedKeys_once (w : PriceWatcher.t) (tokenContract : string) :
  is_Some (PriceWatcher.trackedTokens w !! tokenContract) ->
  length (filter (fun k => k = tokenContract) (Spec.trackedKeys w)) = 1%nat.
Proof.
  intros [tk Htk]. apply filter_eq_NoDup.
  - apply NoDup_fst_map_to_list.
  - unfold Spec.trackedKeys. apply list_elem_of_fmap.
    exists (tokenContract, tk). split; [reflexivity|].
    now apply elem_of_map_to_list.
Qed.

(** A resolved [addToken] leaves the token tracked. *)
Lemma addToken_tracked (tokenContract tokenName : string)
    (priceChangeThreshold checkInterval : Q) (w : PriceWatcher.t) (e : Env.t)
    (w1 : PriceWatcher.t) (e1 : Env.t) :
  PriceWatcher.addToken tokenContract tokenName priceChangeThreshold
    checkInterval w e = (AgentsApi.Ok tt, (w1, e1)) ->
  is_Some (PriceWatcher.trackedTokens w1 !! tokenContract).
Proof.
  unfold PriceWatcher.addToken. case_bool_decide as Hin.
  - intros [= <- <-]. exact Hin.
  - destruct (AgentsApi.getAgentStats tokenContract (Env.api e))
      as [[stats|err] api']; [| discriminate].
    set (w0 := PriceWatcher.set_trackedTokens _ w).
    set (e0 := Env.set_db _ _).
    assert (Hk : Spec.keeps (w0, e0)
                   (if PriceWatcher.isRunning w0
                    then PriceWatcher.startTrackingToken tokenContract w0 e0
                    else (w0, e0))).
    { destruct (PriceWatcher.isRunning w0);
        [apply startTrackingToken_keeps | apply keeps_refl]. }
    destruct (if PriceWatcher.isRunning w0 then _ else _) as [w2 e2].
    intros [= <- <-]. destruct Hk as (Hcfg & _).
    specialize (Hcfg tokenContract). cbn in Hcfg.
    rewrite lookup_insert_eq in Hcfg. cbn in Hcfg.
    change (is_Some (PriceWatcher.trackedTokens w2 !! tokenContract)).
    destruct (PriceWatcher.trackedTokens w2 !! tokenContract); [eauto | discriminate].
Qed.

End AddToken.

(** C6. After [addToken] has resolved for a token contract, a second
    [addToken] for the same contract (with the same or with other
    arguments) resolves and returns the watcher and the environment as they
    are: no request is sent to the API, no row is written, no event is
    emitted; and the contract is one key of the tracked tokens, once. *)
Theorem C6_addToken_idempotent (tokenContract tokenName tokenName' : string)
    (priceChangeThreshold checkInterval priceChangeThreshold' checkInterval' : Q)
    (w : PriceWatcher.t) (e : Env.t) (w1 : PriceWatcher.t) (e1 : Env.t) :
  PriceWatcher.addToken tokenContract tokenName priceChangeThreshold
    checkInterval w e = (AgentsApi.Ok tt, (w1, e1)) ->
  let r := PriceWatcher.addToken tokenContract tokenName' priceChangeThreshold'
             checkInterval' w1 e1 in
  r = (AgentsApi.Ok tt, (w1, e1))
  /\ AgentsApi.requests (Env.api r.2.2) = AgentsApi.requests (Env.api e1)
  /\ Env.db r.2.2 = Env.db e1
  /\ PriceWatcher.emitted r.2.1 = PriceWatcher.emitted w1
  /\ length (filter (fun k => k = tokenContract) (Spec.trackedKeys r.2.1))
     = 1%nat.
Proof.
  intros H1 r. apply addToken_tracked in H1.
  assert (Hr : r = (AgentsApi.Ok tt, (w1, e1))).
  { subst r. unfold PriceWatcher.addToken.
    case_bool_decide; [reflexivity | contradiction]. }
  rewrite Hr. cbn. repeat split. now apply trackedKeys_once.
Qed.

Lemma C6_addToken_idempotent_witness :
  PriceWatcher.addToken "0xA1" "Agent" 2 60 (Sample.added 100 [101]).1
    (Sample.added 100 [101]).2
  = (AgentsApi.Ok tt, Sample.added 100 [101]).
Proof.
  refine (eq_trans
    (proj1 (C6_addToken_idempotent "0xA1" "Agent" "Agent" 2 60 2 60
              PriceWatcher.init
              {| Env.api := Env.api (Sample.env 0 [100; 101] [] []);
                 Env.db := Database.empty; Env.now := 1000%Z |}
              (Sample.added 100 [101]).1 (Sample.added 100 [101]).2 _)) _).
  - vm_compute. reflexivity.
  - vm_compute. reflexivity.
Defined.

(** What [addToken] stores, in the model of rationals: the tracked token
    and the row of the token hold the same three tiers, built from the
    threshold by the same expressions. *)
Lemma addToken_stores_tiers (tokenContract tokenName : string)
    (t checkInterval : Q) (w : PriceWatcher.t) (e : Env.t)
    (stats : AgentsApi.AgentStats)
    (q : list (AgentsApi.Result AgentsApi.AgentStats)) :
  PriceWatcher.trackedTokens w !! tokenContract = None ->
  AgentsApi.statsQueue (Env.api e) = AgentsApi.Ok stats :: q ->
  let r := PriceWatcher.addToken tokenContract tokenName t checkInterval w e in
  let tiers := {| Spec.minor := t; Spec.major := t * 3; Spec.critical := t * 5 |} in
  r.1 = AgentsApi.Ok tt
  /\ (exists token,
        PriceWatcher.trackedTokens r.2.1 !! tokenContract = Some token
        /\ Spec.ofToken (PriceWatcher.config token) = tiers)
  /\ (exists row,
        Database.watched_tokens (Env.db r.2.2) !! tokenContract = Some row
        /\ Spec.ofRow row = tiers).
Proof.
  intros Hnone Hq r tiers. subst r.
  unfold PriceWatcher.addToken, AgentsApi.getAgentStats.
  rewrite Hnone, Hq.
  case_bool_decide as Hin; [destruct Hin; discriminate |]. cbn.
  set (w0 := PriceWatcher.set_trackedTokens _ w).
  set (e0 := Env.set_db _ _).
  assert (Hk : Spec.keeps (w0, e0)
                 (if PriceWatcher.isRunning w0
                  then PriceWatcher.startTrackingToken tokenContract w0 e0
                  else (w0, e0))).
  { destruct (PriceWatcher.isRunning w0);
      [apply startTrackingToken_keeps | apply keeps_refl]. }
  destruct (if PriceWatcher.isRunning w0 then _ else _) as [w2 e2].
  destruct Hk as (Hcfg & _ & Hcol).
  specialize (Hcfg tokenContract). specialize (Hcol tokenContract).
  cbn in Hcfg, Hcol.
  rewrite lookup_insert_eq in Hcfg. rewrite lookup_insert_eq in Hcol.
  cbn in Hcfg, Hcol.
  split; [reflexivity|]. cbn. split.
  - destruct (PriceWatcher.trackedTokens w2 !! tokenContract) as [token|];
      [| discriminate].
    exists token. split; [reflexivity|].
    injection Hcfg as ->. reflexivity.
  - destruct (Database.watched_tokens (Env.db e2) !! tokenContract) as [row|];
      [| discriminate].
    exists row. split; [reflexivity|].
    injection Hcol as _ _ _ Hn Hm Hc _ _ _ _ _.
    unfold Spec.ofRow, tiers. now rewrite Hn, Hm, Hc.
Qed.

(** ** The tiers of [addToken] in doubles *)

Section Doubles.
Local Open Scope Z_scope.

Lemma digits2_size (p : positive) : digits2_pos p = Pos.size p.
Proof. induction p as [p IH|p IH|]; cbn; now rewrite ?IH. Qed.

Lemma digits_upper (p : positive) : Zpos p < 2 ^ Zpos (digits2_pos p).
Proof.
  rewrite digits2_size. pose proof (Pos.size_gt p) as H.
  rewrite <- Pos2Z.inj_pow. lia.
Qed.

Lemma digits_lower (p : positive) : 2 ^ Zpos (digits2_pos p) <= 2 * Zpos p.
Proof.
  rewrite digits2_size. pose proof (Pos.size_le p) as H.
  rewrite <- Pos2Z.inj_pow. lia.
Qed.

Lemma digits_le (p : positive) (k : Z) :
  Zpos p < 2 ^ k -> Zpos (digits2_pos p) <= k.
Proof.
  intros H. pose proof (digits_lower p) as Hl.
  destruct (Z_lt_le_dec k 0) as [Hk|Hk].
  { rewrite Z.pow_neg_r in H by lia. lia. }
  apply Z.lt_succ_r.
  apply (Z.pow_lt_mono_r_iff 2); [lia | lia |].
  rewrite Z.pow_succ_r by lia. lia.
Qed.

Lemma digits_ge (p : positive) (k : Z) :
  0 <= k -> 2 ^ k <= Zpos p -> k + 1 <= Zpos (digits2_pos p).
Proof.
  intros Hk H. pose proof (digits_upper p) as Hu.
  assert (k < Zpos (digits2_pos p)); [| lia].
  apply (Z.pow_lt_mono_r_iff 2); lia.
Qed.

Lemma shr_1_m (mrs : shr_record) :
  0 <= shr_m mrs -> shr_m (shr_1 mrs) = shr_m mrs / 2.
Proof.
  destruct mrs as [m r s]. cbn. intros Hm.
  destruct m as [|[p|p|]|p]; cbn [shr_1 shr_m].
  - reflexivity.
  - apply (Z.div_unique _ _ _ 1); lia.
  - apply (Z.div_unique _ _ _ 0); lia.
  - reflexivity.
  - lia.
Qed.

Lemma iter_shr_1_m (p : positive) (mrs : shr_record) :
  0 <= shr_m mrs ->
  shr_m (SpecFloat.iter_pos shr_1 p mrs) = shr_m mrs / 2 ^ Zpos p.
Proof.
  revert mrs. induction p as [p IH|p IH|]; intros mrs Hm; cbn [SpecFloat.iter_pos].
  - assert (H1 : 0 <= shr_m (shr_1 mrs)).
    { rewrite shr_1_m by exact Hm. apply Z.div_pos; lia. }
    assert (H2 : 0 <= shr_m (SpecFloat.iter_pos shr_1 p (shr_1 mrs))).
    { rewrite IH by exact H1. apply Z.div_pos; [exact H1 | lia]. }
    rewrite IH by exact H2. rewrite IH by exact H1. rewrite shr_1_m by exact Hm.
    rewrite !Z.div_div by lia. f_equal.
    replace (Zpos p~1) with (Zpos p + Zpos p + 1) by lia.
    rewrite !Z.pow_add_r by lia. lia.
  - assert (H2 : 0 <= shr_m (SpecFloat.iter_pos shr_1 p mrs)).
    { rewrite IH by exact Hm. apply Z.div_pos; [exact Hm | lia]. }
    rewrite IH by exact H2. rewrite IH by exact Hm.
    rewrite !Z.div_div by lia. f_equal.
    replace (Zpos p~0) with (Zpos p + Zpos p) by lia.
    rewrite !Z.pow_add_r by lia. lia.
  - rewrite shr_1_m by exact Hm. reflexivity.
Qed.

Lemma shr_nonpos (mrs : shr_record) (e n : Z) :
  n <= 0 -> shr mrs e n = (mrs, e).
Proof. intros Hn. unfold shr. destruct n; [reflexivity | lia | reflexivity]. Qed.

Lemma shr_pos (mrs : shr_record) (e n : Z) :
  0 <= shr_m mrs -> 0 < n ->
  exists mrs', shr mrs e n = (mrs', e + n) /\ shr_m mrs' = shr_m mrs / 2 ^ n.
Proof.
  intros Hm Hn. unfold shr. destruct n as [|p|p]; try lia.
  eexists. split; [reflexivity|]. now apply iter_shr_1_m.
Qed.

Lemma round_nearest_even_bounds (q : Z) (l : location) :
  q <= round_nearest_even q l <= q + 1.
Proof.
  unfold round_nearest_even. destruct l as [|[| |]]; try lia.
  destruct (Z.even q); lia.
Qed.

Lemma shr_spec (mrs : shr_record) (e n : Z) :
  0 <= shr_m mrs -> 0 <= n ->
  exists mrs', shr mrs e n = (mrs', e + n) /\ shr_m mrs' = shr_m mrs / 2 ^ n.
Proof.
  intros Hm Hn. destruct (Z.eq_dec n 0) as [->|Hne].
  - exists mrs. cbn. rewrite Z.add_0_r, Z.div_1_r. auto.
  - apply shr_pos; lia.
Qed.

Lemma fexp_double (x : Z) : fexp 53 1024 x = Z.max (x - 53) (-1074).
Proof. reflexivity. Qed.

(** Rounding a positive mantissa keeps it between the two neighbours of
    its quotient by the shift. *)
Lemma binary_round_aux_bounds (M : positive) (E : Z) :
  let u := fexp 53 1024 (Zpos (digits2_pos M) + E) in
  let q := Zpos M / 2 ^ (u - E) in
  E <= u ->
  match binary_round_aux 53 1024 false (Zpos M) E loc_Exact with
  | S754_finite false m e =>
      canonical_mantissa 53 1024 m e = true /\ e <= 971
      /\ Double.scaled q u <= Double.scaled (Zpos m) e <= Double.scaled (q + 1) u
  | S754_infinity false => True
  | S754_zero false => q = 0
  | _ => False
  end.
Proof.
  intros u q Hn. unfold binary_round_aux, shr_fexp. cbn [Zdigits2]. fold u.
  destruct (shr_spec (shr_record_of_loc (Zpos M) loc_Exact) E (u - E))
    as (mrs' & Hshr & Hm'); [cbn; lia | lia |].
  rewrite Hshr. cbn [shr_record_of_loc shr_m] in Hm'. fold q in Hm'.
  replace (E + (u - E)) with u by lia.
  pose proof (round_nearest_even_bounds (shr_m mrs') (loc_of_shr_record mrs')) as Hr.
  set (r1 := round_nearest_even _ _) in *. rewrite Hm' in Hr.
  clearbody r1. clear Hshr Hm' mrs'.
  assert (Hu : -1074 <= u) by (subst u; rewrite fexp_double; lia).
  assert (Hq0 : 0 <= q) by (apply Z.div_pos; lia).
  assert (Hq53 : q < 2 ^ 53).
  { apply Z.div_lt_upper_bound; [lia|].
    pose proof (digits_upper M) as HM.
    assert (Hd : Zpos (digits2_pos M) <= (u - E) + 53)
      by (subst u; rewrite fexp_double; lia).
    eapply Z.lt_le_trans; [exact HM|].
    rewrite Z.mul_comm, <- Z.pow_add_r by lia.
    apply Z.pow_le_mono_r; lia. }
  assert (Hp : 0 < 2 ^ (u + 1200)) by (apply Z.pow_pos_nonneg; lia).
  cbn [shr_record_of_loc].
  destruct r1 as [|m1|m1] eqn:Er1; [| |lia].
  - cbn [Zdigits2]. rewrite shr_nonpos by (rewrite fexp_double; lia).
    cbn. lia.
  - cbn [Zdigits2].
    destruct (Z_le_gt_dec (Zpos (digits2_pos m1)) 53) as [Hd1|Hd1].
    + rewrite shr_nonpos by (rewrite fexp_double; lia).
      cbn [shr_m]. destruct (Z.leb_spec u (1024 - 53)) as [Hle|Hgt]; [| exact I].
      split; [|split; [lia|]].
      * unfold canonical_mantissa. apply Z.eqb_eq. rewrite fexp_double.
        destruct (Z.eq_dec u (-1074)) as [Hmin|Hmin]; [lia|].
        assert (Hue : u = Zpos (digits2_pos M) + E - 53)
          by (subst u; rewrite fexp_double in *; lia).
        assert (H52 : 2 ^ 52 <= Zpos m1).
        { eapply Z.le_trans; [| exact (proj1 Hr)].
          subst q. apply Z.div_le_lower_bound; [apply Z.pow_pos_nonneg; lia|].
          rewrite <- Z.pow_add_r by lia.
          pose proof (digits_lower M) as HM.
          replace (u - E + 52) with (Zpos (digits2_pos M) - 1) by lia.
          assert (H2 : 2 ^ Zpos (digits2_pos M)
                       = 2 * 2 ^ (Zpos (digits2_pos M) - 1)).
          { rewrite <- Z.pow_succ_r by lia. f_equal. lia. }
          lia. }
        pose proof (digits_ge m1 52 ltac:(lia) H52). lia.
      * unfold Double.scaled. split; apply Z.mul_le_mono_nonneg_r; lia.
    + assert (H53 : Zpos m1 = 2 ^ 53).
      { destruct (Z_lt_le_dec (Zpos m1) (2 ^ 53)) as [Hlt|Hge]; [| lia].
        pose proof (digits_le m1 53 Hlt). lia. }
      assert (Hd54 : Zpos (digits2_pos m1) = 54).
      { pose proof (digits_le m1 54). pose proof (digits_ge m1 53).
        rewrite H53 in *. change (2 ^ 53 < 2 ^ 54) with (9007199254740992 < 18014398509481984) in *.
        lia. }
      rewrite Hd54.
      destruct (shr_pos {| shr_m := Zpos m1; shr_r := false; shr_s := false |}
                  u (fexp 53 1024 (54 + u) - u))
        as (mrs2 & Hshr2 & Hm2); [cbn; lia | rewrite fexp_double; lia |].
      rewrite Hshr2. cbn [shr_m] in Hm2.
      replace (fexp 53 1024 (54 + u) - u) with 1 in * by (rewrite fexp_double; lia).
      rewrite Hm2, H53. change (2 ^ 53 / 2 ^ 1) with (Zpos 4503599627370496).
      cbn beta iota.
      destruct (Z.leb_spec (u + 1) (1024 - 53)) as [Hle|Hgt]; [| exact I].
      split; [|split; [lia|]].
      * unfold canonical_mantissa. apply Z.eqb_eq. rewrite fexp_double.
        change (Zpos (digits2_pos 4503599627370496)) with 53. lia.
      * unfold Double.scaled.
        replace (Zpos 4503599627370496 * 2 ^ (u + 1 + 1200))
          with (2 ^ 53 * 2 ^ (u + 1200)).
        -- rewrite <- H53. split; apply Z.mul_le_mono_nonneg_r; lia.
        -- replace (u + 1 + 1200) with (u + 1200 + 1) by lia.
           rewrite (Z.pow_add_r 2 (u + 1200) 1) by lia. change (2 ^ 1) with 2.
           change (2 ^ 53) with (2 * Zpos 4503599627370496). lia.
Qed.

Lemma canonical_cases (m : positive) (e : Z) :
  canonical_mantissa 53 1024 m e = true ->
  -1074 <= e /\ Zpos (digits2_pos m) <= 53
  /\ (e = -1074 \/ Zpos (digits2_pos m) = 53).
Proof.
  unfold canonical_mantissa. intros H. apply Z.eqb_eq in H.
  rewrite fexp_double in H. lia.
Qed.

Lemma scaled_pos (m : positive) (e : Z) :
  -1074 <= e -> 0 < Double.scaled (Zpos m) e.
Proof.
  intros He. unfold Double.scaled. apply Z.mul_pos_pos; [lia|].
  apply Z.pow_pos_nonneg; lia.
Qed.

(** On canonical mantissas the comparison of the specification is the
    comparison of the values. *)
Lemma SFltb_scaled (m1 m2 : positive) (e1 e2 : Z) :
  canonical_mantissa 53 1024 m1 e1 = true ->
  canonical_mantissa 53 1024 m2 e2 = true ->
  Double.scaled (Zpos m1) e1 < Double.scaled (Zpos m2) e2 ->
  SFltb (S754_finite false m1 e1) (S754_finite false m2 e2) = true.
Proof.
  intros H1 H2 Hlt.
  apply canonical_cases in H1 as (He1 & Hd1 & Hc1).
  apply canonical_cases in H2 as (He2 & Hd2 & Hc2).
  unfold SFltb, SFcompare, Double.scaled in *.
  destruct (Z.compare_spec e1 e2) as [Heq|Hl|Hg].
  - subst e2. apply Z.mul_lt_mono_pos_r in Hlt; [| apply Z.pow_pos_nonneg; lia].
    change (Pos.compare_cont Eq m1 m2) with (Pos.compare m1 m2).
    now rewrite (proj2 (Pos.compare_lt_iff m1 m2)) by lia.
  - reflexivity.
  - exfalso.
    assert (Hm1 : 2 ^ 52 <= Zpos m1).
    { pose proof (digits_lower m1) as Hl. destruct Hc1 as [|Hc1]; [lia|].
      rewrite Hc1 in Hl. change (2 ^ 53) with (2 * 2 ^ 52) in Hl. lia. }
    assert (Hm2 : Zpos m2 < 2 ^ 53).
    { pose proof (digits_upper m2) as Hu. eapply Z.lt_le_trans; [exact Hu|].
      apply Z.pow_le_mono_r; lia. }
    assert (Hp2 : 0 < 2 ^ (e2 + 1200)) by (apply Z.pow_pos_nonneg; lia).
    assert (Hp : 2 * 2 ^ (e2 + 1200) <= 2 ^ (e1 + 1200)).
    { rewrite <- Z.pow_succ_r by lia. apply Z.pow_le_mono_r; lia. }
    assert (Ha : Zpos m2 * 2 ^ (e2 + 1200) < 2 ^ 53 * 2 ^ (e2 + 1200))
      by (apply Z.mul_lt_mono_pos_r; lia).
    assert (Hb : 2 ^ 52 * 2 ^ (e1 + 1200) <= Zpos m1 * 2 ^ (e1 + 1200))
      by (apply Z.mul_le_mono_nonneg_r; lia).
    change (2 ^ 53) with (2 ^ 52 * 2) in Ha.
    assert (Hc : 2 ^ 52 * (2 * 2 ^ (e2 + 1200)) <= 2 ^ 52 * 2 ^ (e1 + 1200))
      by (apply Z.mul_le_mono_nonneg_l; lia).
    lia.
Qed.

(** The product of a positive double by a small whole number [k], given
    as the double [c * 2^-s]: an infinity, or a double between [k - 1] and
    [k + 1] times the first. *)
Lemma mul_small (m c : positive) (e k s : Z) :
  canonical_mantissa 53 1024 m e = true ->
  Zpos c = k * 2 ^ s -> 0 <= s <= 52 -> 2 ^ 52 <= Zpos c -> 2 <= k <= 2 ^ 52 ->
  match SFmul 53 1024 (S754_finite false m e) (S754_finite false c (- s)) with
  | S754_finite false m' e' =>
      canonical_mantissa 53 1024 m' e' = true /\ e' <= 971
      /\ (k - 1) * Double.scaled (Zpos m) e < Double.scaled (Zpos m') e'
         <= (k + 1) * Double.scaled (Zpos m) e
  | S754_infinity false => True
  | _ => False
  end.
Proof.
  intros Hcan Hc Hs Hc52 Hk. cbn [SFmul xorb].
  apply canonical_cases in Hcan as (He & Hd & _).
  pose proof (scaled_pos m e He) as Hv. set (v := Double.scaled (Zpos m) e) in *.
  set (M := (m * c)%positive). set (E := e + - s).
  pose proof (binary_round_aux_bounds M E) as H. cbv zeta in H.
  set (u := fexp 53 1024 (Zpos (digits2_pos M) + E)) in *.
  set (q := Zpos M / 2 ^ (u - E)) in *.
  assert (HM : Zpos M = Zpos m * Zpos c) by reflexivity.
  assert (HM52 : 2 ^ 52 <= Zpos M) by nia.
  pose proof (digits_ge M 52 ltac:(lia) HM52) as HdM.
  assert (Hu : E <= u /\ -1074 <= u) by (subst u; rewrite fexp_double; lia).
  specialize (H (proj1 Hu)).
  assert (HpE : 0 < 2 ^ (E + 1200)) by (apply Z.pow_pos_nonneg; subst E; lia).
  assert (Hpn : 0 < 2 ^ (u - E)) by (apply Z.pow_pos_nonneg; lia).
  (* the exact product *)
  assert (HW : Double.scaled (Zpos M) E = k * v).
  { unfold Double.scaled, v, Double.scaled. rewrite HM, Hc. subst E.
    replace (e + 1200) with (s + (e + - s + 1200)) by lia.
    rewrite (Z.pow_add_r 2 s) by lia. ring. }
  (* the unit of the result *)
  assert (HU : Double.scaled 1 u = 2 ^ (u - E) * 2 ^ (E + 1200)).
  { unfold Double.scaled. rewrite <- Z.pow_add_r by (subst E; lia).
    rewrite Z.mul_1_l. f_equal. lia. }
  assert (Hq : Double.scaled q u <= Double.scaled (Zpos M) E < Double.scaled (q + 1) u).
  { assert (Hs1 : forall x, Double.scaled x u = x * Double.scaled 1 u)
      by (intros x; unfold Double.scaled; ring).
    rewrite (Hs1 q), (Hs1 (q + 1)), HU. unfold Double.scaled.
    pose proof (Z.mul_div_le (Zpos M) (2 ^ (u - E)) Hpn) as Hlo.
    pose proof (Z.mul_succ_div_gt (Zpos M) (2 ^ (u - E)) Hpn) as Hhi.
    fold q in Hlo, Hhi. split.
    - rewrite Z.mul_assoc. apply Z.mul_le_mono_nonneg_r; lia.
    - rewrite Z.mul_assoc. apply Z.mul_lt_mono_pos_r; lia. }
  assert (HUv : Double.scaled 1 u <= v).
  { destruct (Z.eq_dec u (-1074)) as [Hmin|Hmin].
    - unfold Double.scaled, v, Double.scaled. rewrite Hmin, Z.mul_1_l.
      assert (2 ^ (-1074 + 1200) <= 2 ^ (e + 1200))
        by (apply Z.pow_le_mono_r; lia).
      assert (0 < 2 ^ (e + 1200)) by (apply Z.pow_pos_nonneg; lia).
      nia.
    - assert (Hue : u - E = Zpos (digits2_pos M) - 53)
        by (subst u; rewrite fexp_double in *; lia).
      pose proof (digits_lower M) as HdlM.
      assert (H2 : 2 ^ Zpos (digits2_pos M) = 2 ^ 53 * 2 ^ (u - E)).
      { rewrite <- Z.pow_add_r by lia. f_equal. lia. }
      assert (H3 : 2 ^ 53 * Double.scaled 1 u <= 2 * (k * v)).
      { rewrite HU, <- HW. unfold Double.scaled. rewrite Z.mul_assoc, <- H2.
        rewrite Z.mul_assoc. apply Z.mul_le_mono_nonneg_r; lia. }
      assert (H4 : 2 * (k * v) <= 2 ^ 53 * v).
      { change (2 ^ 53) with (2 * 2 ^ 52). nia. }
      assert (0 < 2 ^ 53) by reflexivity.
      nia. }
  assert (Hs2 : Double.scaled (q + 1) u = Double.scaled q u + Double.scaled 1 u)
    by (unfold Double.scaled; ring).
  assert (Hq0 : q = 0 -> Double.scaled q u = 0) by (intros ->; reflexivity).
  rewrite HW, Hs2 in Hq.
  assert (Hkv : 2 * v <= k * v) by nia.
  assert (Hk1 : (k - 1) * v = k * v - v /\ (k + 1) * v = k * v + v) by (split; ring).
  destruct Hk1 as [-> ->]. rewrite Hs2 in H.
  clearbody v q u. clear HW HU Hs2.
  set (W := k * v) in *. clearbody W.
  destruct (binary_round_aux 53 1024 false (Zpos M) E loc_Exact)
    as [[|]|[|]| |[|] m' e']; try exact H; try exact I.
  - specialize (Hq0 H). lia.
  - destruct H as (Hcan' & He' & Hlo & Hhi).
    split; [exact Hcan'|]. split; [exact He'|]. lia.
Qed.

End Doubles.

Section TiersInDoubles.

Lemma addToken_thresholds_ordered (t : Double.number) :
  Double.valid t = true ->
  Double.ltb (Double.ofZ 0) t = true ->
  Double.isFinite (Double.mul t (Double.ofZ 3)) = true ->
  Spec.ordered64 (PriceWatcher.addToken_thresholds t) = true.
Proof.
  intros Hvalid Hpos Hfin. unfold Spec.ordered64.
  cbn [PriceWatcher.addToken_thresholds PriceWatcher.minor64
       PriceWatcher.major64 PriceWatcher.critical64].
  rewrite Hpos. cbn [andb].
  destruct t as [s|s| |s m e]; try discriminate Hpos.
  - destruct s; discriminate.
  - destruct s; [discriminate Hpos|].
    unfold Double.valid in Hvalid. cbn [valid_binary] in Hvalid.
    unfold bounded in Hvalid. apply andb_prop in Hvalid as [Hcan He].
    pose proof (mul_small m 6755399441055744 e 3 51 Hcan
                  ltac:(reflexivity) ltac:(lia) ltac:(vm_compute; discriminate)
                  ltac:(split; [lia | vm_compute; discriminate])) as H3.
    pose proof (mul_small m 5629499534213120 e 5 50 Hcan
                  ltac:(reflexivity) ltac:(lia) ltac:(vm_compute; discriminate)
                  ltac:(split; [lia | vm_compute; discriminate])) as H5.
    change (S754_finite false 6755399441055744 (- (51)%Z)) with (Double.ofZ 3) in H3.
    change (S754_finite false 5629499534213120 (- (50)%Z)) with (Double.ofZ 5) in H5.
    change (SFmul 53 1024) with Double.mul in *.
    pose proof (canonical_cases m e Hcan) as (Hemin & _).
    pose proof (scaled_pos m e Hemin) as Hv.
    destruct (Double.mul (S754_finite false m e) (Double.ofZ 3))
      as [[|]|[|]| |[|] m3 e3]; try contradiction; try discriminate Hfin.
    destruct H3 as (Hcan3 & _ & Hlo3 & Hhi3).
    unfold Double.ltb. rewrite (SFltb_scaled m m3 e e3 Hcan Hcan3) by lia.
    cbn [andb].
    destruct (Double.mul (S754_finite false m e) (Double.ofZ 5))
      as [[|]|[|]| |[|] m5 e5]; try contradiction.
    + reflexivity.
    + destruct H5 as (Hcan5 & _ & Hlo5 & Hhi5).
      apply SFltb_scaled; [assumption | assumption | lia].
Qed.

(** Nothing is above [Infinity]. *)
Lemma ltb_infinity (x : Double.number) :
  Double.ltb (S754_infinity false) x = false.
Proof. now destruct x as [[|]|[|]| |[|] m e]. Qed.

(** The triple of a positive double is a positive double or [Infinity]. *)
Lemma triple_infinite (t : Double.number) :
  Double.valid t = true ->
  Double.ltb (Double.ofZ 0) t = true ->
  Double.isFinite (Double.mul t (Double.ofZ 3)) = false ->
  Double.mul t (Double.ofZ 3) = S754_infinity false.
Proof.
  intros Hvalid Hpos Hinf.
  destruct t as [s|s| |s m e]; try discriminate Hpos.
  - destruct s; [discriminate Hpos | reflexivity].
  - destruct s; [discriminate Hpos|].
    unfold Double.valid in Hvalid. cbn [valid_binary] in Hvalid.
    unfold bounded in Hvalid. apply andb_prop in Hvalid as [Hcan He].
    pose proof (mul_small m 6755399441055744 e 3 51 Hcan
                  ltac:(reflexivity) ltac:(lia) ltac:(vm_compute; discriminate)
                  ltac:(split; [lia | vm_compute; discriminate])) as H3.
    change (S754_finite false 6755399441055744 (- (51)%Z)) with (Double.ofZ 3) in H3.
    change (SFmul 53 1024) with Double.mul in *.
    destruct (Double.mul (S754_finite false m e) (Double.ofZ 3))
      as [[|]|[|]| |[|] m3 e3]; try contradiction; try discriminate Hinf.
    reflexivity.
Qed.

End TiersInDoubles.

(** C10, as stated, fails: the multiplications of [addToken] are
    multiplications of doubles, and for the threshold 1e308 both
    [priceChangeThreshold * 3] and [priceChangeThreshold * 5] are
    [Infinity], so that [major < critical] is false. *)
Example C10_tiers_unordered_at_overflow :
  Double.valid Sample.t1e308 = true
  /\ Double.ltb (Double.ofZ 0) Sample.t1e308 = true
  /\ PriceWatcher.major64 (PriceWatcher.addToken_thresholds Sample.t1e308)
     = S754_infinity false
  /\ PriceWatcher.critical64 (PriceWatcher.addToken_thresholds Sample.t1e308)
     = S754_infinity false
  /\ Spec.ordered64 (PriceWatcher.addToken_thresholds Sample.t1e308) = false.
Proof. repeat split; vm_compute; reflexivity. Qed.

(** C10, amended. For every double [t > 0] the tiers [addToken]
    computes, [t], [t * 3] and [t * 5], satisfy [0 < minor < major < critical]
    with the comparison of the source exactly when the triple [t * 3] is
    finite (a [t] below about 5.99e307; [t * 5] may be [Infinity] there).
    [addToken] checks none of this. The tracked token in memory and the row
    of [watched_tokens] hold the same three tiers. *)
Theorem C10_addToken_tiers_ordered_iff_finite (t : Double.number) :
  Double.valid t = true ->
  Double.ltb (Double.ofZ 0) t = true ->
  Spec.ordered64 (PriceWatcher.addToken_thresholds t)
  = Double.isFinite (Double.mul t (Double.ofZ 3))
  /\ (forall tokenContract tokenName (p checkInterval : Q) w e stats q,
        PriceWatcher.trackedTokens w !! tokenContract = None ->
        AgentsApi.statsQueue (Env.api e) = AgentsApi.Ok stats :: q ->
        let r := PriceWatcher.addToken tokenContract tokenName p
                   checkInterval w e in
        r.1 = AgentsApi.Ok tt
        /\ exists token row,
             PriceWatcher.trackedTokens r.2.1 !! tokenContract = Some token
             /\ Database.watched_tokens (Env.db r.2.2) !! tokenContract
                = Some row
             /\ Spec.ofRow row = Spec.ofToken (PriceWatcher.config token)).
Proof.
  intros Hvalid Hpos. split.
  - destruct (Double.isFinite (Double.mul t (Double.ofZ 3))) eqn:Hfin.
    + now apply addToken_thresholds_ordered.
    + unfold Spec.ordered64.
      cbn [PriceWatcher.addToken_thresholds PriceWatcher.minor64
           PriceWatcher.major64 PriceWatcher.critical64].
      rewrite (triple_infinite t Hvalid Hpos Hfin), ltb_infinity.
      apply andb_false_r.
  - intros tokenContract tokenName p checkInterval w e stats q Hnone Hq r.
    destruct (addToken_stores_tiers tokenContract tokenName p checkInterval
                w e stats q Hnone Hq)
      as (Hok & (token & Htk & Htiers) & (row & Hrow & Hrtiers)).
    split; [exact Hok|]. exists token, row.
    split; [exact Htk|]. split; [exact Hrow|]. congruence.
Qed.

Lemma C10_addToken_tiers_ordered_iff_finite_witness :
  Spec.ordered64 (PriceWatcher.addToken_thresholds (Double.ofZ 2)) = true.
Proof.
  refine (eq_trans (proj1
    (C10_addToken_tiers_ordered_iff_finite (Double.ofZ 2) _ _)) _);
    vm_compute; reflexivity.
Defined.

(** ** Updating the configuration of a token *)




(** ** The history of prices *)

Section History.

Local Abbreviation ranked tc rows :=
  (merge_sort Database.newerFirst (Database.partitionOf tc rows)).

#[local] Instance newerFirst_trans : Transitive Database.newerFirst.
Proof. unfold Database.newerFirst. intros x y z ? ?. lia. Qed.

#[local] Instance newerFirst_total : Total Database.newerFirst.
Proof. unfold Database.newerFirst. intros x y. lia. Qed.

Lemma ranked_elem (tc : string) (rows : list Database.PriceHistoryRecord)
    (r : Database.PriceHistoryRecord) :
  r ∈ ranked tc rows <-> r ∈ rows /\ Database.ph_tokenContract r = tc.
Proof.
  rewrite merge_sort_Permutation. unfold Database.partitionOf.
  rewrite list_elem_of_filter. tauto.
Qed.

Lemma keptIds_elem (keep : nat) (rows : list Database.PriceHistoryRecord)
    (i : nat) :
  i ∈ Database.keptIds keep rows <->
  exists tc r, r ∈ take keep (ranked tc rows) /\ Database.ph_id r = i.
Proof.
  unfold Database.keptIds, Database.rowNumbers. rewrite list_elem_of_fmap. split.
  - intros [[i' rn] [-> H]]. apply list_elem_of_filter in H as [Hrn H].
    apply list_elem_of_bind in H as [tc [H _]].
    apply elem_of_lookup_imap in H as (p & r & Heq & Hp).
    injection Heq as -> ->. exists tc, r. split; [| reflexivity].
    apply elem_of_take. exists p. split; [exact Hp | cbn in Hrn; lia].
  - intros (tc & r & Hr & <-). apply elem_of_take in Hr as (p & Hp & Hlt).
    exists (Database.ph_id r, S p). split; [reflexivity|].
    apply list_elem_of_filter. split; [cbn; lia|].
    apply list_elem_of_bind. exists tc. split.
    + apply elem_of_lookup_imap. exists p, r. auto.
    + apply list_elem_of_lookup_2, ranked_elem in Hp as [Hin <-].
      apply elem_of_remove_dups, list_elem_of_fmap. exists r. auto.
Qed.

Lemma same_id (rows : list Database.PriceHistoryRecord)
    (r r' : Database.PriceHistoryRecord) :
  NoDup (Database.ph_id <$> rows) -> r ∈ rows -> r' ∈ rows ->
  Database.ph_id r = Database.ph_id r' -> r = r'.
Proof.
  induction rows as [|x l IH]; intros Hnd Hr Hr' Hid; [inversion Hr|].
  cbn in Hnd. apply NoDup_cons in Hnd as [Hx Hnd].
  apply elem_of_cons in Hr as [->|Hr]; apply elem_of_cons in Hr' as [->|Hr'].
  - reflexivity.
  - exfalso. apply Hx. rewrite Hid. apply list_elem_of_fmap. eauto.
  - exfalso. apply Hx. rewrite <- Hid. apply list_elem_of_fmap. eauto.
  - now apply IH.
Qed.

(** Under unique ids, [id NOT IN (...)] deletes the rows that are not among
    the first [keep] of their own window. *)
Lemma kept_iff (keep : nat) (rows : list Database.PriceHistoryRecord)
    (r : Database.PriceHistoryRecord) :
  NoDup (Database.ph_id <$> rows) -> r ∈ rows ->
  (Database.ph_id r ∈ Database.keptIds keep rows <->
   r ∈ take keep (ranked (Database.ph_tokenContract r) rows)).
Proof.
  intros Hnd Hr. rewrite keptIds_elem. split.
  - intros (tc & r' & Hr' & Hid).
    assert (Hin : r' ∈ ranked tc rows).
    { apply elem_of_take in Hr' as (p & Hp & _).
      now apply list_elem_of_lookup_2 in Hp. }
    apply ranked_elem in Hin as [Hin Htc].
    assert (r' = r) as -> by now apply (same_id rows).
    now rewrite Htc.
  - intros H. eauto.
Qed.

Lemma deleteOld_elem (keep : nat) (rows : list Database.PriceHistoryRecord)
    (r : Database.PriceHistoryRecord) :
  r ∈ Database.deleteOld keep rows <->
  Database.ph_id r ∈ Database.keptIds keep rows /\ r ∈ rows.
Proof. unfold Database.deleteOld. now rewrite list_elem_of_filter. Qed.

Lemma deleteOld_sublist (keep : nat) (rows : list Database.PriceHistoryRecord) :
  Database.deleteOld keep rows `sublist_of` rows.
Proof. unfold Database.deleteOld. apply sublist_filter. Qed.

(** At most [keep] rows of a token are left. *)
Lemma deleteOld_bound (keep : nat) (rows : list Database.PriceHistoryRecord)
    (tc : string) :
  NoDup (Database.ph_id <$> rows) ->
  (length (Database.partitionOf tc (Database.deleteOld keep rows)) <= keep)%nat.
Proof.
  intros Hnd.
  transitivity (length (take keep (ranked tc rows))); [| rewrite length_take; lia].
  apply submseteq_length, NoDup_submseteq.
  - unfold Database.partitionOf, Database.deleteOld.
    apply NoDup_filter, NoDup_filter. now apply (NoDup_fmap_1 Database.ph_id).
  - intros r Hr. apply list_elem_of_filter in Hr as [<- Hr].
    apply deleteOld_elem in Hr as [Hk Hr]. now apply kept_iff in Hk.
Qed.

(** The rows left are the newest of their token. *)
Lemma deleteOld_newest (keep : nat) (rows : list Database.PriceHistoryRecord)
    (r r2 : Database.PriceHistoryRecord) :
  NoDup (Database.ph_id <$> rows) ->
  r ∈ Database.deleteOld keep rows ->
  r2 ∈ rows -> r2 ∉ Database.deleteOld keep rows ->
  Database.ph_tokenContract r = Database.ph_tokenContract r2 ->
  (Database.ph_timestamp r2 <= Database.ph_timestamp r)%Z.
Proof.
  intros Hnd Hr Hr2 Hout Htc.
  apply deleteOld_elem in Hr as [Hk Hr]. apply kept_iff in Hk; [| done | done].
  assert (Hin2 : r2 ∈ ranked (Database.ph_tokenContract r) rows)
    by (apply ranked_elem; auto).
  rewrite <- (take_drop keep (ranked _ rows)) in Hin2.
  apply elem_of_app in Hin2 as [Hin2|Hin2].
  - exfalso. apply Hout, deleteOld_elem. split; [| exact Hr2].
    apply kept_iff; [done | done |]. now rewrite <- Htc.
  - pose proof (StronglySorted_merge_sort Database.newerFirst
                  (Database.partitionOf (Database.ph_tokenContract r) rows)) as Hs.
    rewrite <- (take_drop keep (ranked _ rows)) in Hs.
    exact (StronglySorted_app_1_elem_of _ _ _ _ _ Hs Hk Hin2).
Qed.

(** A token with no more than [keep] rows loses none. *)
Lemma deleteOld_within (keep : nat) (rows : list Database.PriceHistoryRecord)
    (tc : string) :
  (length (Database.partitionOf tc rows) <= keep)%nat ->
  Database.partitionOf tc (Database.deleteOld keep rows)
  = Database.partitionOf tc rows.
Proof.
  intros Hlen.
  assert (Hall : forall r, r ∈ rows -> Database.ph_tokenContract r = tc ->
                           Database.ph_id r ∈ Database.keptIds keep rows).
  { intros r Hr Htc. apply keptIds_elem. exists tc, r. split; [| reflexivity].
    rewrite take_ge.
    - apply ranked_elem. auto.
    - now rewrite merge_sort_Permutation. }
  unfold Database.deleteOld, Database.partitionOf.
  generalize (Database.keptIds keep rows) Hall. clear. intros ids.
  induction rows as [|x l IH]; intros Hall; [reflexivity|].
  assert (Hl : forall r, r ∈ l -> Database.ph_tokenContract r = tc ->
                         Database.ph_id r ∈ ids)
    by (intros r Hr; apply Hall; now right).
  rewrite (filter_cons (fun r => Database.ph_tokenContract r = tc)).
  rewrite (filter_cons (fun r => Database.ph_id r ∈ ids)).
  destruct (decide (Database.ph_tokenContract x = tc)) as [Hx|Hx].
  - rewrite decide_True by (apply Hall; [left | exact Hx]).
    rewrite filter_cons, decide_True by exact Hx. f_equal. now apply IH.
  - destruct (decide (Database.ph_id x ∈ ids)).
    + rewrite filter_cons, decide_False by exact Hx. now apply IH.
    + now apply IH.
Qed.

Example deleteOld_history :
  Database.rowNumbers Sample.history
  = [(3, 1); (6, 2); (1, 3); (4, 4); (5, 1); (2, 2); (7, 3)]%nat
  /\ Database.ph_id <$> Database.deleteOld 2 Sample.history = [2; 3; 5; 6]%nat.
Proof. split; vm_compute; reflexivity. Qed.

End History.

Section HistoryGrows.

Lemma wf_empty : Database.wf Database.empty.
Proof. split; constructor. Qed.

Lemma addPriceHistory_wf (tokenContract tokenName : string) (p : Q)
    (time : Z) (db : Database.t) :
  Database.wf db ->
  Database.wf (Database.addPriceHistory tokenContract tokenName p time db).
Proof.
  intros [Hnd Hle]. split; cbn.
  - rewrite fmap_app. apply NoDup_app. split; [exact Hnd|]. split.
    + intros i Hi Hi'. apply list_elem_of_singleton in Hi'. subst i.
      apply list_elem_of_fmap in Hi as (r & Hid & Hr).
      rewrite Forall_forall in Hle. specialize (Hle r Hr). cbn in Hle, Hid. lia.
    + apply NoDup_singleton.
  - apply Forall_app. split.
    + eapply Forall_impl; [exact Hle|]. cbn. intros; lia.
    + repeat constructor.
Qed.

Lemma cleanOldPriceHistory_wf (db : Database.t) :
  Database.wf db -> Database.wf (Database.cleanOldPriceHistory db).
Proof.
  intros [Hnd Hle]. split; cbn.
  - eapply sublist_NoDup; [exact Hnd|].
    apply fmap_sublist, deleteOld_sublist.
  - rewrite Forall_forall in *. intros r Hr. apply Hle.
    eapply elem_of_sublist; [exact Hr | apply deleteOld_sublist].
Qed.

(** A cycle of the token watcher appends at most one row to the history
    and removes none. *)
Lemma checkTokenPrice_history (tokenContract : string) (w : PriceWatcher.t)
    (e : Env.t) :
  let db' := Env.db (PriceWatcher.checkTokenPrice tokenContract w e).2 in
  (exists l, Database.price_history db' = Database.price_history (Env.db e) ++ l
             /\ (length l <= 1)%nat)
  /\ (Database.wf (Env.db e) -> Database.wf db').
Proof.
  unfold PriceWatcher.checkTokenPrice.
  destruct (PriceWatcher.trackedTokens w !! tokenContract) as [token|];
    [| split; [exists []; rewrite app_nil_r; auto | auto]].
  destruct (AgentsApi.getAgentStats tokenContract (Env.api e)) as [[stats|err] api'];
    [| split; [exists []; rewrite app_nil_r; auto | auto]].
  destruct (Num.eqb _ 0);
    [split; [exists []; rewrite app_nil_r; auto | auto] |].
  cbn. split.
  - eexists [_]. split; [reflexivity | cbn; lia].
  - intros Hwf.
    exact (addPriceHistory_wf tokenContract _ _ _ _ Hwf).
Qed.

(** So does a cycle of the IQ watcher. *)
Lemma checkIQPrice_history (w : IQPriceWatcher.t) (e : Env.t) :
  let db' := Env.db (IQPriceWatcher.checkIQPrice w e).2 in
  exists l, Database.price_history db' = Database.price_history (Env.db e) ++ l
            /\ (length l <= 1)%nat.
Proof.
  unfold IQPriceWatcher.checkIQPrice.
  destruct (AgentsApi.getPrices (Env.api e)) as [[prices|err] api'];
    [| exists []; rewrite app_nil_r; auto].
  destruct (Num.gtb _ 0); [| eexists [_]; split; [reflexivity | cbn; lia]].
  destruct (Num.eqb _ 0); [exists []; rewrite app_nil_r; auto |].
  destruct (_ && _); eexists [_]; (split; [reflexivity | cbn; lia]).
Qed.

End HistoryGrows.

(** C7, as stated, fails: 1001 cycles of the token watcher, the price
    moving at each, leave 1001 rows of the token in [price_history]; no
    cycle prunes. *)
Lemma C7_history_exceeds_bound :
  length
    (Database.partitionOf "0xA1"
       (Database.price_history
          (Env.db
             (PriceWatcher.cycles 1001 "0xA1" (Sample.watcher 100)
                (Sample.env 100 (Sample.sawtooth 1001 true) [] [])).2)))
  = 1001%nat.
Proof. vm_compute. reflexivity. Qed.

Lemma cycles_wf (n : nat) (tokenContract : string) (w : PriceWatcher.t)
    (e : Env.t) :
  Database.wf (Env.db e) ->
  Database.wf (Env.db (PriceWatcher.cycles n tokenContract w e).2).
Proof.
  intros Hwf. induction n as [|n IH]; [exact Hwf|]. cbn.
  destruct (PriceWatcher.cycles n tokenContract w e) as [w1 e1].
  now apply checkTokenPrice_history.
Qed.

(** C7, amended. Pruning is a maintenance operation of the database, run
    only when [cleanOldPriceHistory] is called. On a table whose ids are
    unique it leaves at most 1000 rows of each token, all of them rows of
    the table, none older than a row of the same token that it deletes, and
    it deletes no row of a token that has at most 1000. A cycle of the token
    watcher or of the IQ watcher appends at most one row and deletes
    none. *)
Theorem C7_pruning_keeps_newest_1000 (db : Database.t) (tc : string) :
  Database.wf db ->
  let rows := Database.price_history db in
  let rows' := Database.price_history (Database.cleanOldPriceHistory db) in
  (length (Database.partitionOf tc rows') <= 1000)%nat
  /\ rows' `sublist_of` rows
  /\ (forall r r2,
        r ∈ rows' -> r2 ∈ rows -> r2 ∉ rows' ->
        Database.ph_tokenContract r = Database.ph_tokenContract r2 ->
        (Database.ph_timestamp r2 <= Database.ph_timestamp r)%Z)
  /\ ((length (Database.partitionOf tc rows) <= 1000)%nat ->
      Database.partitionOf tc rows' = Database.partitionOf tc rows)
  /\ Database.wf (Database.cleanOldPriceHistory db)
  /\ (forall tokenContract w e, exists l,
        Database.price_history
          (Env.db (PriceWatcher.checkTokenPrice tokenContract w e).2)
        = Database.price_history (Env.db e) ++ l
        /\ (length l <= 1)%nat)
  /\ (forall w e, exists l,
        Database.price_history (Env.db (IQPriceWatcher.checkIQPrice w e).2)
        = Database.price_history (Env.db e) ++ l
        /\ (length l <= 1)%nat).
Proof.
  intros Hwf rows rows'. pose proof Hwf as [Hnd _]. subst rows rows'. cbn.
  split; [now apply deleteOld_bound|].
  split; [apply deleteOld_sublist|].
  split; [intros r r2; now apply deleteOld_newest|].
  split; [apply deleteOld_within|].
  split; [now apply cleanOldPriceHistory_wf|].
  split.
  - intros tokenContract w e. apply checkTokenPrice_history.
  - apply checkIQPrice_history.
Qed.

Lemma C7_pruning_keeps_newest_1000_witness :
  (length
     (Database.partitionOf "0xA1"
        (Database.price_history
           (Database.cleanOldPriceHistory
              (Env.db
                 (PriceWatcher.cycles 1001 "0xA1" (Sample.watcher 100)
                    (Sample.env 100 (Sample.sawtooth 1001 true) [] [])).2))))
   <= 1000)%nat.
Proof.
  refine (proj1
    (C7_pruning_keeps_newest_1000
       (Env.db
          (PriceWatcher.cycles 1001 "0xA1" (Sample.watcher 100)
             (Sample.env 100 (Sample.sawtooth 1001 true) [] [])).2)
       "0xA1" _)).
  apply cycles_wf. split; vm_compute; constructor.
Defined.

(** * Further properties of the code *)

(** ** The numeric helpers of [AgentsApiService] *)

Section Helpers.

Lemma Qabs_zero_iff (x : Q) : Qabs x == 0 <-> x == 0.
Proof.
  split.
  - apply Qabs_case; intros Hx H; lra.
  - intros H. rewrite H. reflexivity.
Qed.

Lemma percentage_as_product (old new : Q) :
  ~ old == 0 ->
  AgentsApi.calculatePercentageChange old new
  == (new - old) * (100 / old).
Proof.
  intros Hne. unfold AgentsApi.calculatePercentageChange.
  destruct (Num.eqb old 0) eqn:E.
  - apply eqb_true in E. contradiction.
  - field. exact Hne.
Qed.

End Helpers.

(** X1. For a positive old value the percentage change has the sign of the
    move: positive exactly when the new value is above the old one, zero
    exactly when they are equal, negative exactly when it is below; and the
    test [Math.abs(changePercentage) === 0] of the cycles holds exactly when
    the value has not moved. *)
Theorem X1_percentage_sign (old new : Q) :
  0 < old ->
  let pct := AgentsApi.calculatePercentageChange old new in
  (0 < pct <-> old < new)
  /\ (pct == 0 <-> new == old)
  /\ (pct < 0 <-> new < old)
  /\ (Num.eqb (Num.Math_abs pct) 0 = true <-> new == old).
Proof.
  intros Hold pct.
  assert (Hne : ~ old == 0) by lra.
  pose proof (percentage_as_product old new Hne) as Hp. fold pct in Hp.
  assert (Hk : 0 < 100 / old).
  { apply Qlt_shift_div_l; [exact Hold | lra]. }
  set (k := 100 / old) in *.
  assert (H0 : pct == 0 <-> new == old).
  { rewrite Hp. split; intros H.
    - apply Qmult_integral in H as [H|H]; lra.
    - rewrite H. ring. }
  split; [| split; [exact H0 | split]].
  - rewrite Hp. split; intros H.
    + destruct (Qlt_le_dec old new) as [|Hle]; [assumption|].
      assert ((new - old) * k <= 0) by nra. lra.
    + apply Qmult_lt_0_compat; lra.
  - rewrite Hp. split; intros H.
    + destruct (Qlt_le_dec new old) as [|Hle]; [assumption|].
      assert (0 <= (new - old) * k) by (apply Qmult_le_0_compat; lra). lra.
    + assert (0 < (old - new) * k) by (apply Qmult_lt_0_compat; lra). lra.
  - unfold Num.Math_abs. rewrite eqb_true, Qabs_zero_iff. exact H0.
Qed.

Lemma X1_percentage_sign_witness :
  0 < AgentsApi.calculatePercentageChange 100 121.
Proof.
  refine (proj2 (proj1 (X1_percentage_sign 100 121 _)) _); reflexivity.
Defined.

(** ** More on the classification *)

(** X3. The classification is monotone in the magnitude of the change,
    whatever the configuration: of two changes, the one with the larger
    magnitude never gets the lower tier, in the token watcher and in the IQ
    watcher. *)
Theorem X3_classification_monotone
    (cfg : PriceWatcher.TokenWatchConfig) (iq : IQPriceWatcher.IQWatcherConfig)
    (c1 c2 p1 p2 : Q) :
  Qabs p1 <= Qabs p2 ->
  (Spec.rankOf (Spec.tokenTier (PriceWatcher.classify cfg p1))
   <= Spec.rankOf (Spec.tokenTier (PriceWatcher.classify cfg p2)))%nat
  /\ (Spec.rankOf (Spec.iqTier (IQPriceWatcher.classify iq c1 p1))
      <= Spec.rankOf (Spec.iqTier (IQPriceWatcher.classify iq c2 p2)))%nat.
Proof.
  intros Hle.
  pose proof (token_classify_cases cfg p1) as A1.
  pose proof (token_classify_cases cfg p2) as A2.
  pose proof (iq_classify_cases iq c1 p1) as B1.
  pose proof (iq_classify_cases iq c2 p2) as B2.
  cbv zeta in A1, A2, B1, B2. split.
  - destruct (Spec.tokenTier (PriceWatcher.classify cfg p1)) as [[| |]|],
      (Spec.tokenTier (PriceWatcher.classify cfg p2)) as [[| |]|];
      cbn; try lia; exfalso; lra.
  - destruct (Spec.iqTier (IQPriceWatcher.classify iq c1 p1)) as [[| |]|],
      (Spec.iqTier (IQPriceWatcher.classify iq c2 p2)) as [[| |]|];
      cbn; try lia; exfalso; lra.
Qed.

Lemma X3_classification_monotone_witness :
  (Spec.rankOf (Spec.tokenTier (PriceWatcher.classify Sample.config 3))
   <= Spec.rankOf (Spec.tokenTier (PriceWatcher.classify Sample.config (-12))))%nat.
Proof.
  refine (proj1 (X3_classification_monotone Sample.config Sample.iqConfig
                   0 0 3 (-12) _)).
  vm_compute. discriminate.
Defined.

(** ** What a cycle of the token watcher does *)

Section TokenCycle.

Lemma percentage_zero_of_equal (old new : Q) :
  new == old ->
  Num.eqb (Num.Math_abs (AgentsApi.calculatePercentageChange old new)) 0 = true.
Proof.
  intros Heq. unfold AgentsApi.calculatePercentageChange, Num.Math_abs.
  destruct (Num.eqb old 0) eqn:E; [reflexivity|].
  apply eqb_true, Qabs_zero_iff. rewrite Heq. field.
  intros H. apply eqb_true in H. congruence.
Qed.

Lemma percentage_nonzero_of_moved (old new : Q) :
  ~ old == 0 -> ~ new == old ->
  Num.eqb (Num.Math_abs (AgentsApi.calculatePercentageChange old new)) 0 = false.
Proof.
  intros Hold Hne.
  destruct (Num.eqb _ 0) eqn:E; [| reflexivity]. exfalso.
  apply eqb_true in E. unfold Num.Math_abs in E.
  apply (proj1 (Qabs_zero_iff _)) in E.
  rewrite (percentage_as_product old new Hold) in E.
  apply Qmult_integral in E as [E|E]; [apply Hne; lra |].
  assert (H100 : 100 / old * old == 100) by (field; exact Hold).
  rewrite E in H100. lra.
Qed.

(** The flag a classification reads is the flag of its tier. *)
Lemma classify_shouldAlert (cfg : PriceWatcher.TokenWatchConfig) (pct : Q) :
  let c := PriceWatcher.classify cfg pct in
  match Spec.tokenTier c with
  | Some t =>
    PriceWatcher.shouldAlert c = Spec.enabled cfg t
    /\ PriceWatcher.threshold c = Spec.thresholdOf (Spec.ofToken cfg) t
  | None => PriceWatcher.shouldAlert c = false
  end.
Proof.
  unfold PriceWatcher.classify, Spec.tokenTier.
  destruct (Num.geb _ (PriceWatcher.critical _)); [now split|].
  destruct (Num.geb _ (PriceWatcher.major _)); [now split|].
  destruct (Num.geb _ (PriceWatcher.minor _)); [now split|].
  reflexivity.
Qed.

End TokenCycle.

(** X4. A sample equal to the last value is skipped: the cycle of the
    token watcher, and the cycle of the IQ watcher once it has a last
    price, return before they write anything. Watcher and database are
    left as they were, the last check time included, and no history row is
    added; only the request has gone to the API. *)
Theorem X4_unchanged_sample_is_skipped (tokenContract : string)
    (w : PriceWatcher.t) (iw : IQPriceWatcher.t) (e : Env.t)
    (token : PriceWatcher.TrackedToken) (stats : AgentsApi.AgentStats)
    (prices : AgentsApi.PricesResponse)
    (q : list (AgentsApi.Result AgentsApi.AgentStats))
    (q' : list (AgentsApi.Result AgentsApi.PricesResponse)) :
  PriceWatcher.trackedTokens w !! tokenContract = Some token ->
  AgentsApi.statsQueue (Env.api e) = AgentsApi.Ok stats :: q ->
  AgentsApi.currentPriceInUSD stats == PriceWatcher.lastPrice token ->
  AgentsApi.pricesQueue (Env.api e) = AgentsApi.Ok prices :: q' ->
  0 < IQPriceWatcher.lastKnownPrice iw ->
  AgentsApi.everipedia_usd prices == IQPriceWatcher.lastKnownPrice iw ->
  PriceWatcher.checkTokenPrice tokenContract w e
  = (w, Env.set_api (AgentsApi.getAgentStats tokenContract (Env.api e)).2 e)
  /\ IQPriceWatcher.checkIQPrice iw e
     = (iw, Env.set_api (AgentsApi.getPrices (Env.api e)).2 e).
Proof.
  intros Htk Hq Hsame Hq' Hpos Hsame'. split.
  - unfold PriceWatcher.checkTokenPrice, AgentsApi.getAgentStats.
    rewrite Htk, Hq. cbn [AgentsApi.next fst snd].
    now rewrite (percentage_zero_of_equal _ _ Hsame).
  - unfold IQPriceWatcher.checkIQPrice, AgentsApi.getPrices.
    rewrite Hq'. cbn [AgentsApi.next fst snd].
    apply gtb_true in Hpos. rewrite Hpos.
    now rewrite (percentage_zero_of_equal _ _ Hsame').
Qed.

Lemma X4_unchanged_sample_is_skipped_witness :
  (PriceWatcher.checkTokenPrice "0xA1" (Sample.watcher 100)
     (Sample.env 100 [100] [100] [])).1
  = Sample.watcher 100.
Proof.
  refine (f_equal fst (proj1
    (X4_unchanged_sample_is_skipped "0xA1" (Sample.watcher 100)
       (Sample.iqWatcher 100) (Sample.env 100 [100] [100] [])
       (Sample.token 100) _ _ [] [] _ eq_refl _ eq_refl _ _)));
    reflexivity.
Defined.

(** X5. A sample that differs from a last price other than 0 always moves
    the state on, whatever the alert flags: the tracked token takes the
    sample as its last price and the instant as its last check time, one
    history row with the sample is appended, and the row of the token gets
    the same price and time and keeps its other columns. The events gain an
    alert exactly when the change reaches a tier whose flag is on and whose
    threshold is positive; a tier switched off is silent. *)
Theorem X5_changed_sample_moves_on (tokenContract : string)
    (w : PriceWatcher.t) (e : Env.t) (token : PriceWatcher.TrackedToken)
    (stats : AgentsApi.AgentStats)
    (q : list (AgentsApi.Result AgentsApi.AgentStats)) :
  PriceWatcher.trackedTokens w !! tokenContract = Some token ->
  AgentsApi.statsQueue (Env.api e) = AgentsApi.Ok stats :: q ->
  ~ PriceWatcher.lastPrice token == 0 ->
  ~ AgentsApi.currentPriceInUSD stats == PriceWatcher.lastPrice token ->
  let cur := AgentsApi.currentPriceInUSD stats in
  let c := PriceWatcher.classify (PriceWatcher.config token)
             (AgentsApi.calculatePercentageChange
                (PriceWatcher.lastPrice token) cur) in
  let r := PriceWatcher.checkTokenPrice tokenContract w e in
  PriceWatcher.trackedTokens r.1
  = <[tokenContract := PriceWatcher.set_lastPrice cur (Env.now e) token]>
      (PriceWatcher.trackedTokens w)
  /\ Database.price_history (Env.db r.2)
     = Database.price_history (Env.db e)
       ++ [{| Database.ph_id := S (Database.price_history_seq (Env.db e));
              Database.ph_tokenContract := tokenContract;
              Database.ph_tokenName :=
                PriceWatcher.tokenName (PriceWatcher.config token);
              Database.ph_price := cur;
              Database.ph_timestamp := Env.now e |}]
  /\ (forall row,
        Database.watched_tokens (Env.db e) !! tokenContract = Some row ->
        exists row',
          Database.watched_tokens (Env.db r.2) !! tokenContract = Some row'
          /\ Database.wt_lastPrice row' = cur
          /\ Database.wt_lastCheckTime row' = Env.now e
          /\ Spec.columns row' = Spec.columns row)
  /\ (exists l,
        PriceWatcher.emitted r.1 = PriceWatcher.emitted w ++ l
        /\ PriceWatcher.severity <$> Spec.priceAlerts l
           = (if PriceWatcher.shouldAlert c
                 && Num.gtb (PriceWatcher.threshold c) 0
              then [PriceWatcher.alertSeverity c] else [])
        /\ (Spec.priceAlerts l <> [] <->
            exists t, Spec.tokenTier c = Some t
                      /\ Spec.enabled (PriceWatcher.config token) t = true
                      /\ 0 < Spec.thresholdOf
                                (Spec.ofToken (PriceWatcher.config token)) t)).
Proof.
  intros Htk Hq Hold Hne cur c r. subst r c cur.
  unfold PriceWatcher.checkTokenPrice, AgentsApi.getAgentStats.
  rewrite Htk, Hq. cbn [AgentsApi.next fst snd].
  rewrite (percentage_nonzero_of_moved _ _ Hold Hne).
  pose proof (classify_shouldAlert (PriceWatcher.config token)
                (AgentsApi.calculatePercentageChange
                   (PriceWatcher.lastPrice token)
                   (AgentsApi.currentPriceInUSD stats))) as Hc.
  cbv zeta in Hc.
  set (c := PriceWatcher.classify _ _) in *.
  destruct (PriceWatcher.shouldAlert c && Num.gtb (PriceWatcher.threshold c) 0)
    eqn:Hal; cbn.
  - split; [reflexivity|]. split; [reflexivity|]. split.
    { intros row Hrow. rewrite lookup_alter_eq, Hrow. cbn.
      eexists. split; [reflexivity|]. now repeat split. }
    eexists [_]. split; [reflexivity|]. split; [reflexivity|]. cbn.
    split; [intros _ | discriminate].
    apply andb_true_iff in Hal as [Hs Hg]. apply gtb_true in Hg.
    destruct (Spec.tokenTier c) as [t|]; [| congruence].
    destruct Hc as [Hf Ht]. exists t. rewrite <- Hf, <- Ht. auto.
  - split; [reflexivity|]. split; [reflexivity|]. split.
    { intros row Hrow. rewrite lookup_alter_eq, Hrow. cbn.
      eexists. split; [reflexivity|]. now repeat split. }
    exists []. rewrite app_nil_r. split; [reflexivity|].
    split; [reflexivity|]. cbn. split; [congruence|].
    intros (t & Ht & Hen & Hpos). rewrite Ht in Hc. destruct Hc as [Hf Hth].
    rewrite Hf, Hen, Hth in Hal. cbn in Hal.
    apply gtb_false in Hal. lra.
Qed.

Lemma X5_changed_sample_moves_on_witness :
  PriceWatcher.lastPrice <$>
    (PriceWatcher.trackedTokens
       (PriceWatcher.checkTokenPrice "0xA1" (Sample.watcher 100)
          (Sample.env 100 [103] [] [])).1 !! "0xA1")
  = Some 103.
Proof.
  rewrite (proj1
    (X5_changed_sample_moves_on "0xA1" (Sample.watcher 100)
       (Sample.env 100 [103] [] []) (Sample.token 100) _ [] eq_refl eq_refl
       ltac:(vm_compute; discriminate) ltac:(vm_compute; discriminate))).
  reflexivity.
Defined.

(** ** Where alerts are stored *)

Section AlertsTable.

Lemma checkTokenPrice_alerts (tokenContract : string) (w : PriceWatcher.t)
    (e : Env.t) :
  Database.alerts (Env.db (PriceWatcher.checkTokenPrice tokenContract w e).2)
  = Database.alerts (Env.db e).
Proof.
  unfold PriceWatcher.checkTokenPrice.
  destruct (PriceWatcher.trackedTokens w !! tokenContract); [| reflexivity].
  destruct (AgentsApi.getAgentStats _ _) as [[stats|err] api']; [| reflexivity].
  destruct (Num.eqb _ 0); reflexivity.
Qed.

Lemma startTrackingToken_alerts (tokenContract : string) (w : PriceWatcher.t)
    (e : Env.t) :
  Database.alerts (Env.db (PriceWatcher.startTrackingToken tokenContract w e).2)
  = Database.alerts (Env.db e).
Proof.
  unfold PriceWatcher.startTrackingToken.
  destruct (PriceWatcher.trackedTokens w !! tokenContract); [| reflexivity].
  apply checkTokenPrice_alerts.
Qed.

Lemma startAll_alerts (order : list string) (w : PriceWatcher.t) (e : Env.t) :
  Database.alerts (Env.db (PriceWatcher.startAll order w e).2)
  = Database.alerts (Env.db e).
Proof.
  unfold PriceWatcher.startAll. revert w e.
  induction order as [|k order IH]; intros w e; [reflexivity|]. cbn.
  destruct (PriceWatcher.startTrackingToken k w e) as [w1 e1] eqn:E.
  cbn. rewrite IH. rewrite <- (startTrackingToken_alerts k w e). now rewrite E.
Qed.

End AlertsTable.

(** X6. The holdings watcher and the IQ watcher store every alert they
    emit: in one cycle the rows appended to [alerts] carry, in order, the
    messages of the alerts the cycle emitted, under the category of the
    watcher and with [triggered] off. *)
Theorem X6_emitted_alerts_are_stored (hw : HoldingsWatcher.t)
    (iw : IQPriceWatcher.t) (e : Env.t) :
  (exists l rows,
      HoldingsWatcher.emitted (HoldingsWatcher.checkHoldings hw e).1
      = HoldingsWatcher.emitted hw ++ l
      /\ Database.alerts (Env.db (HoldingsWatcher.checkHoldings hw e).2)
         = Database.alerts (Env.db e) ++ rows
      /\ Database.al_message <$> rows
         = HoldingsWatcher.message <$> Spec.holdingsAlerts l
      /\ Forall (fun r => Database.al_type r = Database.holdings
                          /\ Database.al_triggered r = false) rows)
  /\ (exists l rows,
        IQPriceWatcher.emitted (IQPriceWatcher.checkIQPrice iw e).1
        = IQPriceWatcher.emitted iw ++ l
        /\ Database.alerts (Env.db (IQPriceWatcher.checkIQPrice iw e).2)
           = Database.alerts (Env.db e) ++ rows
        /\ Database.al_message <$> rows
           = IQPriceWatcher.message <$> Spec.iqAlerts l
        /\ Forall (fun r => Database.al_type r = Database.iq_price
                            /\ Database.al_triggered r = false) rows).
Proof.
  split.
  - unfold HoldingsWatcher.checkHoldings.
    destruct (AgentsApi.getHoldings _ _) as [[hd|err] api'].
    + destruct (Num.gtb (HoldingsWatcher.lastKnownValue hw) 0);
        [destruct (Num.gtb _ 0 && Num.geb _ _) |];
        cbn -[Num.geb Num.ltb];
        (destruct (Num.geb _ _ && negb _);
         [| destruct (Num.ltb _ _ && _)]);
        cbn; rewrite <- ?app_assoc; cbn;
        do 2 eexists; (split; [reflexivity || (symmetry; apply app_nil_r) |]);
        (split; [reflexivity || (symmetry; apply app_nil_r) |]);
        (split; [reflexivity | repeat constructor]).
    + exists [HoldingsWatcher.error err], []. cbn. rewrite app_nil_r.
      repeat split. constructor.
  - unfold IQPriceWatcher.checkIQPrice.
    destruct (AgentsApi.getPrices _) as [[prices|err] api'].
    + destruct (Num.gtb _ 0);
        [destruct (Num.eqb _ 0); [| destruct (_ && _)] |];
        cbn; do 2 eexists;
        (split; [reflexivity || (symmetry; apply app_nil_r) |]);
        (split; [reflexivity || (symmetry; apply app_nil_r) |]);
        (split; [reflexivity | repeat constructor]).
    + exists [IQPriceWatcher.error err], []. cbn. rewrite app_nil_r.
      repeat split. constructor.
Qed.

Section AlertsUntouched.

Lemma addToken_alerts (tc name : string) (t ci : Q) (w : PriceWatcher.t)
    (e : Env.t) :
  Database.alerts (Env.db (PriceWatcher.addToken tc name t ci w e).2.2)
  = Database.alerts (Env.db e).
Proof.
  unfold PriceWatcher.addToken. case_bool_decide; [reflexivity|].
  destruct (AgentsApi.getAgentStats _ _) as [[stats|err] api']; [| reflexivity].
  set (w0 := PriceWatcher.set_trackedTokens _ w). set (e0 := Env.set_db _ _).
  destruct (PriceWatcher.isRunning w0).
  - pose proof (startTrackingToken_alerts tc w0 e0) as Hs.
    destruct (PriceWatcher.startTrackingToken tc w0 e0) as [w1 e1]. exact Hs.
  - reflexivity.
Qed.

Lemma addTokenAdvanced_alerts (tc name : string)
    (th : PriceWatcher.ThresholdConfig) (ci : Q) (w : PriceWatcher.t)
    (e : Env.t) :
  Database.alerts (Env.db (PriceWatcher.addTokenAdvanced tc name th ci w e).2.2)
  = Database.alerts (Env.db e).
Proof.
  unfold PriceWatcher.addTokenAdvanced. case_bool_decide; [reflexivity|].
  destruct (AgentsApi.getAgentStats _ _) as [[stats|err] api']; [| reflexivity].
  set (w0 := PriceWatcher.set_trackedTokens _ w). set (e0 := Env.set_db _ _).
  destruct (PriceWatcher.isRunning w0).
  - pose proof (startTrackingToken_alerts tc w0 e0) as Hs.
    destruct (PriceWatcher.startTrackingToken tc w0 e0) as [w1 e1]. exact Hs.
  - reflexivity.
Qed.

Lemma updateWatchedToken_alerts (tc : string) (u : Database.WatchedTokenUpdate)
    (time : Z) (db : Database.t) :
  Database.alerts (Database.updateWatchedToken tc u time db) = Database.alerts db.
Proof. unfold Database.updateWatchedToken. now destruct (Database.hasFields u). Qed.

End AlertsUntouched.

(** X7. The token watcher never writes the [alerts] table: whatever
    happens to it (a token added, removed or reconfigured, a timer that
    fires, a start, a stop), the table is as it was. Its alerts are events
    only. *)
Theorem X7_token_watcher_stores_no_alert (op : Spec.Op)
    (s : PriceWatcher.t * Env.t) :
  Database.alerts (Env.db (Spec.run op s).2) = Database.alerts (Env.db s.2).
Proof.
  destruct s as [w e]. destruct op; cbn [Spec.run fst snd].
  - apply addToken_alerts.
  - apply addTokenAdvanced_alerts.
  - unfold PriceWatcher.removeToken.
    now destruct (PriceWatcher.trackedTokens w !! tokenContract).
  - unfold PriceWatcher.updateTokenConfig.
    destruct (PriceWatcher.trackedTokens w !! tokenContract); [| reflexivity].
    destruct (_ && _); [rewrite startTrackingToken_alerts |];
      cbn; first [reflexivity | apply updateWatchedToken_alerts].
  - unfold PriceWatcher.updateTokenAlerts.
    destruct (PriceWatcher.trackedTokens w !! tokenContract); [| reflexivity].
    cbn. first [reflexivity | apply updateWatchedToken_alerts].
  - apply checkTokenPrice_alerts.
  - unfold PriceWatcher.start. destruct (PriceWatcher.isRunning w); [reflexivity|].
    pose proof (startAll_alerts order
                  (PriceWatcher.load watchedTokens (PriceWatcher.set_isRunning true w)) e) as H.
    destruct (PriceWatcher.startAll _ _ _) as [w1 e1]. exact H.
  - reflexivity.
Qed.

(** ** Removing and adding tokens *)

(** X8. [removeToken] on a tracked token takes it out of the tracked
    tokens, clears its timer, emits [token_removed] and marks its row
    inactive: the row stays in the table with its other columns, as does the
    price history, and [getWatchedToken] no longer finds it. A second
    [removeToken], like any [removeToken] on a token that is not tracked,
    changes nothing. *)
Theorem X8_removeToken (tokenContract : string) (w : PriceWatcher.t)
    (e : Env.t) (token : PriceWatcher.TrackedToken) :
  PriceWatcher.trackedTokens w !! tokenContract = Some token ->
  let r := PriceWatcher.removeToken tokenContract w e in
  PriceWatcher.trackedTokens r.1 = delete tokenContract (PriceWatcher.trackedTokens w)
  /\ PriceWatcher.timers r.1
     = match PriceWatcher.intervalId token with
       | Some id => delete id (PriceWatcher.timers w)
       | None => PriceWatcher.timers w
       end
  /\ PriceWatcher.emitted r.1
     = PriceWatcher.emitted w
       ++ [PriceWatcher.token_removed tokenContract
             (PriceWatcher.tokenName (PriceWatcher.config token))]
  /\ (forall row,
        Database.watched_tokens (Env.db e) !! tokenContract = Some row ->
        exists row',
          Database.watched_tokens (Env.db r.2) !! tokenContract = Some row'
          /\ Database.wt_isActive row' = false
          /\ Spec.ofRow row' = Spec.ofRow row
          /\ Database.wt_lastPrice row' = Database.wt_lastPrice row)
  /\ Database.getWatchedToken tokenContract (Env.db r.2) = None
  /\ Database.price_history (Env.db r.2) = Database.price_history (Env.db e)
  /\ PriceWatcher.removeToken tokenContract r.1 r.2 = r
  /\ (forall other w' e',
        PriceWatcher.trackedTokens w' !! other = None ->
        PriceWatcher.removeToken other w' e' = (w', e')).
Proof.
  intros Htk r.
  assert (Hnone : forall other w' e',
            PriceWatcher.trackedTokens w' !! other = None ->
            PriceWatcher.removeToken other w' e' = (w', e')).
  { intros other w' e' H. unfold PriceWatcher.removeToken. now rewrite H. }
  assert (Hr : r =
    (PriceWatcher.emit
       (PriceWatcher.token_removed tokenContract
          (PriceWatcher.tokenName (PriceWatcher.config token)))
       (PriceWatcher.set_trackedTokens
          (delete tokenContract (PriceWatcher.trackedTokens w))
          match PriceWatcher.intervalId token with
          | Some id => PriceWatcher.clearInterval id w
          | None => w
          end),
     Env.set_db
       (Database.removeWatchedToken tokenContract (Env.now e) (Env.db e)) e)).
  { subst r. unfold PriceWatcher.removeToken, PriceWatcher.stopTrackingToken.
    rewrite Htk. destruct (PriceWatcher.intervalId token); [| reflexivity].
    unfold PriceWatcher.set_trackedTokens, PriceWatcher.emit. cbn.
    now rewrite delete_insert_eq. }
  rewrite Hr. clear Hr r. cbn [fst snd].
  split; [reflexivity|].
  split; [now destruct (PriceWatcher.intervalId token)|].
  split; [now destruct (PriceWatcher.intervalId token)|].
  split.
  { intros row Hrow. cbn. rewrite lookup_alter_eq, Hrow. cbn.
    eexists. split; [reflexivity|]. now repeat split. }
  split.
  { unfold Database.getWatchedToken. cbn. rewrite lookup_alter_eq.
    now destruct (Database.watched_tokens (Env.db e) !! tokenContract). }
  split; [reflexivity|]. split; [| exact Hnone].
  apply Hnone. cbn. apply lookup_delete_eq.
Qed.

Lemma X8_removeToken_witness :
  PriceWatcher.timers
    (PriceWatcher.removeToken "0xA1" (Sample.watcher 100)
       (Sample.env 100 [] [] [])).1 = ∅.
Proof.
  rewrite (proj1 (proj2
    (X8_removeToken "0xA1" (Sample.watcher 100) (Sample.env 100 [] [] [])
       (Sample.token 100) eq_refl))).
  vm_compute. reflexivity.
Defined.

(** X9. When the baseline fetch fails, [addToken] and [addTokenAdvanced]
    reject with the error of the fetch and leave no trace: the watcher is as
    it was (nothing tracked, no timer, no event) and so is the database;
    only the request has gone to the API. *)
Theorem X9_add_rejects_on_fetch_failure (tokenContract tokenName : string)
    (t checkInterval : Q) (th : PriceWatcher.ThresholdConfig)
    (w : PriceWatcher.t) (e : Env.t) (err : string) :
  PriceWatcher.trackedTokens w !! tokenContract = None ->
  Spec.fetchFails (AgentsApi.statsQueue (Env.api e)) err ->
  let e' := Env.set_api (AgentsApi.getAgentStats tokenContract (Env.api e)).2 e in
  PriceWatcher.addToken tokenContract tokenName t checkInterval w e
  = (AgentsApi.Err err, (w, e'))
  /\ PriceWatcher.addTokenAdvanced tokenContract tokenName th checkInterval w e
     = (AgentsApi.Err err, (w, e'))
  /\ Env.db e' = Env.db e.
Proof.
  intros Hnone Hf e'. subst e'. destruct (fetchFails_next _ _ Hf) as [q Hq].
  unfold PriceWatcher.addToken, PriceWatcher.addTokenAdvanced,
    AgentsApi.getAgentStats.
  rewrite Hnone, Hq.
  case_bool_decide as Hin; [destruct Hin; discriminate |]. now repeat split.
Qed.

Lemma X9_add_rejects_on_fetch_failure_witness :
  (PriceWatcher.addToken "0xB2" "Other" 2 60 (Sample.watcher 100)
     (Sample.env 100 [] [] [])).1
  = AgentsApi.Err "Network Error".
Proof.
  refine (f_equal fst (proj1
    (X9_add_rejects_on_fetch_failure "0xB2" "Other" 2 60 Sample.thresholds
       (Sample.watcher 100) (Sample.env 100 [] [] []) "Network Error" _ _)));
    reflexivity.
Defined.

(** ** The timers of the token watcher *)

Section Timers.

Lemma sameShape_refl w : Spec.sameShape w w.
Proof. now repeat split. Qed.

Lemma sameShape_lookup w w' k token' :
  Spec.sameShape w w' ->
  PriceWatcher.trackedTokens w' !! k = Some token' ->
  exists token,
    PriceWatcher.trackedTokens w !! k = Some token
    /\ PriceWatcher.intervalId token = PriceWatcher.intervalId token'
    /\ PriceWatcher.config token = PriceWatcher.config token'.
Proof.
  intros (_ & _ & _ & H) Hk. specialize (H k). rewrite Hk in H. cbn in H.
  destruct (PriceWatcher.trackedTokens w !! k) as [token|]; [| discriminate].
  injection H as Hi Hc. eauto.
Qed.

Lemma sameShape_lookup_rev w w' k token :
  Spec.sameShape w w' ->
  PriceWatcher.trackedTokens w !! k = Some token ->
  exists token',
    PriceWatcher.trackedTokens w' !! k = Some token'
    /\ PriceWatcher.intervalId token' = PriceWatcher.intervalId token
    /\ PriceWatcher.config token' = PriceWatcher.config token.
Proof.
  intros (_ & _ & _ & H) Hk. specialize (H k). rewrite Hk in H. cbn in H.
  destruct (PriceWatcher.trackedTokens w' !! k) as [token'|]; [| discriminate].
  injection H as Hi Hc. eauto.
Qed.

Lemma sameShape_linked w w' :
  Spec.sameShape w w' -> Spec.linked w -> Spec.linked w'.
Proof.
  intros Hs [Ho Hv]. pose proof Hs as (Ht & Hq & _ & _). split.
  - intros id tm Htm. rewrite Ht in Htm. destruct (Ho id tm Htm) as (Hle & token & Hk & Hi).
    split; [now rewrite Hq|].
    destruct (sameShape_lookup_rev _ _ _ _ Hs Hk) as (token' & Hk' & Hi' & _).
    exists token'. split; [exact Hk' | congruence].
  - intros tc token' id Hk' Hi'.
    destruct (sameShape_lookup _ _ _ _ Hs Hk') as (token & Hk & Hi & _).
    rewrite Ht. apply (Hv tc token id Hk). congruence.
Qed.

Lemma sameShape_inStep w w' k :
  Spec.sameShape w w' -> Spec.inStep w k -> Spec.inStep w' k.
Proof.
  intros Hs Hin token' id tm Hk' Hi' Htm.
  destruct (sameShape_lookup _ _ _ _ Hs Hk') as (token & Hk & Hi & Hc).
  pose proof Hs as (Ht & _). rewrite Ht in Htm. rewrite <- Hc.
  apply (Hin token id tm Hk); congruence.
Qed.

Lemma checkTokenPrice_sameShape (tokenContract : string) (w : PriceWatcher.t)
    (e : Env.t) :
  Spec.sameShape w (PriceWatcher.checkTokenPrice tokenContract w e).1.
Proof.
  unfold PriceWatcher.checkTokenPrice.
  destruct (PriceWatcher.trackedTokens w !! tokenContract) as [token|] eqn:Htk;
    [| apply sameShape_refl].
  destruct (AgentsApi.getAgentStats tokenContract (Env.api e)) as [[stats|err] api'];
    [| now repeat split].
  destruct (Num.eqb _ 0); [apply sameShape_refl |].
  set (w1 := if _ && _ then _ else _).
  assert (H1 : PriceWatcher.trackedTokens w1 = PriceWatcher.trackedTokens w
               /\ PriceWatcher.isRunning w1 = PriceWatcher.isRunning w
               /\ PriceWatcher.timers w1 = PriceWatcher.timers w
               /\ PriceWatcher.timerSeq w1 = PriceWatcher.timerSeq w).
  { subst w1. destruct (_ && _); now repeat split. }
  destruct H1 as (Hm & Hr & Ht & Hq). unfold Spec.sameShape. cbn.
  rewrite Hm, Hr, Ht, Hq. repeat split.
  intros k. now apply lookup_insert_proj with (x := token).
Qed.

(** Arming the timer of a tracked token. *)
Lemma startTrackingToken_linked (tokenContract : string) (w : PriceWatcher.t)
    (e : Env.t) (token : PriceWatcher.TrackedToken) :
  PriceWatcher.trackedTokens w !! tokenContract = Some token ->
  Spec.linked w ->
  let w' := (PriceWatcher.startTrackingToken tokenContract w e).1 in
  Spec.linked w'
  /\ Spec.inStep w' tokenContract
  /\ PriceWatcher.isRunning w' = PriceWatcher.isRunning w
  /\ (exists token',
        PriceWatcher.trackedTokens w' !! tokenContract = Some token'
        /\ PriceWatcher.intervalId token' = Some (S (PriceWatcher.timerSeq w))
        /\ PriceWatcher.config token' = PriceWatcher.config token)
  /\ PriceWatcher.timers w'
     = <[S (PriceWatcher.timerSeq w) :=
           {| PriceWatcher.timerToken := tokenContract;
              PriceWatcher.timerMs :=
                PriceWatcher.checkInterval (PriceWatcher.config token) * 1000 |}]>
         (match PriceWatcher.intervalId token with
          | Some old => delete old (PriceWatcher.timers w)
          | None => PriceWatcher.timers w
          end)
  /\ (forall k, k <> tokenContract ->
        (fun tk => (PriceWatcher.intervalId tk, PriceWatcher.config tk))
          <$> (PriceWatcher.trackedTokens w' !! k)
        = (fun tk => (PriceWatcher.intervalId tk, PriceWatcher.config tk))
            <$> (PriceWatcher.trackedTokens w !! k))
  /\ (forall k, k <> tokenContract -> Spec.inStep w k -> Spec.inStep w' k).
Proof.
  intros Htk [Ho Hv] w'. subst w'.
  set (new := S (PriceWatcher.timerSeq w)).
  set (tm0 := {| PriceWatcher.timerToken := tokenContract;
                 PriceWatcher.timerMs :=
                   PriceWatcher.checkInterval (PriceWatcher.config token) * 1000 |}).
  set (base := match PriceWatcher.intervalId token with
               | Some old => delete old (PriceWatcher.timers w)
               | None => PriceWatcher.timers w
               end).
  pose (wa := {| PriceWatcher.trackedTokens :=
                   <[tokenContract := PriceWatcher.set_intervalId (Some new) token]>
                     (PriceWatcher.trackedTokens w);
                 PriceWatcher.isRunning := PriceWatcher.isRunning w;
                 PriceWatcher.emitted := PriceWatcher.emitted w;
                 PriceWatcher.timers := <[new := tm0]> base;
                 PriceWatcher.timerSeq := new |}).
  assert (Heq : PriceWatcher.startTrackingToken tokenContract w e
                = PriceWatcher.checkTokenPrice tokenContract wa e).
  { unfold PriceWatcher.startTrackingToken. rewrite Htk. subst wa base.
    now destruct (PriceWatcher.intervalId token). }
  rewrite Heq. clear Heq.
  assert (Hwa_t : PriceWatcher.timers wa = <[new := tm0]> base) by reflexivity.
  assert (Hwa_q : PriceWatcher.timerSeq wa = new) by reflexivity.
  assert (Hwa_r : PriceWatcher.isRunning wa = PriceWatcher.isRunning w)
    by reflexivity.
  assert (Hwa_m : PriceWatcher.trackedTokens wa
                  = <[tokenContract := PriceWatcher.set_intervalId (Some new) token]>
                      (PriceWatcher.trackedTokens w)) by reflexivity.
  clearbody wa.
  assert (Hfresh : forall tm, PriceWatcher.timers w !! new = Some tm -> False).
  { intros tm Htm. destruct (Ho new tm Htm) as [Hle _]. subst new. lia. }
  assert (Hbase : forall id tm, base !! id = Some tm ->
                    PriceWatcher.timers w !! id = Some tm
                    /\ PriceWatcher.intervalId token <> Some id).
  { intros id tm. subst base. destruct (PriceWatcher.intervalId token) as [old|].
    - intros H. apply lookup_delete_Some in H as [Hne H]. split; [exact H | congruence].
    - intros H. split; [exact H | discriminate]. }
  assert (Hbase' : forall id tm, PriceWatcher.timers w !! id = Some tm ->
                     PriceWatcher.intervalId token <> Some id ->
                     base !! id = Some tm).
  { intros id tm Htm Hne. subst base.
    destruct (PriceWatcher.intervalId token) as [old|]; [| exact Htm].
    rewrite lookup_delete_ne; [exact Htm | congruence]. }
  assert (Hla : Spec.linked wa).
  { split.
    - intros id tm. rewrite Hwa_t, Hwa_q, Hwa_m. intros Htm.
      destruct (decide (new = id)) as [<-|Hne].
      + rewrite lookup_insert_eq in Htm. injection Htm as <-. split; [lia|]. cbn.
        rewrite lookup_insert_eq. eauto.
      + rewrite lookup_insert_ne in Htm by exact Hne.
        apply Hbase in Htm as [Htm Hold].
        destruct (Ho id tm Htm) as (Hle & tk & Hk & Hi).
        split; [subst new; lia|].
        destruct (decide (tokenContract = PriceWatcher.timerToken tm)) as [Heq|Hneq].
        * rewrite <- Heq in Hk. rewrite Htk in Hk. injection Hk as <-. contradiction.
        * rewrite lookup_insert_ne by exact Hneq. eauto.
    - intros k tk id. rewrite Hwa_t, Hwa_m. intros Hk Hi.
      destruct (decide (tokenContract = k)) as [<-|Hne].
      + rewrite lookup_insert_eq in Hk. injection Hk as <-. cbn in Hi.
        injection Hi as <-. rewrite lookup_insert_eq. eauto.
      + rewrite lookup_insert_ne in Hk by exact Hne.
        destruct (Hv k tk id Hk Hi) as (tm & Htm & Hown).
        exists tm. split; [| exact Hown].
        rewrite lookup_insert_ne by (intros <-; exact (Hfresh tm Htm)).
        apply Hbase'; [exact Htm|]. intros Hold.
        destruct (Hv tokenContract token id Htk Hold) as (tm' & Htm' & Hown').
        congruence. }
  assert (Hstep : Spec.inStep wa tokenContract).
  { intros tk id tm. rewrite Hwa_t, Hwa_m, lookup_insert_eq.
    intros [= <-]. cbn. intros [= <-]. rewrite lookup_insert_eq.
    now intros [= <-]. }
  assert (Hothers : forall k, k <> tokenContract ->
            PriceWatcher.trackedTokens wa !! k = PriceWatcher.trackedTokens w !! k).
  { intros k Hne. rewrite Hwa_m. now apply lookup_insert_ne. }
  assert (Hkeep : forall k, k <> tokenContract -> Spec.inStep w k -> Spec.inStep wa k).
  { intros k Hne Hin tk id tm. rewrite (Hothers k Hne), Hwa_t. intros Hk Hi Htm.
    destruct (Hv k tk id Hk Hi) as (tm1 & Htm1 & Hown1).
    rewrite lookup_insert_ne in Htm by (intros <-; exact (Hfresh tm1 Htm1)).
    apply Hbase in Htm as [Htm _]. exact (Hin tk id tm Hk Hi Htm). }
  pose proof (checkTokenPrice_sameShape tokenContract wa e) as Hs.
  destruct (PriceWatcher.checkTokenPrice tokenContract wa e) as [w2 e2].
  cbn [fst] in *. pose proof Hs as (Ht2 & Hq2 & Hr2 & Hm2).
  split; [exact (sameShape_linked _ _ Hs Hla)|].
  split; [exact (sameShape_inStep _ _ _ Hs Hstep)|].
  split; [congruence|]. split.
  { assert (Hk : PriceWatcher.trackedTokens wa !! tokenContract
                 = Some (PriceWatcher.set_intervalId (Some new) token))
      by (rewrite Hwa_m; apply lookup_insert_eq).
    destruct (sameShape_lookup_rev _ _ _ _ Hs Hk) as (token' & Hk' & Hi' & Hc').
    exists token'. auto. }
  split; [congruence|]. split.
  - intros k Hne. rewrite Hm2. now rewrite (Hothers k Hne).
  - intros k Hne Hin. exact (sameShape_inStep _ _ _ Hs (Hkeep k Hne Hin)).
Qed.

(** Handles and timers carried over to a state with the same timers in
    which every token holds the handle it held. *)
Lemma linked_transfer w w' :
  PriceWatcher.timers w' = PriceWatcher.timers w ->
  PriceWatcher.timerSeq w' = PriceWatcher.timerSeq w ->
  (forall k, PriceWatcher.intervalId <$> (PriceWatcher.trackedTokens w' !! k)
             = PriceWatcher.intervalId <$> (PriceWatcher.trackedTokens w !! k)) ->
  Spec.linked w -> Spec.linked w'.
Proof.
  intros Ht Hq Hm [Ho Hv]. split.
  - intros id tm Htm. rewrite Ht in Htm.
    destruct (Ho id tm Htm) as (Hle & token & Hk & Hi).
    split; [now rewrite Hq|].
    specialize (Hm (PriceWatcher.timerToken tm)). rewrite Hk in Hm. cbn in Hm.
    destruct (PriceWatcher.trackedTokens w' !! _) as [token'|]; [| discriminate].
    injection Hm as Hm. exists token'. split; [reflexivity | congruence].
  - intros tc token' id Hk' Hi'. rewrite Ht.
    specialize (Hm tc). rewrite Hk' in Hm. cbn in Hm.
    destruct (PriceWatcher.trackedTokens w !! tc) as [token|] eqn:Hk; [| discriminate].
    injection Hm as Hm. apply (Hv tc token id Hk). congruence.
Qed.

Lemma inStep_transfer w w' k :
  PriceWatcher.timers w' = PriceWatcher.timers w ->
  (fun tk => (PriceWatcher.intervalId tk,
              PriceWatcher.checkInterval (PriceWatcher.config tk)))
    <$> (PriceWatcher.trackedTokens w' !! k)
  = (fun tk => (PriceWatcher.intervalId tk,
                PriceWatcher.checkInterval (PriceWatcher.config tk)))
      <$> (PriceWatcher.trackedTokens w !! k) ->
  Spec.inStep w k -> Spec.inStep w' k.
Proof.
  intros Ht Hm Hin token' id tm Hk' Hi' Htm. rewrite Hk' in Hm. cbn in Hm.
  destruct (PriceWatcher.trackedTokens w !! k) as [token|] eqn:Hk; [| discriminate].
  injection Hm as Hi Hc. rewrite Ht in Htm. rewrite Hc.
  apply (Hin token id tm); congruence.
Qed.

(** Clearing the timer of a tracked token. *)
Lemma stopTrackingToken_linked (tokenContract : string) (w : PriceWatcher.t)
    (token : PriceWatcher.TrackedToken) :
  PriceWatcher.trackedTokens w !! tokenContract = Some token ->
  Spec.linked w ->
  let w' := PriceWatcher.stopTrackingToken tokenContract w in
  Spec.linked w'
  /\ PriceWatcher.isRunning w' = PriceWatcher.isRunning w
  /\ PriceWatcher.trackedTokens w'
     = <[tokenContract := PriceWatcher.set_intervalId None token]>
         (PriceWatcher.trackedTokens w)
  /\ PriceWatcher.timers w'
     = match PriceWatcher.intervalId token with
       | Some old => delete old (PriceWatcher.timers w)
       | None => PriceWatcher.timers w
       end
  /\ (forall k, k <> tokenContract -> Spec.inStep w k -> Spec.inStep w' k)
  /\ Spec.inStep w' tokenContract.
Proof.
  intros Htk [Ho Hv] w'. subst w'. unfold PriceWatcher.stopTrackingToken.
  rewrite Htk. destruct (PriceWatcher.intervalId token) as [old|] eqn:Hold.
  - cbn. split; [| split; [reflexivity | split; [reflexivity | split; [reflexivity|]]]].
    + split.
      * intros id tm Htm. cbn in Htm. apply lookup_delete_Some in Htm as [Hne Htm].
        destruct (Ho id tm Htm) as (Hle & tk & Hk & Hi). split; [exact Hle|]. cbn.
        destruct (decide (tokenContract = PriceWatcher.timerToken tm)) as [Heq|Hneq].
        -- rewrite <- Heq, Htk in Hk. injection Hk as <-. congruence.
        -- rewrite lookup_insert_ne by exact Hneq. eauto.
      * intros k tk id. cbn. intros Hk Hi.
        destruct (decide (tokenContract = k)) as [<-|Hne].
        -- rewrite lookup_insert_eq in Hk. injection Hk as <-. discriminate.
        -- rewrite lookup_insert_ne in Hk by exact Hne.
           destruct (Hv k tk id Hk Hi) as (tm & Htm & Hown).
           exists tm. split; [| exact Hown].
           rewrite lookup_delete_ne; [exact Htm|]. intros <-.
           destruct (Hv tokenContract token old Htk Hold) as (tm' & Htm' & Hown').
           congruence.
    + split.
      * intros k Hne Hin tk id tm. cbn. rewrite lookup_insert_ne by congruence.
        intros Hk Hi Htm. apply lookup_delete_Some in Htm as [_ Htm].
        exact (Hin tk id tm Hk Hi Htm).
      * intros tk id tm. cbn. rewrite lookup_insert_eq. intros [= <-]. discriminate.
  - split; [now split|]. split; [reflexivity|]. split.
    { symmetry. apply insert_id. rewrite Htk. f_equal.
      destruct token. cbn in *. now subst. }
    split; [reflexivity|]. split; [auto|].
    intros tk id tm. rewrite Htk. intros [= <-]. congruence.
Qed.

Lemma scheduled_stopped w :
  Spec.scheduled w -> PriceWatcher.isRunning w = false ->
  PriceWatcher.timers w = ∅
  /\ forall tc token,
       PriceWatcher.trackedTokens w !! tc = Some token ->
       PriceWatcher.intervalId token = None.
Proof.
  intros ([Ho Hv] & _ & Hrun) Hoff.
  assert (Hnone : forall tc token,
            PriceWatcher.trackedTokens w !! tc = Some token ->
            PriceWatcher.intervalId token = None).
  { intros tc token Hk. specialize (Hrun tc token Hk). rewrite Hoff in Hrun.
    now destruct (PriceWatcher.intervalId token). }
  split; [| exact Hnone]. apply map_empty. intros id.
  destruct (PriceWatcher.timers w !! id) as [tm|] eqn:Htm; [| reflexivity].
  destruct (Ho id tm Htm) as (_ & token & Hk & Hi).
  rewrite (Hnone _ _ Hk) in Hi. discriminate.
Qed.

Lemma scheduled_init : Spec.scheduled PriceWatcher.init.
Proof.
  unfold Spec.scheduled, Spec.linked, Spec.timersOwned, Spec.handlesValid,
    Spec.inStep.
  cbn. repeat split; intros;
    match goal with H : ∅ !! _ = Some _ |- _ => now rewrite lookup_empty in H end.
Qed.

(** A state with the schedule of [w] is scheduled when [w] is. *)
Lemma scheduled_transfer w w' :
  PriceWatcher.timers w' = PriceWatcher.timers w ->
  PriceWatcher.timerSeq w' = PriceWatcher.timerSeq w ->
  PriceWatcher.isRunning w' = PriceWatcher.isRunning w ->
  (forall k,
     (fun tk => (PriceWatcher.intervalId tk,
                 PriceWatcher.checkInterval (PriceWatcher.config tk)))
       <$> (PriceWatcher.trackedTokens w' !! k)
     = (fun tk => (PriceWatcher.intervalId tk,
                   PriceWatcher.checkInterval (PriceWatcher.config tk)))
         <$> (PriceWatcher.trackedTokens w !! k)) ->
  Spec.scheduled w -> Spec.scheduled w'.
Proof.
  intros Ht Hq Hr Hm (Hl & Hin & Hrun).
  assert (Hid : forall k,
            PriceWatcher.intervalId <$> (PriceWatcher.trackedTokens w' !! k)
            = PriceWatcher.intervalId <$> (PriceWatcher.trackedTokens w !! k)).
  { intros k. specialize (Hm k).
    destruct (PriceWatcher.trackedTokens w' !! k), (PriceWatcher.trackedTokens w !! k);
      cbn in *; congruence. }
  split; [exact (linked_transfer _ _ Ht Hq Hid Hl)|]. split.
  - intros k. exact (inStep_transfer _ _ k Ht (Hm k) (Hin k)).
  - intros tc token' Hk'. specialize (Hid tc). rewrite Hk' in Hid. cbn in Hid.
    destruct (PriceWatcher.trackedTokens w !! tc) as [token|] eqn:Hk; [| discriminate].
    injection Hid as Hid. rewrite Hr, Hid. exact (Hrun tc token Hk).
Qed.

Lemma sameShape_scheduled w w' :
  Spec.sameShape w w' -> Spec.scheduled w -> Spec.scheduled w'.
Proof.
  intros (Ht & Hq & Hr & Hm). apply scheduled_transfer; try assumption.
  intros k. specialize (Hm k).
  destruct (PriceWatcher.trackedTokens w' !! k), (PriceWatcher.trackedTokens w !! k);
    cbn in *; congruence.
Qed.

(** A token that is not tracked is added without a timer, and armed at
    once when the watcher runs. *)
Lemma added_scheduled (tokenContract : string) (tk0 : PriceWatcher.TrackedToken)
    (w : PriceWatcher.t) (e : Env.t) (ev : PriceWatcher.Event) :
  PriceWatcher.trackedTokens w !! tokenContract = None ->
  PriceWatcher.intervalId tk0 = None ->
  Spec.scheduled w ->
  let w0 := PriceWatcher.set_trackedTokens
              (<[tokenContract := tk0]> (PriceWatcher.trackedTokens w)) w in
  Spec.scheduled
    (PriceWatcher.emit ev
       (if PriceWatcher.isRunning w
        then PriceWatcher.startTrackingToken tokenContract w0 e
        else (w0, e)).1).
Proof.
  intros Hnone Hidle ([Ho Hv] & Hin & Hrun) w0.
  assert (Hl0 : Spec.linked w0).
  { split.
    - intros id tm Htm. destruct (Ho id tm Htm) as (Hle & tk & Hk & Hi).
      split; [exact Hle|]. cbn. rewrite lookup_insert_ne by congruence. eauto.
    - intros k tk id. cbn. intros Hk Hi.
      destruct (decide (tokenContract = k)) as [<-|Hne].
      + rewrite lookup_insert_eq in Hk. injection Hk as <-. congruence.
      + rewrite lookup_insert_ne in Hk by exact Hne. exact (Hv k tk id Hk Hi). }
  assert (Hin0 : forall k, Spec.inStep w0 k).
  { intros k tk id tm. cbn. intros Hk Hi Htm.
    destruct (decide (tokenContract = k)) as [<-|Hne].
    - rewrite lookup_insert_eq in Hk. injection Hk as <-. congruence.
    - rewrite lookup_insert_ne in Hk by exact Hne. exact (Hin k tk id tm Hk Hi Htm). }
  apply (sameShape_scheduled
           (if PriceWatcher.isRunning w
            then PriceWatcher.startTrackingToken tokenContract w0 e
            else (w0, e)).1); [now repeat split|].
  destruct (PriceWatcher.isRunning w) eqn:Hon.
  - assert (Htk0 : PriceWatcher.trackedTokens w0 !! tokenContract = Some tk0)
      by (cbn; apply lookup_insert_eq).
    destruct (startTrackingToken_linked tokenContract w0 e tk0 Htk0 Hl0)
      as (Hl & Hs & Hr & (tk' & Hk' & Hi' & _) & _ & Hothers & Hkeep).
    split; [exact Hl|]. split.
    + intros k. destruct (decide (k = tokenContract)) as [->|Hne]; [exact Hs|].
      apply Hkeep; [exact Hne | apply Hin0].
    + intros k tk Hk. rewrite Hr. cbn. rewrite Hon.
      destruct (decide (k = tokenContract)) as [->|Hne].
      * rewrite Hk' in Hk. injection Hk as <-. now rewrite Hi'.
      * specialize (Hothers k Hne). rewrite Hk in Hothers. cbn in Hothers.
        rewrite lookup_insert_ne in Hothers by congruence.
        destruct (PriceWatcher.trackedTokens w !! k) as [tkw|] eqn:Hkw; [| discriminate].
        injection Hothers as Hi _. rewrite Hi. exact (Hrun k tkw Hkw).
  - split; [exact Hl0|]. split; [exact Hin0|].
    intros k tk. cbn. rewrite Hon. intros Hk.
    destruct (decide (tokenContract = k)) as [<-|Hne].
    + rewrite lookup_insert_eq in Hk. injection Hk as <-. now rewrite Hidle.
    + rewrite lookup_insert_ne in Hk by exact Hne. exact (Hrun k tk Hk).
Qed.

Lemma addToken_scheduled (tc name : string) (t ci : Q) (w : PriceWatcher.t)
    (e : Env.t) :
  Spec.scheduled w ->
  Spec.scheduled (PriceWatcher.addToken tc name t ci w e).2.1.
Proof.
  intros Hs. unfold PriceWatcher.addToken. case_bool_decide as Hin; [exact Hs|].
  destruct (AgentsApi.getAgentStats _ _) as [[stats|err] api']; [| exact Hs].
  assert (Hnone : PriceWatcher.trackedTokens w !! tc = None).
  { destruct (PriceWatcher.trackedTokens w !! tc) eqn:E; [| reflexivity].
    exfalso. apply Hin. eauto. }
  match goal with
  | |- context [PriceWatcher.startTrackingToken tc (PriceWatcher.set_trackedTokens (<[tc := ?tk]> _) w) ?e0] =>
    pose proof (added_scheduled tc tk w e0
                  (PriceWatcher.token_added tc name (AgentsApi.currentPriceInUSD stats))
                  Hnone eq_refl Hs) as H
  end.
  cbv zeta in H. cbn [PriceWatcher.isRunning PriceWatcher.set_trackedTokens].
  destruct (PriceWatcher.isRunning w); [| exact H].
  destruct (PriceWatcher.startTrackingToken _ _ _) as [w1 e1]. exact H.
Qed.

Lemma addTokenAdvanced_scheduled (tc name : string)
    (th : PriceWatcher.ThresholdConfig) (ci : Q) (w : PriceWatcher.t)
    (e : Env.t) :
  Spec.scheduled w ->
  Spec.scheduled (PriceWatcher.addTokenAdvanced tc name th ci w e).2.1.
Proof.
  intros Hs. unfold PriceWatcher.addTokenAdvanced.
  case_bool_decide as Hin; [exact Hs|].
  destruct (AgentsApi.getAgentStats _ _) as [[stats|err] api']; [| exact Hs].
  assert (Hnone : PriceWatcher.trackedTokens w !! tc = None).
  { destruct (PriceWatcher.trackedTokens w !! tc) eqn:E; [| reflexivity].
    exfalso. apply Hin. eauto. }
  match goal with
  | |- context [PriceWatcher.startTrackingToken tc (PriceWatcher.set_trackedTokens (<[tc := ?tk]> _) w) ?e0] =>
    pose proof (added_scheduled tc tk w e0
                  (PriceWatcher.token_added tc name (AgentsApi.currentPriceInUSD stats))
                  Hnone eq_refl Hs) as H
  end.
  cbv zeta in H. cbn [PriceWatcher.isRunning PriceWatcher.set_trackedTokens].
  destruct (PriceWatcher.isRunning w); [| exact H].
  destruct (PriceWatcher.startTrackingToken _ _ _) as [w1 e1]. exact H.
Qed.

Lemma removeToken_scheduled (tc : string) (w : PriceWatcher.t) (e : Env.t) :
  Spec.scheduled w -> Spec.scheduled (PriceWatcher.removeToken tc w e).1.
Proof.
  intros Hs. unfold PriceWatcher.removeToken.
  destruct (PriceWatcher.trackedTokens w !! tc) as [token|] eqn:Htk; [| exact Hs].
  destruct Hs as (Hl & Hin & Hrun).
  destruct (stopTrackingToken_linked tc w token Htk Hl)
    as ([Ho Hv] & Hr & Hm & Ht & Hkeep & _).
  set (w1 := PriceWatcher.stopTrackingToken tc w) in *.
  cbn [fst]. unfold Spec.scheduled, Spec.linked, Spec.timersOwned,
    Spec.handlesValid, Spec.inStep. cbn.
  split; [split|split].
  - intros id tm Htm. destruct (Ho id tm Htm) as (Hle & tk & Hk & Hi).
    split; [exact Hle|].
    destruct (decide (tc = PriceWatcher.timerToken tm)) as [Heq|Hne].
    + rewrite <- Heq, Hm, lookup_insert_eq in Hk. injection Hk as <-. discriminate.
    + rewrite lookup_delete_ne by exact Hne. eauto.
  - intros k tk id Hk Hi. apply lookup_delete_Some in Hk as [Hne Hk].
    exact (Hv k tk id Hk Hi).
  - intros k tk id tm Hk Hi Htm. apply lookup_delete_Some in Hk as [Hne Hk].
    apply (Hkeep k (not_eq_sym Hne) (Hin k) tk id tm Hk Hi Htm).
  - intros k tk Hk. apply lookup_delete_Some in Hk as [Hne Hk].
    rewrite Hr. rewrite Hm, lookup_insert_ne in Hk by exact Hne.
    exact (Hrun k tk Hk).
Qed.

Lemma updateTokenAlerts_scheduled (tc : string) (a : PriceWatcher.AlertConfig)
    (w : PriceWatcher.t) (e : Env.t) :
  Spec.scheduled w ->
  Spec.scheduled (PriceWatcher.updateTokenAlerts tc a w e).2.1.
Proof.
  intros Hs. unfold PriceWatcher.updateTokenAlerts.
  destruct (PriceWatcher.trackedTokens w !! tc) as [token|] eqn:Htk; [| exact Hs].
  cbn [fst snd]. apply (scheduled_transfer w); try reflexivity; [| exact Hs].
  intros k. cbn. now apply lookup_insert_proj with (x := token).
Qed.

Lemma updateTokenConfig_scheduled (tc : string)
    (u : PriceWatcher.TokenWatchConfigUpdate) (w : PriceWatcher.t) (e : Env.t) :
  Spec.scheduled w ->
  Spec.scheduled (PriceWatcher.updateTokenConfig tc u w e).1.
Proof.
  intros Hs. unfold PriceWatcher.updateTokenConfig.
  destruct (PriceWatcher.trackedTokens w !! tc) as [token|] eqn:Htk; [| exact Hs].
  set (c' := PriceWatcher.merge (PriceWatcher.config token) u).
  set (w1 := PriceWatcher.set_trackedTokens _ w). set (e1 := Env.set_db _ e).
  destruct Hs as (Hl & Hin & Hrun).
  assert (Hk1 : PriceWatcher.trackedTokens w1 !! tc
                = Some (PriceWatcher.set_config c' token))
    by (cbn; apply lookup_insert_eq).
  assert (Hid1 : forall k,
            PriceWatcher.intervalId <$> (PriceWatcher.trackedTokens w1 !! k)
            = PriceWatcher.intervalId <$> (PriceWatcher.trackedTokens w !! k)).
  { intros k. cbn. now apply lookup_insert_proj with (x := token). }
  assert (Hl1 : Spec.linked w1) by (apply (linked_transfer w); auto).
  assert (Hin1 : forall k, k <> tc -> Spec.inStep w1 k).
  { intros k Hne. apply (inStep_transfer w); [reflexivity | | apply Hin].
    cbn. now rewrite lookup_insert_ne by congruence. }
  assert (Hrun1 : forall k tk,
            PriceWatcher.trackedTokens w1 !! k = Some tk ->
            Database.defined (PriceWatcher.intervalId tk) = PriceWatcher.isRunning w).
  { intros k tk Hk. specialize (Hid1 k). rewrite Hk in Hid1. cbn in Hid1.
    destruct (PriceWatcher.trackedTokens w !! k) as [tkw|] eqn:Hkw; [| discriminate].
    injection Hid1 as ->. exact (Hrun k tkw Hkw). }
  change (PriceWatcher.isRunning w1) with (PriceWatcher.isRunning w).
  pose proof (Hrun tc token Htk) as Harmed.
  destruct (PriceWatcher.isRunning w) eqn:Hon; rewrite Harmed; cbn [andb fst].
  - destruct (stopTrackingToken_linked tc w1 _ Hk1 Hl1)
      as (Hl2 & Hr2 & Hm2 & _ & Hkeep2 & _).
    set (w2 := PriceWatcher.stopTrackingToken tc w1) in *.
    assert (Hk2 : PriceWatcher.trackedTokens w2 !! tc
                  = Some (PriceWatcher.set_intervalId None
                            (PriceWatcher.set_config c' token)))
      by (rewrite Hm2; apply lookup_insert_eq).
    destruct (startTrackingToken_linked tc w2 e1 _ Hk2 Hl2)
      as (Hl3 & Hs3 & Hr3 & (tk3 & Hk3 & Hi3 & _) & _ & Hothers3 & Hkeep3).
    split; [exact Hl3|]. split.
    + intros k. destruct (decide (k = tc)) as [->|Hne]; [exact Hs3|].
      apply Hkeep3; [exact Hne|]. apply Hkeep2; [exact Hne|]. now apply Hin1.
    + intros k tk Hk. rewrite Hr3, Hr2. cbn. rewrite Hon.
      destruct (decide (k = tc)) as [->|Hne].
      * rewrite Hk3 in Hk. injection Hk as <-. now rewrite Hi3.
      * specialize (Hothers3 k Hne). rewrite Hk in Hothers3. cbn in Hothers3.
        rewrite Hm2, lookup_insert_ne in Hothers3 by congruence.
        destruct (PriceWatcher.trackedTokens w1 !! k) as [tk1|] eqn:Hk1'; [| discriminate].
        injection Hothers3 as Hi _. rewrite Hi. exact (Hrun1 k tk1 Hk1').
  - split; [exact Hl1|]. split.
    + intros k. destruct (decide (k = tc)) as [->|Hne]; [| now apply Hin1].
      intros tk id tm Hk Hi. rewrite Hk1 in Hk. injection Hk as <-. cbn in Hi.
      destruct (PriceWatcher.intervalId token); discriminate.
    + intros k tk Hk. cbn. rewrite Hon. exact (Hrun1 k tk Hk).
Qed.

(** The tokens [load] builds hold no handle. *)
Lemma load_shape (rows : list Database.WatchedToken) (w : PriceWatcher.t) :
  let w' := PriceWatcher.load rows w in
  PriceWatcher.timers w' = PriceWatcher.timers w
  /\ PriceWatcher.timerSeq w' = PriceWatcher.timerSeq w
  /\ PriceWatcher.isRunning w' = PriceWatcher.isRunning w
  /\ PriceWatcher.emitted w' = PriceWatcher.emitted w
  /\ forall k tk,
       PriceWatcher.trackedTokens w' !! k = Some tk ->
       PriceWatcher.trackedTokens w !! k = Some tk
       \/ exists row, row ∈ rows /\ Database.wt_tokenContract row = k
                      /\ tk = PriceWatcher.fromRow row.
Proof.
  unfold PriceWatcher.load. revert w.
  induction rows as [|row rows IH]; intros w; cbn.
  - repeat split. auto.
  - destruct (IH (PriceWatcher.set_trackedTokens
                    (<[Database.wt_tokenContract row := PriceWatcher.fromRow row]>
                       (PriceWatcher.trackedTokens w)) w))
      as (Ht & Hq & Hr & He & Hm).
    repeat split; try assumption.
    intros k tk Hk. destruct (Hm k tk Hk) as [Hold|(row' & Hin & Hkey & Heq)].
    + cbn in Hold. destruct (decide (Database.wt_tokenContract row = k)) as [<-|Hne].
      * rewrite lookup_insert_eq in Hold. injection Hold as <-.
        right. exists row. split; [left | auto].
      * rewrite lookup_insert_ne in Hold by exact Hne. now left.
    + right. exists row'. split; [now right | auto].
Qed.

Lemma load_tracked (rows : list Database.WatchedToken) (w w2 : PriceWatcher.t) :
  PriceWatcher.trackedTokens w = PriceWatcher.trackedTokens w2 ->
  PriceWatcher.trackedTokens (PriceWatcher.load rows w)
  = PriceWatcher.trackedTokens (PriceWatcher.load rows w2).
Proof.
  unfold PriceWatcher.load. revert w w2.
  induction rows as [|row rows IH]; intros w w2 Heq; cbn; [exact Heq|].
  apply IH. cbn. now rewrite Heq.
Qed.

Lemma startAll_cons (k : string) (order : list string) (w : PriceWatcher.t)
    (e : Env.t) :
  PriceWatcher.startAll (k :: order) w e
  = PriceWatcher.startAll order
      (PriceWatcher.startTrackingToken k w e).1
      (PriceWatcher.startTrackingToken k w e).2.
Proof.
  unfold PriceWatcher.startAll. cbn.
  now destruct (PriceWatcher.startTrackingToken k w e).
Qed.

(** The loop of [start] arms every tracked key it is given, keeps the
    timers of the other tokens, and changes no configuration. *)
Lemma startAll_linked (order : list string) (w : PriceWatcher.t) (e : Env.t) :
  Spec.linked w -> (forall k, Spec.inStep w k) ->
  let w' := (PriceWatcher.startAll order w e).1 in
  Spec.linked w'
  /\ (forall k, Spec.inStep w' k)
  /\ PriceWatcher.isRunning w' = PriceWatcher.isRunning w
  /\ (forall k tk',
        PriceWatcher.trackedTokens w' !! k = Some tk' ->
        exists tk,
          PriceWatcher.trackedTokens w !! k = Some tk
          /\ PriceWatcher.config tk' = PriceWatcher.config tk
          /\ (k ∈ order \/ Database.defined (PriceWatcher.intervalId tk) = true ->
              Database.defined (PriceWatcher.intervalId tk') = true))
  /\ (forall k tk,
        PriceWatcher.trackedTokens w !! k = Some tk ->
        is_Some (PriceWatcher.trackedTokens w' !! k)).
Proof.
  revert w e. induction order as [|k0 order IH]; intros w e Hl Hin; cbn zeta.
  - cbn. split; [exact Hl|]. split; [exact Hin|]. split; [reflexivity|]. split.
    + intros k tk' Hk. exists tk'. split; [exact Hk|]. split; [reflexivity|].
      intros [Hin'|Hd]; [inversion Hin' | exact Hd].
    + eauto.
  - rewrite startAll_cons.
    destruct (PriceWatcher.trackedTokens w !! k0) as [tk0|] eqn:Hk0.
    + destruct (startTrackingToken_linked k0 w e tk0 Hk0 Hl)
        as (Hl1 & Hs1 & Hr1 & (tk1 & Hk1 & Hi1 & Hc1) & _ & Hothers & Hkeep).
      set (w1 := (PriceWatcher.startTrackingToken k0 w e).1) in *.
      assert (Hin1 : forall k, Spec.inStep w1 k).
      { intros k. destruct (decide (k = k0)) as [->|Hne]; [exact Hs1|].
        now apply Hkeep. }
      destruct (IH w1 (PriceWatcher.startTrackingToken k0 w e).2 Hl1 Hin1)
        as (Hl2 & Hin2 & Hr2 & Hcfg2 & Hdom2).
      split; [exact Hl2|]. split; [exact Hin2|]. split; [congruence|]. split.
      * intros k tk' Hk. destruct (Hcfg2 k tk' Hk) as (tka & Hka & Hca & Hda).
        destruct (decide (k = k0)) as [->|Hne].
        -- rewrite Hk1 in Hka. injection Hka as <-.
           exists tk0. split; [exact Hk0|]. split; [congruence|].
           intros _. apply Hda. right. now rewrite Hi1.
        -- specialize (Hothers k Hne). rewrite Hka in Hothers. cbn in Hothers.
           destruct (PriceWatcher.trackedTokens w !! k) as [tk|]; [| discriminate].
           injection Hothers as Hi Hc. exists tk. split; [reflexivity|].
           split; [congruence|]. intros [Hel|Hd]; apply Hda.
           ++ apply elem_of_cons in Hel as [->|Hel]; [contradiction | now left].
           ++ right. now rewrite Hi.
      * intros k tk Hk. destruct (decide (k = k0)) as [->|Hne].
        -- exact (Hdom2 k0 tk1 Hk1).
        -- specialize (Hothers k Hne). rewrite Hk in Hothers. cbn in Hothers.
           destruct (PriceWatcher.trackedTokens w1 !! k) as [tka|] eqn:Hka;
             [| discriminate].
           exact (Hdom2 k tka Hka).
    + assert (Hsame : PriceWatcher.startTrackingToken k0 w e = (w, e)).
      { unfold PriceWatcher.startTrackingToken. now rewrite Hk0. }
      rewrite Hsame. cbn [fst snd].
      destruct (IH w e Hl Hin) as (Hl2 & Hin2 & Hr2 & Hcfg2 & Hdom2).
      split; [exact Hl2|]. split; [exact Hin2|]. split; [exact Hr2|].
      split; [| exact Hdom2].
      intros k tk' Hk. destruct (Hcfg2 k tk' Hk) as (tk & Hkw & Hc & Hd).
      exists tk. split; [exact Hkw|]. split; [exact Hc|].
      intros [Hel|Hdef]; apply Hd; [| now right].
      apply elem_of_cons in Hel as [->|Hel]; [congruence | now left].
Qed.

Lemma stopAll_cons (k : string) (order : list string) (w : PriceWatcher.t) :
  PriceWatcher.stopAll (k :: order) w
  = PriceWatcher.stopAll order (PriceWatcher.stopTrackingToken k w).
Proof. reflexivity. Qed.

(** The loop of [stop] clears the timer of every tracked key it is given
    and changes nothing else of a token. *)
Lemma stopAll_linked (order : list string) (w : PriceWatcher.t) :
  Spec.linked w -> (forall k, Spec.inStep w k) ->
  let w' := PriceWatcher.stopAll order w in
  Spec.linked w'
  /\ (forall k, Spec.inStep w' k)
  /\ PriceWatcher.isRunning w' = PriceWatcher.isRunning w
  /\ PriceWatcher.emitted w' = PriceWatcher.emitted w
  /\ (forall k tk',
        PriceWatcher.trackedTokens w' !! k = Some tk' ->
        exists tk,
          PriceWatcher.trackedTokens w !! k = Some tk
          /\ tk' = PriceWatcher.set_intervalId (PriceWatcher.intervalId tk') tk
          /\ (k ∈ order \/ PriceWatcher.intervalId tk = None ->
              PriceWatcher.intervalId tk' = None))
  /\ (forall k tk,
        PriceWatcher.trackedTokens w !! k = Some tk ->
        is_Some (PriceWatcher.trackedTokens w' !! k)).
Proof.
  revert w. induction order as [|k0 order IH]; intros w Hl Hin; cbn zeta.
  - cbn. split; [exact Hl|]. split; [exact Hin|]. split; [reflexivity|].
    split; [reflexivity|]. split.
    + intros k tk' Hk. exists tk'. split; [exact Hk|]. split; [now destruct tk'|].
      intros [Hin'|Hd]; [inversion Hin' | exact Hd].
    + eauto.
  - rewrite stopAll_cons.
    destruct (PriceWatcher.trackedTokens w !! k0) as [tk0|] eqn:Hk0.
    + destruct (stopTrackingToken_linked k0 w tk0 Hk0 Hl)
        as (Hl1 & Hr1 & Hm1 & _ & Hkeep & Hs1).
      assert (He1 : PriceWatcher.emitted (PriceWatcher.stopTrackingToken k0 w)
                    = PriceWatcher.emitted w).
      { unfold PriceWatcher.stopTrackingToken. rewrite Hk0.
        now destruct (PriceWatcher.intervalId tk0). }
      set (w1 := PriceWatcher.stopTrackingToken k0 w) in *.
      assert (Hin1 : forall k, Spec.inStep w1 k).
      { intros k. destruct (decide (k = k0)) as [->|Hne]; [exact Hs1|].
        now apply Hkeep. }
      destruct (IH w1 Hl1 Hin1) as (Hl2 & Hin2 & Hr2 & He2 & Hcfg2 & Hdom2).
      split; [exact Hl2|]. split; [exact Hin2|]. split; [congruence|].
      split; [congruence|]. split.
      * intros k tk' Hk. destruct (Hcfg2 k tk' Hk) as (tka & Hka & Hea & Hda).
        rewrite Hm1 in Hka. destruct (decide (k0 = k)) as [<-|Hne].
        -- rewrite lookup_insert_eq in Hka. injection Hka as <-.
           exists tk0. split; [exact Hk0|]. split.
           ++ rewrite Hea. now destruct tk0.
           ++ intros _. apply Hda. now right.
        -- rewrite lookup_insert_ne in Hka by exact Hne.
           exists tka. split; [exact Hka|]. split; [exact Hea|].
           intros [Hel|Hd]; apply Hda; [| now right].
           apply elem_of_cons in Hel as [->|Hel]; [contradiction | now left].
      * intros k tk Hk. destruct (decide (k0 = k)) as [<-|Hne].
        -- apply (Hdom2 k0 (PriceWatcher.set_intervalId None tk0)).
           rewrite Hm1. apply lookup_insert_eq.
        -- apply (Hdom2 k tk). rewrite Hm1. now rewrite lookup_insert_ne.
    + assert (Hsame : PriceWatcher.stopTrackingToken k0 w = w).
      { unfold PriceWatcher.stopTrackingToken. now rewrite Hk0. }
      rewrite Hsame.
      destruct (IH w Hl Hin) as (Hl2 & Hin2 & Hr2 & He2 & Hcfg2 & Hdom2).
      split; [exact Hl2|]. split; [exact Hin2|]. split; [exact Hr2|].
      split; [exact He2|]. split; [| exact Hdom2].
      intros k tk' Hk. destruct (Hcfg2 k tk' Hk) as (tk & Hkw & Hc & Hd).
      exists tk. split; [exact Hkw|]. split; [exact Hc|].
      intros [Hel|Hdef]; apply Hd; [| now right].
      apply elem_of_cons in Hel as [->|Hel]; [congruence | now left].
Qed.

Lemma trackedKeys_elem (w : PriceWatcher.t) (k : string) :
  k ∈ Spec.trackedKeys w <-> is_Some (PriceWatcher.trackedTokens w !! k).
Proof.
  unfold Spec.trackedKeys. rewrite list_elem_of_fmap. split.
  - intros [[k' tk] [-> H]]. apply elem_of_map_to_list in H. eauto.
  - intros [tk H]. exists (k, tk). split; [reflexivity|].
    now apply elem_of_map_to_list.
Qed.

Lemma start_scheduled (rows : list Database.WatchedToken)
    (order : list string) (w : PriceWatcher.t) (e : Env.t) :
  order ≡ₚ Spec.trackedKeys (PriceWatcher.load rows w) ->
  Spec.scheduled w ->
  Spec.scheduled (PriceWatcher.start rows order w e).1.
Proof.
  intros Horder Hs. unfold PriceWatcher.start.
  destruct (PriceWatcher.isRunning w) eqn:Hoff; [exact Hs|].
  destruct (scheduled_stopped w Hs Hoff) as [Hempty Hidle].
  set (wr := PriceWatcher.set_isRunning true w).
  destruct (load_shape rows wr) as (Ht & Hq & Hr & _ & Hm).
  set (wl := PriceWatcher.load rows wr) in *.
  assert (Hidle' : forall k tk,
            PriceWatcher.trackedTokens wl !! k = Some tk ->
            PriceWatcher.intervalId tk = None).
  { intros k tk Hk. destruct (Hm k tk Hk) as [Hold|(row & _ & _ & ->)].
    - exact (Hidle k tk Hold).
    - reflexivity. }
  assert (Hl : Spec.linked wl).
  { split.
    - intros id tm Htm. rewrite Ht in Htm. cbn in Htm. rewrite Hempty in Htm.
      now rewrite lookup_empty in Htm.
    - intros k tk id Hk Hi. rewrite (Hidle' k tk Hk) in Hi. discriminate. }
  assert (Hin : forall k, Spec.inStep wl k).
  { intros k tk id tm Hk Hi. rewrite (Hidle' k tk Hk) in Hi. discriminate. }
  destruct (startAll_linked order wl e Hl Hin) as (Hl2 & Hin2 & Hr2 & Hcfg2 & _).
  destruct (PriceWatcher.startAll order wl e) as [w2 e2]. cbn [fst] in *.
  apply (sameShape_scheduled w2); [now repeat split|].
  split; [exact Hl2|]. split; [exact Hin2|].
  intros k tk' Hk. rewrite Hr2, Hr. cbn.
  destruct (Hcfg2 k tk' Hk) as (tk & Hkl & _ & Hd). apply Hd. left.
  rewrite Horder. apply trackedKeys_elem. subst wl wr.
  rewrite (load_tracked rows w (PriceWatcher.set_isRunning true w) eq_refl).
  eauto.
Qed.

Lemma stop_scheduled (order : list string) (w : PriceWatcher.t) :
  order ≡ₚ Spec.trackedKeys w ->
  Spec.scheduled w ->
  Spec.scheduled (PriceWatcher.stop order w).
Proof.
  intros Horder Hs. unfold PriceWatcher.stop.
  destruct (PriceWatcher.isRunning w) eqn:Hon; [| exact Hs].
  destruct Hs as (Hl & Hin & _).
  set (wf := PriceWatcher.set_isRunning false w).
  assert (Hlf : Spec.linked wf) by (apply (linked_transfer w); auto).
  assert (Hinf : forall k, Spec.inStep wf k).
  { intros k. apply (inStep_transfer w); auto. }
  destruct (stopAll_linked order wf Hlf Hinf) as (Hl2 & Hin2 & Hr2 & _ & Hcfg2 & _).
  apply (sameShape_scheduled (PriceWatcher.stopAll order wf)); [now repeat split|].
  split; [exact Hl2|]. split; [exact Hin2|].
  intros k tk' Hk. rewrite Hr2. cbn.
  destruct (Hcfg2 k tk' Hk) as (tk & Hkw & _ & Hd).
  rewrite Hd; [reflexivity|]. left. rewrite Horder. apply trackedKeys_elem.
  cbn in Hkw. eauto.
Qed.

Lemma run_scheduled (op : Spec.Op) (s : PriceWatcher.t * Env.t) :
  Spec.allowed op s -> Spec.scheduled s.1 -> Spec.scheduled (Spec.run op s).1.
Proof.
  destruct s as [w e]. destruct op; cbn [Spec.run Spec.allowed fst snd]; intros Ha Hs.
  - now apply addToken_scheduled.
  - now apply addTokenAdvanced_scheduled.
  - now apply removeToken_scheduled.
  - now apply updateTokenConfig_scheduled.
  - now apply updateTokenAlerts_scheduled.
  - exact (sameShape_scheduled _ _ (checkTokenPrice_sameShape _ w e) Hs).
  - destruct Ha as [_ Horder]. now apply start_scheduled.
  - now apply stop_scheduled.
Qed.

Lemma sequential_scheduled (s : PriceWatcher.t * Env.t) :
  Spec.sequential s -> Spec.scheduled s.1.
Proof.
  induction 1 as [e _|op s _ IH Ha|w e e' _ IH _].
  - apply scheduled_init.
  - now apply run_scheduled.
  - exact IH.
Qed.

End Timers.

(** X10. The timers follow the tokens while the operations of the token
    watcher run one at a time (each command, each tick, each start and stop
    from its first statement to its last before the next begins). In every
    state between such operations every timer belongs to a tracked token
    that holds its handle, so no timer is left for a token that was removed;
    while the watcher runs each tracked token has a timer of its own whose
    period is the interval the token is configured with now, times 1000;
    while it is stopped there is no timer at all. An operation that runs
    while another is suspended at an [await] is outside this statement. *)
Theorem X10_timers_follow_tokens (s : PriceWatcher.t * Env.t) :
  Spec.sequential s ->
  let w := s.1 in
  (forall id tm,
     PriceWatcher.timers w !! id = Some tm ->
     exists token,
       PriceWatcher.trackedTokens w !! PriceWatcher.timerToken tm = Some token
       /\ PriceWatcher.intervalId token = Some id)
  /\ (PriceWatcher.isRunning w = true ->
      forall tc token,
        PriceWatcher.trackedTokens w !! tc = Some token ->
        exists id,
          PriceWatcher.intervalId token = Some id
          /\ PriceWatcher.timers w !! id
             = Some {| PriceWatcher.timerToken := tc;
                       PriceWatcher.timerMs :=
                         PriceWatcher.checkInterval (PriceWatcher.config token)
                         * 1000 |})
  /\ (PriceWatcher.isRunning w = false ->
      PriceWatcher.timers w = ∅
      /\ forall tc token,
           PriceWatcher.trackedTokens w !! tc = Some token ->
           PriceWatcher.intervalId token = None).
Proof.
  intros Hreach w. pose proof (sequential_scheduled s Hreach) as Hs. fold w in Hs.
  pose proof Hs as ([Ho Hv] & Hin & Hrun).
  split; [| split].
  - intros id tm Htm. exact (proj2 (Ho id tm Htm)).
  - intros Hon tc token Hk. specialize (Hrun tc token Hk). rewrite Hon in Hrun.
    destruct (PriceWatcher.intervalId token) as [id|] eqn:Hi; [| discriminate].
    exists id. split; [reflexivity|].
    destruct (Hv tc token id Hk Hi) as (tm & Htm & Hown).
    rewrite Htm. f_equal. pose proof (Hin tc token id tm Hk Hi Htm) as Hms.
    destruct tm. cbn in *. congruence.
  - intros Hoff. exact (scheduled_stopped w Hs Hoff).
Qed.

Lemma X10_timers_follow_tokens_witness :
  PriceWatcher.timers (Sample.added 100 []).1 = ∅.
Proof.
  refine (proj1 (proj2 (proj2
    (X10_timers_follow_tokens
       (Spec.run (Spec.AddToken "0xA1" "Agent" 2 60)
          (PriceWatcher.init,
           {| Env.api := Env.api (Sample.env 0 [100] [] []);
              Env.db := Database.empty; Env.now := 1000%Z |})) _)) _)).
  - apply Spec.seq_run; [apply Spec.seq_init | exact I].
    intros k row H. cbn in H. now rewrite lookup_empty in H.
  - vm_compute. reflexivity.
Defined.

(** ** Starting and stopping the token watcher *)

Section StartStop.

Lemma answer_elem (db : Database.t) (rows : list Database.WatchedToken)
    (row : Database.WatchedToken) :
  Database.getWatchedTokens true db rows ->
  Database.wfWatched db ->
  (row ∈ rows <->
   Database.watched_tokens db !! Database.wt_tokenContract row = Some row
   /\ Database.wt_isActive row = true).
Proof.
  unfold Database.getWatchedTokens. intros Hperm Hwf. rewrite Hperm.
  rewrite list_elem_of_filter, list_elem_of_fmap. split.
  - intros [Hact [[k row'] [-> Hin]]]. apply elem_of_map_to_list in Hin. cbn.
    rewrite (Hwf k row' Hin). split; [exact Hin | now apply Hact].
  - intros [Hin Hact]. split; [auto|].
    exists (Database.wt_tokenContract row, row). split; [reflexivity|].
    now apply elem_of_map_to_list.
Qed.

Lemma load_keeps (rows : list Database.WatchedToken) (w : PriceWatcher.t)
    (k : string) :
  is_Some (PriceWatcher.trackedTokens w !! k) ->
  is_Some (PriceWatcher.trackedTokens (PriceWatcher.load rows w) !! k).
Proof.
  unfold PriceWatcher.load. revert w.
  induction rows as [|row rows IH]; intros w Hk; cbn; [exact Hk|].
  apply IH. cbn. destruct (decide (Database.wt_tokenContract row = k)) as [<-|Hne].
  - rewrite lookup_insert_eq. eauto.
  - now rewrite lookup_insert_ne.
Qed.

Lemma load_dom (rows : list Database.WatchedToken) (w : PriceWatcher.t)
    (row : Database.WatchedToken) :
  row ∈ rows ->
  is_Some (PriceWatcher.trackedTokens (PriceWatcher.load rows w)
           !! Database.wt_tokenContract row).
Proof.
  revert w. induction rows as [|row0 rows IH]; intros w Hin; [inversion Hin|].
  apply elem_of_cons in Hin as [->|Hin].
  - change (PriceWatcher.load (row0 :: rows) w)
      with (PriceWatcher.load rows
              (PriceWatcher.set_trackedTokens
                 (<[Database.wt_tokenContract row0 := PriceWatcher.fromRow row0]>
                    (PriceWatcher.trackedTokens w)) w)).
    apply load_keeps. cbn. rewrite lookup_insert_eq. eauto.
  - now apply IH.
Qed.

End StartStop.

(** X13. Restart. [start] on a watcher as constructed, with the rows the
    database answers for its active rows, leaves the watcher running with
    exactly the tokens that have an active row: a token whose row is
    inactive is not tracked. Each token has the configuration of its row
    and a timer of its own at the interval of the row; the last event is
    [started]; and a second [start] changes nothing. *)
Theorem X13_start_restores_active_rows (rows : list Database.WatchedToken)
    (order : list string) (e : Env.t) :
  Database.wfWatched (Env.db e) ->
  Database.getWatchedTokens true (Env.db e) rows ->
  order ≡ₚ Spec.trackedKeys (PriceWatcher.load rows PriceWatcher.init) ->
  let r := PriceWatcher.start rows order PriceWatcher.init e in
  PriceWatcher.isRunning r.1 = true
  /\ (forall tc,
        is_Some (PriceWatcher.trackedTokens r.1 !! tc)
        <-> is_Some (Database.getWatchedToken tc (Env.db e)))
  /\ (forall tc token,
        PriceWatcher.trackedTokens r.1 !! tc = Some token ->
        exists row id,
          Database.getWatchedToken tc (Env.db e) = Some row
          /\ PriceWatcher.config token
             = PriceWatcher.config (PriceWatcher.fromRow row)
          /\ PriceWatcher.intervalId token = Some id
          /\ PriceWatcher.timers r.1 !! id
             = Some {| PriceWatcher.timerToken := tc;
                       PriceWatcher.timerMs :=
                         Database.wt_checkInterval row * 1000 |})
  /\ (exists l, PriceWatcher.emitted r.1 = l ++ [PriceWatcher.started])
  /\ (forall rows' order', PriceWatcher.start rows' order' r.1 r.2 = r).
Proof.
  intros Hwf Hrows Horder r.
  pose proof (start_scheduled rows order PriceWatcher.init e Horder scheduled_init)
    as Hs. fold r in Hs.
  assert (Hload : forall k tk,
            PriceWatcher.trackedTokens
              (PriceWatcher.load rows (PriceWatcher.set_isRunning true PriceWatcher.init))
            !! k = Some tk ->
            exists row, Database.getWatchedToken k (Env.db e) = Some row
                        /\ tk = PriceWatcher.fromRow row).
  { intros k tk Hk.
    destruct (load_shape rows (PriceWatcher.set_isRunning true PriceWatcher.init))
      as (_ & _ & _ & _ & Hm).
    destruct (Hm k tk Hk) as [Hold|(row & Hin & Hkey & ->)].
    - cbn in Hold. now rewrite lookup_empty in Hold.
    - apply (answer_elem _ _ _ Hrows Hwf) in Hin as [Hrow Hact].
      exists row. split; [| reflexivity].
      unfold Database.getWatchedToken. rewrite <- Hkey, Hrow. now rewrite Hact. }
  assert (Hl : Spec.linked
                 (PriceWatcher.load rows (PriceWatcher.set_isRunning true PriceWatcher.init))
               /\ forall k, Spec.inStep
                    (PriceWatcher.load rows (PriceWatcher.set_isRunning true PriceWatcher.init)) k).
  { destruct (load_shape rows (PriceWatcher.set_isRunning true PriceWatcher.init))
      as (Ht & _ & _ & _ & _).
    assert (Hidle : forall k tk,
              PriceWatcher.trackedTokens
                (PriceWatcher.load rows (PriceWatcher.set_isRunning true PriceWatcher.init))
              !! k = Some tk -> PriceWatcher.intervalId tk = None).
    { intros k tk Hk. now destruct (Hload k tk Hk) as (row & _ & ->). }
    split; [split|].
    - intros id tm Htm. rewrite Ht in Htm. cbn in Htm.
      now rewrite lookup_empty in Htm.
    - intros k tk id Hk Hi. rewrite (Hidle k tk Hk) in Hi. discriminate.
    - intros k tk id tm Hk Hi. rewrite (Hidle k tk Hk) in Hi. discriminate. }
  destruct Hl as [Hl Hin].
  destruct (startAll_linked order _ e Hl Hin) as (_ & _ & Hr2 & Hcfg2 & Hdom2).
  assert (Hr : r = (PriceWatcher.emit PriceWatcher.started
                      (PriceWatcher.startAll order
                         (PriceWatcher.load rows
                            (PriceWatcher.set_isRunning true PriceWatcher.init)) e).1,
                    (PriceWatcher.startAll order
                       (PriceWatcher.load rows
                          (PriceWatcher.set_isRunning true PriceWatcher.init)) e).2)).
  { subst r. unfold PriceWatcher.start. cbn [PriceWatcher.isRunning PriceWatcher.init].
    now destruct (PriceWatcher.startAll _ _ _). }
  set (wl := PriceWatcher.load rows (PriceWatcher.set_isRunning true PriceWatcher.init)) in *.
  set (s2 := PriceWatcher.startAll order wl e) in *.
  assert (Hon : PriceWatcher.isRunning r.1 = true).
  { rewrite Hr. cbn. rewrite Hr2.
    destruct (load_shape rows (PriceWatcher.set_isRunning true PriceWatcher.init))
      as (_ & _ & Hrun & _). exact Hrun. }
  assert (Hm : PriceWatcher.trackedTokens r.1 = PriceWatcher.trackedTokens s2.1)
    by now rewrite Hr.
  split; [exact Hon|]. split; [| split; [| split]].
  - intros tc. rewrite Hm. split.
    + intros [tk' Hk]. destruct (Hcfg2 tc tk' Hk) as (tk & Hkl & _).
      destruct (Hload tc tk Hkl) as (row & Hrow & _). eauto.
    + intros [row Hrow]. unfold Database.getWatchedToken in Hrow.
      destruct (Database.watched_tokens (Env.db e) !! tc) as [row'|] eqn:Hk;
        [| discriminate].
      destruct (Database.wt_isActive row') eqn:Hact; [| discriminate].
      pose proof (Hwf tc row' Hk) as Hkey.
      assert (Hin' : row' ∈ rows).
      { apply (answer_elem _ _ _ Hrows Hwf). now rewrite Hkey. }
      pose proof (load_dom rows (PriceWatcher.set_isRunning true PriceWatcher.init)
                    row' Hin') as [tk Hkl].
      rewrite Hkey in Hkl. exact (Hdom2 tc tk Hkl).
  - intros tc token Hk. rewrite Hm in Hk.
    destruct (Hcfg2 tc token Hk) as (tk & Hkl & Hc & _).
    destruct (Hload tc tk Hkl) as (row & Hrow & ->).
    destruct Hs as ([_ Hv] & Hstep & Hrun).
    rewrite <- Hm in Hk. specialize (Hrun tc token Hk). rewrite Hon in Hrun.
    destruct (PriceWatcher.intervalId token) as [id|] eqn:Hi; [| discriminate].
    exists row, id. split; [exact Hrow|]. split; [exact Hc|].
    split; [reflexivity|].
    destruct (Hv tc token id Hk Hi) as (tm & Htm & Hown).
    rewrite Htm. f_equal. pose proof (Hstep tc token id tm Hk Hi Htm) as Hms.
    rewrite Hc in Hms. destruct tm. cbn in *. congruence.
  - rewrite Hr. cbn. eauto.
  - intros rows' order'. unfold PriceWatcher.start at 1. rewrite Hon.
    now destruct r.
Qed.

Lemma X13_start_restores_active_rows_witness :
  is_Some
    (PriceWatcher.trackedTokens
       (PriceWatcher.start [Sample.row 100] ["0xA1"] PriceWatcher.init
          (Sample.restartEnv [100])).1 !! "0xA1")
  /\ ~ is_Some
        (PriceWatcher.trackedTokens
           (PriceWatcher.start [Sample.row 100] ["0xA1"] PriceWatcher.init
              (Sample.restartEnv [100])).1 !! "0xB2").
Proof.
  assert (Hwf : Database.wfWatched (Env.db (Sample.restartEnv [100]))).
  { change (map_Forall (fun k row => Database.wt_tokenContract row = k)
              (Database.watched_tokens (Env.db (Sample.restartEnv [100])))).
    refine (bool_decide_unpack _ _). vm_compute. exact I. }
  assert (Hrows : Database.getWatchedTokens true
                    (Env.db (Sample.restartEnv [100])) [Sample.row 100]).
  { unfold Database.getWatchedTokens. vm_compute. reflexivity. }
  assert (Horder : ["0xA1"] ≡ₚ Spec.trackedKeys
                     (PriceWatcher.load [Sample.row 100] PriceWatcher.init)).
  { vm_compute. reflexivity. }
  destruct (X13_start_restores_active_rows [Sample.row 100] ["0xA1"]
              (Sample.restartEnv [100]) Hwf Hrows Horder) as (_ & Hiff & _).
  split.
  - apply Hiff. vm_compute. eauto.
  - intros H. apply Hiff in H. vm_compute in H. destruct H as [x H]. discriminate.
Defined.

Section StopAnyState.

(** The loop of [stop] in any state: it takes the handle from every token
    it is given and clears the timers of these handles, no other. *)
Lemma stopAll_any (order : list string) (w : PriceWatcher.t) :
  let w' := PriceWatcher.stopAll order w in
  PriceWatcher.isRunning w' = PriceWatcher.isRunning w
  /\ PriceWatcher.emitted w' = PriceWatcher.emitted w
  /\ (forall k,
        PriceWatcher.trackedTokens w' !! k
        = (fun tk => if decide (k ∈ order)
                     then PriceWatcher.set_intervalId None tk else tk)
          <$> (PriceWatcher.trackedTokens w !! k))
  /\ (forall id tm,
        PriceWatcher.timers w' !! id = Some tm <->
        PriceWatcher.timers w !! id = Some tm
        /\ forall k tk,
             k ∈ order -> PriceWatcher.trackedTokens w !! k = Some tk ->
             PriceWatcher.intervalId tk <> Some id).
Proof.
  revert w. induction order as [|k0 order IH]; intros w; cbn zeta.
  - cbn. split; [reflexivity|]. split; [reflexivity|]. split.
    + intros k. destruct (decide (k ∈ [])) as [H|_]; [inversion H|].
      now destruct (PriceWatcher.trackedTokens w !! k).
    + intros id tm. split; [intros H; split; [exact H|] | tauto].
      intros k tk H'. inversion H'.
  - rewrite stopAll_cons.
    set (w1 := PriceWatcher.stopTrackingToken k0 w).
    destruct (IH w1) as (Hr & He & Hm & Ht).
    assert (H1 : PriceWatcher.isRunning w1 = PriceWatcher.isRunning w
                 /\ PriceWatcher.emitted w1 = PriceWatcher.emitted w
                 /\ (forall k,
                       PriceWatcher.trackedTokens w1 !! k
                       = (fun tk => if decide (k = k0)
                                    then PriceWatcher.set_intervalId None tk
                                    else tk)
                         <$> (PriceWatcher.trackedTokens w !! k))
                 /\ (forall id,
                       PriceWatcher.timers w1 !! id
                       = match PriceWatcher.trackedTokens w !! k0 with
                         | Some tk0 =>
                           if decide (PriceWatcher.intervalId tk0 = Some id)
                           then None else PriceWatcher.timers w !! id
                         | None => PriceWatcher.timers w !! id
                         end)).
    { subst w1. unfold PriceWatcher.stopTrackingToken.
      destruct (PriceWatcher.trackedTokens w !! k0) as [tk0|] eqn:Hk0.
      - destruct (PriceWatcher.intervalId tk0) as [id0|] eqn:Hid0; cbn.
        + split; [reflexivity|]. split; [reflexivity|]. split.
          * intros k. destruct (decide (k = k0)) as [->|Hne].
            -- now rewrite lookup_insert_eq, Hk0.
            -- rewrite lookup_insert_ne by congruence.
               now destruct (PriceWatcher.trackedTokens w !! k).
          * intros id. destruct (decide (Some id0 = Some id)) as [[= ->]|Hne].
            -- apply lookup_delete_eq.
            -- apply lookup_delete_ne. congruence.
        + split; [reflexivity|]. split; [reflexivity|]. split.
          * intros k. destruct (decide (k = k0)) as [->|Hne].
            -- rewrite Hk0. cbn. f_equal. destruct tk0. cbn in *. now subst.
            -- now destruct (PriceWatcher.trackedTokens w !! k).
          * intros id. now rewrite decide_False by discriminate.
      - split; [reflexivity|]. split; [reflexivity|]. split; [| reflexivity].
        intros k. destruct (decide (k = k0)) as [->|Hne].
        + now rewrite Hk0.
        + now destruct (PriceWatcher.trackedTokens w !! k). }
    destruct H1 as (Hr1 & He1 & Hm1 & Ht1).
    split; [congruence|]. split; [congruence|]. split.
    + intros k. rewrite Hm, Hm1.
      destruct (PriceWatcher.trackedTokens w !! k) as [tk|]; [| reflexivity].
      cbn. f_equal.
      destruct (decide (k = k0)) as [->|Hne].
      * rewrite (decide_True (P := k0 ∈ k0 :: order)) by left.
        now destruct (decide (k0 ∈ order)).
      * destruct (decide (k ∈ order)) as [Hin|Hnin].
        -- now rewrite (decide_True (P := k ∈ k0 :: order)) by now right.
        -- rewrite (decide_False (P := k ∈ k0 :: order)); [reflexivity|].
           intros Hin. apply elem_of_cons in Hin as [->|Hin]; contradiction.
    + intros id tm. rewrite Ht. rewrite Ht1. split.
      * intros [Hid Hrest].
        assert (Hw : PriceWatcher.timers w !! id = Some tm
                     /\ forall tk0, PriceWatcher.trackedTokens w !! k0 = Some tk0 ->
                                    PriceWatcher.intervalId tk0 <> Some id).
        { destruct (PriceWatcher.trackedTokens w !! k0) as [tk0|].
          - destruct (decide (PriceWatcher.intervalId tk0 = Some id)) as [Heq|Hne];
              [discriminate|]. split; [exact Hid|]. now intros ? [= <-].
          - split; [exact Hid | discriminate]. }
        destruct Hw as [Hw Hk0]. split; [exact Hw|].
        intros k tk Hin Hk. destruct (decide (k = k0)) as [->|Hne];
          [now apply Hk0|].
        apply elem_of_cons in Hin as [->|Hin]; [contradiction|].
        apply (Hrest k tk Hin). rewrite Hm1, Hk. cbn.
        now rewrite decide_False by exact Hne.
      * intros [Hid Hall]. split.
        -- destruct (PriceWatcher.trackedTokens w !! k0) as [tk0|] eqn:Hk0;
             [| exact Hid].
           rewrite decide_False; [exact Hid|].
           apply (Hall k0 tk0); [left | exact Hk0].
        -- intros k tk1 Hin Hk1. rewrite Hm1 in Hk1.
           destruct (PriceWatcher.trackedTokens w !! k) as [tk|] eqn:Hk;
             [| discriminate].
           cbn in Hk1. injection Hk1 as <-.
           destruct (decide (k = k0)); [cbn; discriminate|].
           apply (Hall k tk); [now right | exact Hk].
Qed.

End StopAnyState.

(** X14. [stop] on a running watcher, in any state: the watcher no longer
    runs, [stopped] is emitted, every tracked token stays tracked, without
    its handle and otherwise as it was, and the timers cleared are the
    timers whose handle a tracked token holds; a timer no tracked token
    holds the handle of is left. [stop] on the stopped watcher changes
    nothing. *)
Theorem X14_stop_clears_timers (w : PriceWatcher.t) (order : list string) :
  PriceWatcher.isRunning w = true ->
  order ≡ₚ Spec.trackedKeys w ->
  let w' := PriceWatcher.stop order w in
  PriceWatcher.isRunning w' = false
  /\ PriceWatcher.emitted w' = PriceWatcher.emitted w ++ [PriceWatcher.stopped]
  /\ (forall k,
        PriceWatcher.trackedTokens w' !! k
        = PriceWatcher.set_intervalId None <$> (PriceWatcher.trackedTokens w !! k))
  /\ (forall id tm,
        PriceWatcher.timers w' !! id = Some tm <->
        PriceWatcher.timers w !! id = Some tm
        /\ forall k tk,
             PriceWatcher.trackedTokens w !! k = Some tk ->
             PriceWatcher.intervalId tk <> Some id)
  /\ (forall order', PriceWatcher.stop order' w' = w').
Proof.
  intros Hon Horder w'.
  set (wf := PriceWatcher.set_isRunning false w).
  destruct (stopAll_any order wf) as (Hr & He & Hm & Ht).
  assert (Hw' : w' = PriceWatcher.emit PriceWatcher.stopped
                       (PriceWatcher.stopAll order wf)).
  { subst w'. unfold PriceWatcher.stop. now rewrite Hon. }
  assert (Hoff : PriceWatcher.isRunning w' = false).
  { rewrite Hw'. cbn. now rewrite Hr. }
  assert (Hin : forall k tk, PriceWatcher.trackedTokens w !! k = Some tk ->
                             k ∈ order).
  { intros k tk Hk. rewrite Horder. apply trackedKeys_elem. eauto. }
  assert (Htimers : forall id tm,
            PriceWatcher.timers w' !! id = Some tm <->
            PriceWatcher.timers w !! id = Some tm
            /\ forall k tk,
                 PriceWatcher.trackedTokens w !! k = Some tk ->
                 PriceWatcher.intervalId tk <> Some id).
  { intros id tm. rewrite Hw'. cbn [PriceWatcher.timers PriceWatcher.emit].
    rewrite Ht. cbn. split; intros [Hid Hall]; (split; [exact Hid|]).
    - intros k tk Hk. exact (Hall k tk (Hin k tk Hk) Hk).
    - intros k tk _ Hk. exact (Hall k tk Hk). }
  split; [exact Hoff|].
  split; [rewrite Hw'; cbn; now rewrite He|].
  split; [|split; [exact Htimers|]].
  - intros k. rewrite Hw'. cbn [PriceWatcher.trackedTokens PriceWatcher.emit].
    rewrite Hm. cbn.
    destruct (PriceWatcher.trackedTokens w !! k) as [tk|] eqn:Hk; [| reflexivity].
    cbn. now rewrite decide_True by exact (Hin k tk Hk).
  - intros order'. unfold PriceWatcher.stop. now rewrite Hoff.
Qed.

Lemma X14_stop_clears_timers_witness :
  PriceWatcher.isRunning
    (PriceWatcher.stop ["0xA1"]
       (PriceWatcher.start [Sample.row 100] ["0xA1"] PriceWatcher.init
          (Sample.restartEnv [100])).1) = false.
Proof.
  refine (proj1
    (X14_stop_clears_timers
       (PriceWatcher.start [Sample.row 100] ["0xA1"] PriceWatcher.init
          (Sample.restartEnv [100])).1
       ["0xA1"] _ _)).
  - vm_compute. reflexivity.
  - vm_compute. reflexivity.
Defined.

(** ** Memory and database *)

Section Synced.




















End Synced.



(** ** Queries of the database *)

Section Queries.

#[local] Instance newerFirst_transitive : Transitive Database.newerFirst.
Proof. unfold Database.newerFirst. intros x y z ? ?. lia. Qed.

#[local] Instance newerFirst_connected : Total Database.newerFirst.
Proof. unfold Database.newerFirst. intros x y. lia. Qed.

Lemma sorted_elem (tc : string) (rows : list Database.PriceHistoryRecord)
    (r : Database.PriceHistoryRecord) :
  r ∈ merge_sort Database.newerFirst (Database.partitionOf tc rows)
  <-> r ∈ rows /\ Database.ph_tokenContract r = tc.
Proof.
  rewrite merge_sort_Permutation. unfold Database.partitionOf.
  rewrite list_elem_of_filter. tauto.
Qed.

Lemma merge_sort_newerFirst (l : list Database.PriceHistoryRecord) :
  StronglySorted Database.newerFirst (merge_sort Database.newerFirst l).
Proof. apply StronglySorted_merge_sort; apply _. Qed.

Lemma head_take_1 {A} (l : list A) : head (take 1 l) = head l.
Proof. now destruct l. Qed.

(** The head of a list sorted newest first is at least as new as every
    element. *)
Lemma sorted_head (l : list Database.PriceHistoryRecord)
    (r r' : Database.PriceHistoryRecord) :
  StronglySorted Database.newerFirst l -> head l = Some r -> r' ∈ l ->
  Database.newerFirst r r'.
Proof.
  intros Hs Hh Hin. destruct l as [|x l]; [discriminate|].
  injection Hh as ->. apply elem_of_cons in Hin as [->|Hin].
  - unfold Database.newerFirst. lia.
  - apply StronglySorted_inv in Hs as [_ Hall].
    rewrite Forall_forall in Hall. now apply Hall.
Qed.

Lemma filter_all {A} (P : A -> Prop) `{!forall x, Decision (P x)} (l : list A) :
  (forall x, x ∈ l -> P x) -> filter P l = l.
Proof.
  induction l as [|x l IH]; intros Hall; [reflexivity|].
  rewrite filter_cons_True by (apply Hall; left).
  f_equal. apply IH. intros y Hy. apply Hall. now right.
Qed.

(** A table in which no token has more than [keep] rows loses none. *)
Lemma deleteOld_all (keep : nat) (rows : list Database.PriceHistoryRecord) :
  NoDup (Database.ph_id <$> rows) ->
  (forall tc, (length (Database.partitionOf tc rows) <= keep)%nat) ->
  Database.deleteOld keep rows = rows.
Proof.
  intros Hnd Hle. unfold Database.deleteOld. apply filter_all. intros r Hr.
  apply (kept_iff keep rows r Hnd Hr). rewrite take_ge.
  - apply sorted_elem. auto.
  - rewrite (Permutation_length (merge_sort_Permutation _ _)). apply Hle.
Qed.

Lemma partitionOf_snoc (tc : string) (rows : list Database.PriceHistoryRecord)
    (r : Database.PriceHistoryRecord) :
  Database.partitionOf tc (rows ++ [r])
  = Database.partitionOf tc rows
    ++ (if decide (Database.ph_tokenContract r = tc) then [r] else []).
Proof.
  unfold Database.partitionOf. rewrite filter_app. reflexivity.
Qed.

Lemma mark_absent (id : nat) (l : list Database.AlertRecord) :
  (forall a, a ∈ l -> Database.al_id a <> id) ->
  (fun r => if decide (Database.al_id r = id) then Database.set_triggered r else r)
    <$> l = l.
Proof.
  induction l as [|a l IH]; intros Hall; [reflexivity|]. cbn.
  rewrite decide_False by (apply Hall; left).
  f_equal. apply IH. intros b Hb. apply Hall. now right.
Qed.


End Queries.

Section HistoryQuery.


End HistoryQuery.


(** X15. A sample stored with [addPriceHistory] at an instant later than
    every stored sample of its token is what [getLatestPrice] answers with
    for that token next, under the id the sequence issues; the history of
    every other token reads as before. *)
Theorem X15_latest_price_is_last_insert (tokenContract tokenName : string)
    (p : Q) (timestamp : Z) (db : Database.t) :
  (forall r, r ∈ Database.price_history db ->
             Database.ph_tokenContract r = tokenContract ->
             (Database.ph_timestamp r < timestamp)%Z) ->
  let db' := Database.addPriceHistory tokenContract tokenName p timestamp db in
  Database.getLatestPrice tokenContract db'
  = Some {| Database.ph_id := S (Database.price_history_seq db);
            Database.ph_tokenContract := tokenContract;
            Database.ph_tokenName := tokenName;
            Database.ph_price := p;
            Database.ph_timestamp := timestamp |}
  /\ (forall limit,
        length (Database.getPriceHistory tokenContract limit db')
        = limit `min` S (length (Database.partitionOf tokenContract
                                   (Database.price_history db))))
  /\ (forall other limit,
        other <> tokenContract ->
        Database.getPriceHistory other limit db'
        = Database.getPriceHistory other limit db).
Proof.
  intros Hnew db'. subst db'.
  unfold Database.getLatestPrice, Database.getPriceHistory,
    Database.addPriceHistory. cbn [Database.price_history].
  set (new := {| Database.ph_id := _ |}). set (rows := Database.price_history db) in *.
  split; [|split].
  - rewrite head_take_1.
    set (l := merge_sort Database.newerFirst _).
    assert (Hin : new ∈ l).
    { apply sorted_elem. split; [| reflexivity]. apply elem_of_app. right. left. }
    destruct (head l) as [x|] eqn:Hh.
    + pose proof (sorted_head l x new (merge_sort_newerFirst _) Hh Hin) as Hge.
      apply head_Some_elem_of in Hh. apply sorted_elem in Hh as [Hx Htc].
      apply elem_of_app in Hx as [Hx|Hx].
      * specialize (Hnew x Hx Htc). unfold Database.newerFirst in Hge.
        cbn in Hge. lia.
      * apply list_elem_of_singleton in Hx. now subst x.
    + destruct l; [inversion Hin | discriminate].
  - intros limit. rewrite length_take.
    rewrite (Permutation_length (merge_sort_Permutation _ _)), partitionOf_snoc.
    cbn. rewrite decide_True by reflexivity. rewrite length_app. cbn. lia.
  - intros other limit Hne. rewrite partitionOf_snoc. cbn.
    rewrite decide_False by congruence. now rewrite app_nil_r.
Qed.

Lemma X15_latest_price_is_last_insert_witness :
  Database.ph_price <$>
    Database.getLatestPrice "0xA1"
      (Database.addPriceHistory "0xA1" "Agent" 105 2000
         (Database.addPriceHistory "0xA1" "Agent" 100 1000 Database.empty))
  = Some 105.
Proof.
  rewrite (proj1 (X15_latest_price_is_last_insert "0xA1" "Agent" 105 2000
             (Database.addPriceHistory "0xA1" "Agent" 100 1000 Database.empty)
             ltac:(intros r Hr _; apply list_elem_of_singleton in Hr; subst r;
                   cbn; lia))).
  reflexivity.
Defined.

(** X16. [cleanOldPriceHistory] has nothing left to delete after it ran:
    run again at once it leaves the table as it is, and it deletes nothing
    from a table in which no token has more than 1000 rows. *)
Theorem X16_cleanOldPriceHistory_idempotent (db : Database.t) :
  Database.wf db ->
  Database.cleanOldPriceHistory (Database.cleanOldPriceHistory db)
  = Database.cleanOldPriceHistory db
  /\ ((forall tc, (length (Database.partitionOf tc (Database.price_history db))
                  <= 1000)%nat) ->
      Database.price_history (Database.cleanOldPriceHistory db)
      = Database.price_history db).
Proof.
  intros [Hnd Hseq]. split.
  - unfold Database.cleanOldPriceHistory. cbn. f_equal.
    apply deleteOld_all.
    + eapply sublist_NoDup; [exact Hnd|].
      apply fmap_sublist, deleteOld_sublist.
    + intros tc. now apply deleteOld_bound.
  - intros Hle. cbn. now apply deleteOld_all.
Qed.

Lemma X16_cleanOldPriceHistory_idempotent_witness :
  Database.cleanOldPriceHistory
    (Database.cleanOldPriceHistory
       (Database.addPriceHistory "0xA1" "Agent" 100 1000 Database.empty))
  = Database.cleanOldPriceHistory
      (Database.addPriceHistory "0xA1" "Agent" 100 1000 Database.empty).
Proof.
  apply (X16_cleanOldPriceHistory_idempotent
           (Database.addPriceHistory "0xA1" "Agent" 100 1000 Database.empty)).
  apply addPriceHistory_wf, wf_empty.
Defined.

(** X17. The rows of [alerts]. With ids as AUTOINCREMENT issues them,
    [addAlert] answers with an id no stored alert has and appends one row
    under it, with the token contract as given or, for an empty or a missing
    one, none; [markAlertAsTriggered] with that id sets [triggered] on that
    row and on no other; with an id no row has it changes no row; run twice
    it does what it does once. *)
Theorem X17_alert_rows (type : Database.AlertCategory)
    (tokenContract : option string) (message : Database.Message)
    (timestamp : Z) (triggered : bool) (db : Database.t) :
  Database.wfAlerts db ->
  let r := Database.addAlert type tokenContract message timestamp triggered db in
  (forall a, a ∈ Database.alerts db -> Database.al_id a <> r.1)
  /\ Database.wfAlerts r.2
  /\ Database.alerts (Database.markAlertAsTriggered r.1 r.2)
     = Database.alerts db
       ++ [{| Database.al_id := r.1; Database.al_type := type;
              Database.al_tokenContract := Database.orNull tokenContract;
              Database.al_message := message;
              Database.al_timestamp := timestamp;
              Database.al_triggered := true |}]
  /\ (forall id,
        (forall a, a ∈ Database.alerts db -> Database.al_id a <> id) ->
        Database.markAlertAsTriggered id db = db)
  /\ (forall id,
        Database.markAlertAsTriggered id (Database.markAlertAsTriggered id db)
        = Database.markAlertAsTriggered id db).
Proof.
  intros [Hnd Hseq] r. subst r. cbn [fst snd Database.addAlert].
  rewrite Forall_forall in Hseq.
  assert (Hfresh : forall a, a ∈ Database.alerts db ->
                     Database.al_id a <> S (Database.alerts_seq db)).
  { intros a Ha. specialize (Hseq a Ha). lia. }
  split; [exact Hfresh|]. split; [|split; [|split]].
  - split; cbn.
    + rewrite fmap_app. cbn. apply NoDup_app. split; [exact Hnd|]. split.
      * intros i Hi Hi'. apply list_elem_of_singleton in Hi'. subst i.
        apply list_elem_of_fmap in Hi as (a & Ha & Hin).
        exact (Hfresh a Hin (eq_sym Ha)).
      * apply NoDup_singleton.
    + rewrite Forall_forall. intros a Ha. apply elem_of_app in Ha as [Ha|Ha].
      * specialize (Hseq a Ha). lia.
      * apply list_elem_of_singleton in Ha. subst a. cbn. lia.
  - cbn. rewrite fmap_app, (mark_absent _ _ Hfresh). cbn.
    now rewrite decide_True by reflexivity.
  - intros id Hid. unfold Database.markAlertAsTriggered.
    rewrite (mark_absent id _ Hid). now destruct db.
  - intros id. unfold Database.markAlertAsTriggered. cbn. f_equal.
    rewrite <- list_fmap_compose. apply list_fmap_ext. intros i a _. cbn.
    destruct (decide (Database.al_id a = id)) as [Heq|Hne]; cbn.
    + now rewrite decide_True by exact Heq.
    + now rewrite decide_False by exact Hne.
Qed.

Lemma X17_alert_rows_witness :
  let r := Database.addAlert Database.price (Some "0xA1")
             (Database.ThresholdMessage 1 1) 1000 false Database.empty in
  Database.al_triggered <$>
    Database.alerts (Database.markAlertAsTriggered r.1 r.2)
  = [true].
Proof.
  intros r. subst r.
  rewrite (proj1 (proj2 (proj2
    (X17_alert_rows Database.price (Some "0xA1")
       (Database.ThresholdMessage 1 1) 1000 false Database.empty
       ltac:(split; constructor))))).
  reflexivity.
Defined.


(** ** Starting and stopping the holdings watcher and the IQ watcher *)

Section TimedWatchers.

Lemma checkHoldings_set_isRunning (b : bool) (w : HoldingsWatcher.t)
    (e : Env.t) :
  HoldingsWatcher.checkHoldings (HoldingsWatcher.set_isRunning b w) e
  = (HoldingsWatcher.set_isRunning b (HoldingsWatcher.checkHoldings w e).1,
     (HoldingsWatcher.checkHoldings w e).2).
Proof.
  unfold HoldingsWatcher.checkHoldings.
  destruct (AgentsApi.getHoldings _ (Env.api e)) as [[hd|err] api'];
    [| reflexivity].
  cbn -[Num.geb Num.gtb Num.ltb AgentsApi.calculatePercentageChange
        AgentsApi.calculateHoldingsValue].
  destruct (Num.gtb (HoldingsWatcher.lastKnownValue w) 0);
    [destruct (_ && _)|];
    cbn -[Num.geb Num.gtb Num.ltb AgentsApi.calculatePercentageChange
          AgentsApi.calculateHoldingsValue];
    (destruct (_ && negb _); [reflexivity|]; destruct (_ && _); reflexivity).
Qed.

(** While the latch is set, a cycle raises no milestone alert. *)
Lemma checkHoldings_latched (w : HoldingsWatcher.t) (e : Env.t) :
  HoldingsWatcher.thresholdReached w = true ->
  Spec.holdingsAlertsOf HoldingsWatcher.threshold_reached
    (HoldingsWatcher.emitted (HoldingsWatcher.checkHoldings w e).1)
  = Spec.holdingsAlertsOf HoldingsWatcher.threshold_reached
      (HoldingsWatcher.emitted w).
Proof.
  intros Hlatch.
  unfold HoldingsWatcher.checkHoldings, Spec.holdingsAlertsOf.
  destruct (AgentsApi.getHoldings _ (Env.api e)) as [[hd|err] api'].
  - destruct (Num.gtb (HoldingsWatcher.lastKnownValue w) 0);
      [destruct (_ && _)|];
      cbn -[Num.geb Num.gtb Num.ltb AgentsApi.calculatePercentageChange
            AgentsApi.calculateHoldingsValue];
      rewrite Hlatch, andb_false_r;
      (destruct (_ && _); cbn;
       rewrite ?holdingsAlerts_app, ?List.filter_app; cbn;
       rewrite ?app_nil_r; reflexivity).
  - cbn. rewrite holdingsAlerts_app, List.filter_app. cbn. apply app_nil_r.
Qed.

Lemma start_holdings (id : nat) (w : HoldingsWatcher.t) (e : Env.t) :
  HoldingsWatcher.isRunning w = false ->
  HoldingsWatcher.start id w e
  = (HoldingsWatcher.emit HoldingsWatcher.started
       (HoldingsWatcher.set_intervalId (Some id)
          (HoldingsWatcher.set_isRunning true
             (HoldingsWatcher.checkHoldings w e).1)),
     (HoldingsWatcher.checkHoldings w e).2).
Proof.
  intros Hoff. unfold HoldingsWatcher.start.
  now rewrite Hoff, checkHoldings_set_isRunning.
Qed.

Lemma checkIQPrice_set_isRunning (b : bool) (w : IQPriceWatcher.t)
    (e : Env.t) :
  IQPriceWatcher.checkIQPrice (IQPriceWatcher.set_isRunning b w) e
  = (IQPriceWatcher.set_isRunning b (IQPriceWatcher.checkIQPrice w e).1,
     (IQPriceWatcher.checkIQPrice w e).2).
Proof.
  unfold IQPriceWatcher.checkIQPrice.
  destruct (AgentsApi.getPrices (Env.api e)) as [[pd|err] api'];
    [| reflexivity].
  cbn -[Num.geb Num.gtb Num.eqb AgentsApi.calculatePercentageChange
        IQPriceWatcher.classify].
  destruct (Num.gtb (IQPriceWatcher.lastKnownPrice w) 0); [| reflexivity].
  destruct (Num.eqb _ 0); [reflexivity|].
  destruct (_ && _); reflexivity.
Qed.

Lemma start_iq (id : nat) (w : IQPriceWatcher.t) (e : Env.t) :
  IQPriceWatcher.isRunning w = false ->
  IQPriceWatcher.start id w e
  = (IQPriceWatcher.emit IQPriceWatcher.started
       (IQPriceWatcher.set_intervalId (Some id)
          (IQPriceWatcher.set_isRunning true
             (IQPriceWatcher.checkIQPrice w e).1)),
     (IQPriceWatcher.checkIQPrice w e).2).
Proof.
  intros Hoff. unfold IQPriceWatcher.start.
  now rewrite Hoff, checkIQPrice_set_isRunning.
Qed.

End TimedWatchers.

(** X19. Starting and stopping the holdings watcher, in any state. A
    start of a stopped watcher is one cycle, then the timer, then the event
    [started], and it takes place whether the fetch of the cycle succeeds or
    not; a start of a running watcher does nothing. A stop of a running
    watcher leaves it stopped, without a handle, with [stopped] emitted, and
    keeps its configuration, its last value and its latch, so that starting
    it again raises no milestone alert while the latch is set; a stop of a
    stopped watcher does nothing. *)
Theorem X19_holdings_start_stop (w : HoldingsWatcher.t) :
  (forall id e,
     HoldingsWatcher.isRunning w = false ->
     let r := HoldingsWatcher.start id w e in
     let k := HoldingsWatcher.checkHoldings w e in
     HoldingsWatcher.isRunning r.1 = true
     /\ HoldingsWatcher.intervalId r.1 = Some id
     /\ HoldingsWatcher.emitted r.1
        = HoldingsWatcher.emitted k.1 ++ [HoldingsWatcher.started]
     /\ HoldingsWatcher.lastKnownValue r.1 = HoldingsWatcher.lastKnownValue k.1
     /\ HoldingsWatcher.thresholdReached r.1
        = HoldingsWatcher.thresholdReached k.1
     /\ r.2 = k.2)
  /\ (forall id e,
        HoldingsWatcher.isRunning w = true ->
        HoldingsWatcher.start id w e = (w, e))
  /\ (HoldingsWatcher.isRunning w = true ->
      let w' := HoldingsWatcher.stop w in
      HoldingsWatcher.isRunning w' = false
      /\ HoldingsWatcher.intervalId w' = None
      /\ HoldingsWatcher.config w' = HoldingsWatcher.config w
      /\ HoldingsWatcher.lastKnownValue w' = HoldingsWatcher.lastKnownValue w
      /\ HoldingsWatcher.thresholdReached w' = HoldingsWatcher.thresholdReached w
      /\ HoldingsWatcher.emitted w'
         = HoldingsWatcher.emitted w ++ [HoldingsWatcher.stopped])
  /\ (HoldingsWatcher.isRunning w = false -> HoldingsWatcher.stop w = w)
  /\ (forall id e,
        HoldingsWatcher.isRunning w = true ->
        HoldingsWatcher.thresholdReached w = true ->
        Spec.holdingsAlertsOf HoldingsWatcher.threshold_reached
          (HoldingsWatcher.emitted
             (HoldingsWatcher.start id (HoldingsWatcher.stop w) e).1)
        = Spec.holdingsAlertsOf HoldingsWatcher.threshold_reached
            (HoldingsWatcher.emitted w)).
Proof.
  split; [|split; [|split; [|split]]].
  - intros id e Hoff r k. subst r k. rewrite (start_holdings id w e Hoff).
    cbn. repeat split.
  - intros id e Hon. unfold HoldingsWatcher.start. now rewrite Hon.
  - intros Hon. unfold HoldingsWatcher.stop. rewrite Hon. cbn.
    destruct (HoldingsWatcher.intervalId w) eqn:Hid; cbn; rewrite ?Hid;
      repeat split.
  - intros Hoff. unfold HoldingsWatcher.stop. now rewrite Hoff.
  - intros id e Hon Hlatch.
    assert (Hstop : exists ws,
              HoldingsWatcher.stop w = ws
              /\ HoldingsWatcher.isRunning ws = false
              /\ HoldingsWatcher.thresholdReached ws = true
              /\ HoldingsWatcher.emitted ws
                 = HoldingsWatcher.emitted w ++ [HoldingsWatcher.stopped]).
    { eexists. split; [reflexivity|]. unfold HoldingsWatcher.stop. rewrite Hon.
      cbn. destruct (HoldingsWatcher.intervalId w); cbn; auto. }
    destruct Hstop as (ws & -> & Hoff & Hls & Hes).
    rewrite (start_holdings id ws e Hoff). cbn [fst].
    pose proof (checkHoldings_latched ws e Hls) as Hk.
    unfold Spec.holdingsAlertsOf in *. cbn.
    rewrite holdingsAlerts_app, List.filter_app, Hk, Hes. cbn.
    rewrite holdingsAlerts_app, List.filter_app. cbn. now rewrite !app_nil_r.
Qed.

(** X20. Starting and stopping the IQ watcher, in any state. A start of a
    stopped watcher is one cycle, then the timer, then the event [started],
    whether the fetch of the cycle succeeds or not; a start of a running
    watcher does nothing. A stop of a running watcher leaves it stopped,
    without a handle, with [stopped] emitted, and keeps its configuration
    and its last price; a stop of a stopped watcher does nothing. The first
    start of a watcher just constructed raises no alert. *)
Theorem X20_iq_start_stop (w : IQPriceWatcher.t) :
  (forall id e,
     IQPriceWatcher.isRunning w = false ->
     let r := IQPriceWatcher.start id w e in
     let k := IQPriceWatcher.checkIQPrice w e in
     IQPriceWatcher.isRunning r.1 = true
     /\ IQPriceWatcher.intervalId r.1 = Some id
     /\ IQPriceWatcher.emitted r.1
        = IQPriceWatcher.emitted k.1 ++ [IQPriceWatcher.started]
     /\ IQPriceWatcher.lastKnownPrice r.1 = IQPriceWatcher.lastKnownPrice k.1
     /\ r.2 = k.2)
  /\ (forall id e,
        IQPriceWatcher.isRunning w = true ->
        IQPriceWatcher.start id w e = (w, e))
  /\ (IQPriceWatcher.isRunning w = true ->
      let w' := IQPriceWatcher.stop w in
      IQPriceWatcher.isRunning w' = false
      /\ IQPriceWatcher.intervalId w' = None
      /\ IQPriceWatcher.config w' = IQPriceWatcher.config w
      /\ IQPriceWatcher.lastKnownPrice w' = IQPriceWatcher.lastKnownPrice w
      /\ IQPriceWatcher.emitted w'
         = IQPriceWatcher.emitted w ++ [IQPriceWatcher.stopped])
  /\ (IQPriceWatcher.isRunning w = false -> IQPriceWatcher.stop w = w)
  /\ (forall c time id e,
        Spec.iqAlerts
          (IQPriceWatcher.emitted
             (IQPriceWatcher.start id (IQPriceWatcher.new c time) e).1)
        = []).
Proof.
  split; [|split; [|split; [|split]]].
  - intros id e Hoff r k. subst r k. rewrite (start_iq id w e Hoff).
    cbn. repeat split.
  - intros id e Hon. unfold IQPriceWatcher.start. now rewrite Hon.
  - intros Hon. unfold IQPriceWatcher.stop. rewrite Hon. cbn.
    destruct (IQPriceWatcher.intervalId w) eqn:Hid; cbn; rewrite ?Hid;
      repeat split.
  - intros Hoff. unfold IQPriceWatcher.stop. now rewrite Hoff.
  - intros c time id e. rewrite start_iq by reflexivity. cbn [fst].
    pose proof (checkIQPrice_no_baseline (IQPriceWatcher.new c time) e) as Hk.
    cbn [IQPriceWatcher.emitted IQPriceWatcher.emit
         IQPriceWatcher.set_intervalId IQPriceWatcher.set_isRunning].
    rewrite iqAlerts_app, Hk by (cbn; lra). reflexivity.
Qed.

(** ** Alert flags and tiers of a token *)

Section TokenSettings.

Lemma classify_muted (cfg : PriceWatcher.TokenWatchConfig) (p : Q) :
  (forall t, Spec.enabled cfg t = false) ->
  PriceWatcher.shouldAlert (PriceWatcher.classify cfg p) = false.
Proof.
  intros Hoff. unfold PriceWatcher.classify.
  destruct (Num.geb _ _); [exact (Hoff Alert.crit)|].
  destruct (Num.geb _ _); [exact (Hoff Alert.major)|].
  destruct (Num.geb _ _); [exact (Hoff Alert.minor) | reflexivity].
Qed.

Lemma checkTokenPrice_muted (tokenContract : string) (w : PriceWatcher.t)
    (e : Env.t) (token : PriceWatcher.TrackedToken) :
  PriceWatcher.trackedTokens w !! tokenContract = Some token ->
  (forall t, Spec.enabled (PriceWatcher.config token) t = false) ->
  Spec.priceAlerts
    (PriceWatcher.emitted (PriceWatcher.checkTokenPrice tokenContract w e).1)
  = Spec.priceAlerts (PriceWatcher.emitted w).
Proof.
  intros Htk Hoff. unfold PriceWatcher.checkTokenPrice. rewrite Htk.
  destruct (AgentsApi.getAgentStats _ _) as [[stats|err] api'].
  - destruct (Num.eqb _ 0); [reflexivity|].
    now rewrite classify_muted.
  - cbn. rewrite priceAlerts_app. cbn. apply app_nil_r.
Qed.



End TokenSettings.

(** X21. [updateTokenAlerts] on a tracked token changes the three alert
    flags of the token, each only if its key is given, and nothing else: the
    tiers, the interval, the last price and the timer of the token stay, no
    event is emitted, the API is not asked and no sample is stored. Once the
    three flags are off, a cycle of the token raises no alert, whatever the
    sample. *)
Theorem X21_updateTokenAlerts_sets_flags_only (tokenContract : string)
    (alertConfig : PriceWatcher.AlertConfig) (w : PriceWatcher.t) (e : Env.t)
    (token : PriceWatcher.TrackedToken) :
  PriceWatcher.trackedTokens w !! tokenContract = Some token ->
  let r := (PriceWatcher.updateTokenAlerts tokenContract alertConfig w e).2 in
  exists token',
    PriceWatcher.trackedTokens r.1
    = <[tokenContract := token']> (PriceWatcher.trackedTokens w)
    /\ (forall t,
          Spec.enabled (PriceWatcher.config token') t
          = default (Spec.enabled (PriceWatcher.config token) t)
              (Spec.flagOf alertConfig t))
    /\ PriceWatcher.thresholds (PriceWatcher.config token')
       = PriceWatcher.thresholds (PriceWatcher.config token)
    /\ PriceWatcher.checkInterval (PriceWatcher.config token')
       = PriceWatcher.checkInterval (PriceWatcher.config token)
    /\ PriceWatcher.lastPrice token' = PriceWatcher.lastPrice token
    /\ PriceWatcher.intervalId token' = PriceWatcher.intervalId token
    /\ PriceWatcher.timers r.1 = PriceWatcher.timers w
    /\ PriceWatcher.emitted r.1 = PriceWatcher.emitted w
    /\ Env.api r.2 = Env.api e
    /\ Database.price_history (Env.db r.2) = Database.price_history (Env.db e)
    /\ ((forall t, Spec.enabled (PriceWatcher.config token') t = false) ->
        forall e',
          Spec.priceAlerts
            (PriceWatcher.emitted
               (PriceWatcher.checkTokenPrice tokenContract r.1 e').1)
          = Spec.priceAlerts (PriceWatcher.emitted w)).
Proof.
  intros Htk r. subst r. unfold PriceWatcher.updateTokenAlerts. rewrite Htk.
  cbn [snd fst]. eexists. split; [reflexivity|].
  split; [intros []; reflexivity|].
  do 8 (split; [reflexivity|]).
  intros Hoff e'.
  rewrite (checkTokenPrice_muted tokenContract _ e' _ (lookup_insert_eq _ _ _) Hoff).
  reflexivity.
Qed.

Lemma X21_updateTokenAlerts_sets_flags_only_witness :
  exists token',
    PriceWatcher.trackedTokens
      (PriceWatcher.updateTokenAlerts "0xA1"
         {| PriceWatcher.c_enableMinorAlerts := Some false;
            PriceWatcher.c_enableMajorAlerts := None;
            PriceWatcher.c_enableCriticalAlerts := None |}
         (Sample.added 100 []).1 (Sample.added 100 []).2).2.1 !! "0xA1"
    = Some token'
    /\ PriceWatcher.enableMinorAlerts (PriceWatcher.config token') = false
    /\ PriceWatcher.enableMajorAlerts (PriceWatcher.config token') = true.
Proof.
  destruct (X21_updateTokenAlerts_sets_flags_only "0xA1"
       {| PriceWatcher.c_enableMinorAlerts := Some false;
          PriceWatcher.c_enableMajorAlerts := None;
          PriceWatcher.c_enableCriticalAlerts := None |}
       (Sample.added 100 []).1 (Sample.added 100 []).2
       {| PriceWatcher.config :=
            {| PriceWatcher.tokenContract := "0xA1";
               PriceWatcher.tokenName := "Agent";
               PriceWatcher.thresholds :=
                 {| PriceWatcher.minor := 2; PriceWatcher.major := 6;
                    PriceWatcher.critical := 10 |};
               PriceWatcher.checkInterval := 60;
               PriceWatcher.enableMinorAlerts := true;
               PriceWatcher.enableMajorAlerts := true;
               PriceWatcher.enableCriticalAlerts := true |};
          PriceWatcher.lastPrice := 100;
          PriceWatcher.lastCheckTime := 1000%Z;
          PriceWatcher.intervalId := None |})
    as (token' & Hmap & Hflags & _).
  - vm_compute. reflexivity.
  - exists token'. split.
    + cbv zeta in Hmap. rewrite Hmap. apply lookup_insert_eq.
    + split; [exact (Hflags Alert.minor) | exact (Hflags Alert.major)].
Defined.



(** X23. A preference written with [setPreference] is what
    [getPreference] answers with for its key, unless it is the empty string,
    which reads as no preference; the other keys read as before, and a
    second write of a key replaces the first. *)
Theorem X23_preference_round_trip (key value : string) (now : Z)
    (p : gmap string Preferences.UserPreference) :
  Preferences.getPreference key (Preferences.setPreference key value now p)
  = (if decide (value = EmptyString) then None else Some value)
  /\ (forall other,
        other <> key ->
        Preferences.getPreference other
          (Preferences.setPreference key value now p)
        = Preferences.getPreference other p)
  /\ (forall value0 now0,
        Preferences.setPreference key value now
          (Preferences.setPreference key value0 now0 p)
        = Preferences.setPreference key value now p).
Proof.
  unfold Preferences.getPreference, Preferences.setPreference.
  split; [|split].
  - now rewrite lookup_insert_eq.
  - intros other Hne. now rewrite lookup_insert_ne by congruence.
  - intros value0 now0. apply insert_insert_eq.
Qed.
